(** * wgmesh: a shallow embedding of the decentralized daemon

    The development follows the Go packages of the repository:
    [GoTime], [GoStrings], [GoNet] and [GoBinary] describe the parts of the
    Go standard library the daemon relies on; [Crypto] embeds [pkg/crypto]
    (key derivation and the sealed envelope), [Daemon] embeds [pkg/daemon]
    (peer store, collision handling, reconciler, configuration) and
    [Discovery] embeds [pkg/discovery] (peer exchange, LAN multicast receive
    path, contacting a peer found in the DHT); [Privacy] embeds the
    Dandelion router of [pkg/privacy].

    Conventions.
    - A Go [string] and a Go [[]byte] are byte sequences: [string] and
      [list byte].
    - A function that reads the wall clock takes the instant as an argument;
      the reads made by one call are taken at a single instant.
    - Calls into the kernel (WireGuard, interface addresses), UDP sends and
      log lines are recorded in a trace of events, in program order. Whether
      a call on a WireGuard peer or a UDP send returns an error is a
      parameter: the class [Daemon.WireGuard] and the field [conn] of a
      peer exchange.
    - A run-time panic ends the function where it happens: it is the last
      event of the trace ([Daemon.Panic]) or the result [None]
      ([Discovery.contactPeer]).
    - Go maps are [gmap]s; ranging over a map visits [map_to_list], and every
      statement about a result of such a loop is about membership, never
      about positions. *)

From Stdlib Require Import ZArith Lia String Ascii List Bool.
From stdpp Require Import gmap strings list fin_maps pretty.

Local Open Scope Z_scope.

Abbreviation byte := Byte.byte.

(** ** The [time] package *)

Module GoTime.

(** An instant, in nanoseconds since the Unix epoch. *)
Definition Time := Z.

(** [time.Duration]: a signed 64-bit count of nanoseconds. *)
Definition Duration := Z.

Definition Second : Duration := 1000000000.
Definition Minute : Duration := 60 * Second.
Definition Hour : Duration := 60 * Minute.

Definition minDuration : Duration := - 2 ^ 63.
Definition maxDuration : Duration := 2 ^ 63 - 1.

(** Two's complement wrap-around of a 64-bit signed integer. *)
Definition wrap64 (z : Z) : Z := (z + 2 ^ 63) mod 2 ^ 64 - 2 ^ 63.

(** Seconds between year 1 and 1970, the offset [time.Unix] adds to its
    argument in [int64] arithmetic. *)
Definition unixToInternal : Z := 62135596800.

(** [time.Unix(sec, 0)]. *)
Definition Unix (sec : Z) : Time :=
  (wrap64 (sec + unixToInternal) - unixToInternal) * Second.

(** [t.Unix()]: whole seconds since the epoch, rounding down. *)
Definition ToUnix (t : Time) : Z := t / Second.

(** [t.Sub(u)]: the difference, saturated to the range of [Duration]. *)
Definition Sub (t u : Time) : Duration :=
  let d := t - u in
  if d <? minDuration then minDuration
  else if maxDuration <? d then maxDuration
  else d.

(** [time.Since(t)] with the clock reading [now]. *)
Definition Since (now t : Time) : Duration := Sub now t.

Definition Add (t : Time) (d : Duration) : Time := t + d.

(** The zero [Time] of an unset field: January 1 of year 1. *)
Definition zero : Time := - unixToInternal * Second.

(** [t.After(u)]. *)
Definition After (t u : Time) : bool := u <? t.

(** Clock readings of a running daemon: after 1970 and before 2^62 ns
    (the year 2116). *)
Definition plausible (now : Time) : Prop := 0 <= now < 2 ^ 62.

Definition int64 (z : Z) : Prop := - 2 ^ 63 <= z < 2 ^ 63.

End GoTime.

(** ** [strings] and the byte searches of [internal/bytealg] *)

Module GoStrings.

(** [bytealg.IndexByteString]: the first position of [c], if any. *)
Fixpoint IndexByte (s : string) (c : ascii) : option nat :=
  match s with
  | EmptyString => None
  | String a s' =>
    if Ascii.eqb a c then Some 0%nat else option_map S (IndexByte s' c)
  end.

(** [bytealg.LastIndexByteString]: the last position of [c], if any. *)
Fixpoint LastIndexByte (s : string) (c : ascii) : option nat :=
  match s with
  | EmptyString => None
  | String a s' =>
    match LastIndexByte s' c with
    | Some i => Some (S i)
    | None => if Ascii.eqb a c then Some 0%nat else None
    end
  end.

(** The slices [s[:n]] and [s[n:]]. *)
Fixpoint take (n : nat) (s : string) : string :=
  match n, s with
  | S n', String a s' => String a (take n' s')
  | _, _ => EmptyString
  end.

Fixpoint drop (n : nat) (s : string) : string :=
  match n, s with
  | S n', String _ s' => drop n' s'
  | _, _ => s
  end.

Definition contains_byte (s : string) (c : ascii) : bool :=
  match IndexByte s c with Some _ => true | None => false end.

(** [strings.Compare]: byte-wise lexicographic order, as -1, 0 or +1. *)
Definition Compare (a b : string) : Z :=
  match String.compare a b with
  | Lt => -1
  | Eq => 0
  | Gt => 1
  end.

(** [strings.HasPrefix] and [strings.TrimPrefix]. *)
Fixpoint HasPrefix (s prefix : string) {struct prefix} : bool :=
  match prefix, s with
  | EmptyString, _ => true
  | String p prefix', String a s' => Ascii.eqb a p && HasPrefix s' prefix'
  | String _ _, EmptyString => false
  end.

Definition TrimPrefix (s prefix : string) : string :=
  if HasPrefix s prefix then drop (String.length prefix) s else s.

(** [strings.SplitN(s, sep, 2)] for a separator of one byte: [s] alone
    when the separator does not occur, the parts before and after its first
    occurrence otherwise. *)
Definition SplitN2 (s : string) (sep : ascii) : list string :=
  match IndexByte s sep with
  | None => [s]
  | Some m => [take m s; drop (m + 1) s]
  end.

(** [unicode.IsSpace] on the UTF-8 encoding of a rune. In one byte: tab,
    line feed, vertical tab, form feed, carriage return and space. In two:
    U+0085 and U+00A0. In three: U+1680, U+2000 to U+200A, U+2028, U+2029,
    U+202F, U+205F and U+3000. *)
Definition asciiSpace (a : ascii) : bool :=
  let n := nat_of_ascii a in
  ((9 <=? n)%nat && (n <=? 13)%nat) || (n =? 32)%nat.

Definition isSpace2 (a b : ascii) : bool :=
  (nat_of_ascii a =? 194)%nat
  && ((nat_of_ascii b =? 133)%nat || (nat_of_ascii b =? 160)%nat).

Definition isSpace3 (a b c : ascii) : bool :=
  let x := nat_of_ascii a in
  let y := nat_of_ascii b in
  let z := nat_of_ascii c in
  ((x =? 225)%nat && (y =? 154)%nat && (z =? 128)%nat)
  || ((x =? 226)%nat && (y =? 128)%nat
      && (((128 <=? z)%nat && (z <=? 138)%nat)
          || (z =? 168)%nat || (z =? 169)%nat || (z =? 175)%nat))
  || ((x =? 226)%nat && (y =? 129)%nat && (z =? 159)%nat)
  || ((x =? 227)%nat && (y =? 128)%nat && (z =? 128)%nat).

(** [s] is the encoding of exactly one white space rune. *)
Definition spaceRune (s : string) : bool :=
  match s with
  | String a EmptyString => asciiSpace a
  | String a (String b EmptyString) => isSpace2 a b
  | String a (String b (String c EmptyString)) => isSpace3 a b c
  | _ => false
  end.

(** [strings.TrimLeftFunc(s, unicode.IsSpace)]: runes are decoded from the
    front; a byte sequence that is no valid encoding decodes to U+FFFD,
    which is no white space. *)
Fixpoint TrimLeftSpace (s : string) : string :=
  match s with
  | EmptyString => s
  | String a s1 =>
    if asciiSpace a then TrimLeftSpace s1
    else
      match s1 with
      | EmptyString => s
      | String b s2 =>
        if isSpace2 a b then TrimLeftSpace s2
        else
          match s2 with
          | EmptyString => s
          | String c s3 => if isSpace3 a b c then TrimLeftSpace s3 else s
          end
      end
  end.

(** [strings.TrimRightFunc(s, unicode.IsSpace)]: the white space runes at
    the end are removed. The tail is trimmed first; what is left of the
    tail ends in no white space rune, so that the whole ends in one only
    when it is that rune. *)
Fixpoint TrimRightSpace (s : string) : string :=
  match s with
  | EmptyString => EmptyString
  | String a s' =>
    let t := TrimRightSpace s' in
    if spaceRune (String a t) then EmptyString else String a t
  end.

(** [strings.TrimSpace]; its fast path for ASCII returns the same
    string. *)
Definition TrimSpace (s : string) : string :=
  TrimRightSpace (TrimLeftSpace s).

End GoStrings.

(** ** The [net] package *)

Module GoNet.
Import GoStrings.

(** The test [hostport[0] == c] on a string known to be non-empty. *)
Definition firstByteIs (s : string) (c : ascii) : bool :=
  match s with
  | String a _ => Ascii.eqb a c
  | EmptyString => false
  end.

(** [net.SplitHostPort]; [None] stands for the [AddrError] results. *)
Definition SplitHostPort (hostport : string) : option (string * string) :=
  match LastIndexByte hostport ":" with
  | None => None
  | Some i =>
    let parsed :=
      if firstByteIs hostport "["
      then
        match IndexByte hostport "]" with
        | None => None
        | Some e =>
          if (e + 1 =? String.length hostport)%nat then None
          else if (e + 1 =? i)%nat
          then Some (drop 1 (take e hostport), 1%nat, (e + 1)%nat)
          else None
        end
      else
        let host := take i hostport in
        if contains_byte host ":" then None else Some (host, 0%nat, 0%nat) in
    match parsed with
    | None => None
    | Some (host, j, k) =>
      if contains_byte (drop j hostport) "[" then None
      else if contains_byte (drop k hostport) "]" then None
      else Some (host, drop (i + 1) hostport)
    end
  end.

(** [net.JoinHostPort]. *)
Definition JoinHostPort (host port : string) : string :=
  if contains_byte host ":" then "[" +:+ host +:+ "]:" +:+ port
  else host +:+ ":" +:+ port.

(** [net.UDPAddr]. The address bytes are kept in the text form
    [IP.String()] prints; [None] is the nil [IP]. *)
Record UDPAddr := mkUDPAddr {
  IP : option string;
  Port : Z;
  Zone : string
}.

(** The [String] method of [UDPAddr]. *)
Definition UDPAddr_String (a : option UDPAddr) : string :=
  match a with
  | None => "<nil>"
  | Some a =>
    let ip := match IP a with Some x => x | None => "" end in
    if negb (String.eqb (Zone a) "")
    then JoinHostPort (ip +:+ "%" +:+ Zone a) (pretty (Port a))
    else JoinHostPort ip (pretty (Port a))
  end.

End GoNet.

(** ** [encoding/binary] *)

Module GoBinary.

Definition byte_to_Z (b : byte) : Z := Z.of_N (Byte.to_N b).

(** [binary.BigEndian.Uint16(b)] = [uint16(b[1]) | uint16(b[0])<<8]. *)
Definition BigEndian_Uint16 (b : list byte) : Z :=
  Z.lor (byte_to_Z (nth 1 b Byte.x00))
        (Z.shiftl (byte_to_Z (nth 0 b Byte.x00)) 8).

End GoBinary.

(** ** [pkg/crypto] *)

Module Crypto.

Definition NonceSize : nat := 12.
Definition MaxMessageAge : GoTime.Duration := 10 * GoTime.Minute.
Definition ProtocolVersion : string := "wgmesh-v1".
Definition MessageTypeHello : string := "HELLO".
Definition MessageTypeReply : string := "REPLY".
Definition MessageTypeAnnounce : string := "ANNOUNCE".
Definition MinSecretLength : nat := 16.

Record KnownPeer := mkKnownPeer {
  kp_WGPubKey : string;
  kp_MeshIP : string;
  kp_WGEndpoint : string
}.

Record PeerAnnouncement := mkPeerAnnouncement {
  Protocol : string;
  WGPubKey : string;
  MeshIP : string;
  WGEndpoint : string;
  RoutableNetworks : list string;
  Timestamp : Z;
  KnownPeers : list KnownPeer
}.

Record Envelope := mkEnvelope {
  MessageType : string;
  Nonce : list byte;
  Ciphertext : list byte
}.

Record DerivedKeys := mkDerivedKeys {
  NetworkID : list byte;
  GossipKey : list byte;
  MeshSubnet : list byte;
  MulticastID : list byte;
  PSK : list byte;
  GossipPort : Z
}.

(** The errors the package builds with [fmt.Errorf], one constructor per
    message, and [ErrMarshalEnvelope], the error of [json.Marshal] on the
    envelope, which [SealEnvelope] returns as it is. *)
Inductive error :=
| ErrMarshalPayload
| ErrMarshalEnvelope
| ErrCreateCipher
| ErrCreateGCM
| ErrGenerateNonce
| ErrUnmarshalEnvelope
| ErrInvalidNonceSize (n : nat)
| ErrDecryptionFailed
| ErrUnmarshalAnnouncement
| ErrUnsupportedProtocol (v : string)
| ErrMessageTooOld (age : GoTime.Duration)
| ErrTimestampInFuture
| ErrSecretTooShort
| ErrDerive (what : string).

(** The library code the package calls: [encoding/json] on the two wire
    structs, AES-GCM from [crypto/aes] and [crypto/cipher], SHA-256 and
    HKDF-SHA-256. None of it belongs to the repository; it is a parameter
    of the development. [hkdf_read secret salt n] is the outcome of
    [io.ReadFull] of [n] bytes from a fresh [hkdf.New(sha256.New, secret,
    salt, nil)]. *)
Class GoLib := {
  json_Marshal_announcement : PeerAnnouncement -> option (list byte);
  json_Unmarshal_announcement : list byte -> option PeerAnnouncement;
  json_Marshal_envelope : Envelope -> option (list byte);
  json_Unmarshal_envelope : list byte -> option Envelope;
  gcm_Seal : list byte -> list byte -> list byte -> list byte;
  gcm_Open : list byte -> list byte -> list byte -> option (list byte);
  sha256_Sum256 : string -> list byte;
  hkdf_read : string -> string -> nat -> option (list byte)
}.

(** [aes.NewCipher] accepts keys of 16, 24 or 32 bytes; the block is
    represented by its key. *)
Definition aes_NewCipher (key : list byte) : option (list byte) :=
  if (length key =? 16)%nat || (length key =? 24)%nat || (length key =? 32)%nat
  then Some key else None.

(** [cipher.NewGCM] accepts every block of 128 bits, hence every AES
    block. *)
Definition cipher_NewGCM (block : list byte) : option (list byte) := Some block.

Section WithLib.
Context `{lib : GoLib}.

(** [SealEnvelope]. [entropy] is what [io.ReadFull(rand.Reader, nonce)]
    delivers: the twelve bytes read, or [None] on a read error. *)
Definition SealEnvelope (messageType : string) (payload : PeerAnnouncement)
    (gossipKey : list byte) (entropy : option (list byte))
    : option (list byte) * option error :=
  match json_Marshal_announcement payload with
  | None => (None, Some ErrMarshalPayload)
  | Some plaintext =>
    match aes_NewCipher gossipKey with
    | None => (None, Some ErrCreateCipher)
    | Some block =>
      match cipher_NewGCM block with
      | None => (None, Some ErrCreateGCM)
      | Some gcm =>
        match entropy with
        | None => (None, Some ErrGenerateNonce)
        | Some nonce =>
          let ciphertext := gcm_Seal gcm nonce plaintext in
          let envelope := mkEnvelope messageType nonce ciphertext in
          match json_Marshal_envelope envelope with
          | Some data => (Some data, None)
          | None => (None, Some ErrMarshalEnvelope)
          end
        end
      end
    end
  end.

(** [OpenEnvelope], at the clock reading [now]. *)
Definition OpenEnvelope (data : list byte) (gossipKey : list byte)
    (now : GoTime.Time)
    : option Envelope * option PeerAnnouncement * option error :=
  match json_Unmarshal_envelope data with
  | None => (None, None, Some ErrUnmarshalEnvelope)
  | Some envelope =>
    if negb (length (Nonce envelope) =? NonceSize)%nat
    then (None, None, Some (ErrInvalidNonceSize (length (Nonce envelope))))
    else
    match aes_NewCipher gossipKey with
    | None => (None, None, Some ErrCreateCipher)
    | Some block =>
      match cipher_NewGCM block with
      | None => (None, None, Some ErrCreateGCM)
      | Some gcm =>
        match gcm_Open gcm (Nonce envelope) (Ciphertext envelope) with
        | None => (None, None, Some ErrDecryptionFailed)
        | Some plaintext =>
          match json_Unmarshal_announcement plaintext with
          | None => (None, None, Some ErrUnmarshalAnnouncement)
          | Some announcement =>
            if negb (String.eqb (Protocol announcement) ProtocolVersion)
            then (None, None,
                  Some (ErrUnsupportedProtocol (Protocol announcement)))
            else
              let msgTime := GoTime.Unix (Timestamp announcement) in
              if MaxMessageAge <? GoTime.Since now msgTime
              then (None, None,
                    Some (ErrMessageTooOld (GoTime.Since now msgTime)))
              else if GoTime.After msgTime (GoTime.Add now MaxMessageAge)
              then (None, None, Some ErrTimestampInFuture)
              else (Some envelope, Some announcement, None)
          end
        end
      end
    end
  end.

(** [CreateAnnouncement], at the clock reading [now]. *)
Definition CreateAnnouncement (wgPubKey meshIP wgEndpoint : string)
    (routableNetworks : list string) (knownPeers : list KnownPeer)
    (now : GoTime.Time) : PeerAnnouncement :=
  mkPeerAnnouncement ProtocolVersion wgPubKey meshIP wgEndpoint
    routableNetworks (GoTime.ToUnix now) knownPeers.

(** [deriveHKDF], returning the filled output buffer. *)
Definition deriveHKDF (secret salt : string) (n : nat) : option (list byte) :=
  hkdf_read secret salt n.

(** [DeriveKeys]. The port is computed in [uint16] arithmetic. *)
Definition DeriveKeys (secret : string) : option DerivedKeys * option error :=
  if (String.length secret <? MinSecretLength)%nat
  then (None, Some ErrSecretTooShort)
  else
    let hash := sha256_Sum256 secret in
    let networkID := firstn 20 hash in
    match deriveHKDF secret "wgmesh-gossip-v1" 32 with
    | None => (None, Some (ErrDerive "gossip key"))
    | Some gossipKey =>
    match deriveHKDF secret "wgmesh-subnet-v1" 2 with
    | None => (None, Some (ErrDerive "mesh subnet"))
    | Some meshSubnet =>
    match deriveHKDF secret "wgmesh-mcast-v1" 4 with
    | None => (None, Some (ErrDerive "multicast ID"))
    | Some multicastID =>
    match deriveHKDF secret "wgmesh-wg-psk-v1" 32 with
    | None => (None, Some (ErrDerive "PSK"))
    | Some psk =>
    match deriveHKDF secret "wgmesh-gossip-port-v1" 2 with
    | None => (None, Some (ErrDerive "gossip port"))
    | Some portBytes =>
      let port :=
        (51821 + (GoBinary.BigEndian_Uint16 portBytes mod 1000)) mod 2 ^ 16 in
      (Some (mkDerivedKeys networkID gossipKey meshSubnet multicastID psk port),
       None)
    end end end end end.

(** The last step of [DeriveMeshIP] and [DeriveMeshIPWithNonce]: clamp
    the 16-bit suffix away from 0 and 65535 and print the address. *)
Definition meshIPOfHash (meshSubnet : list byte) (hash : list byte) : string :=
  let suffix := GoBinary.BigEndian_Uint16 (firstn 2 hash) in
  let suffix :=
    if suffix =? 0 then 1
    else if suffix =? 65535 then 65534
    else suffix in
  "10." +:+ pretty (GoBinary.byte_to_Z (nth 0 meshSubnet Byte.x00))
    +:+ "." +:+ pretty (Z.land (Z.shiftr suffix 8) 255)
    +:+ "." +:+ pretty (Z.land suffix 255).

(** [DeriveMeshIP]. *)
Definition DeriveMeshIP (meshSubnet : list byte) (wgPubKey secret : string)
    : string :=
  meshIPOfHash meshSubnet (sha256_Sum256 (wgPubKey +:+ secret)).

(** [DeriveNetworkIDWithTime]. The hour is [t.Unix() / 3600] in [int64]
    arithmetic, a division that rounds towards zero; the input of the hash
    is [fmt.Sprintf("%s||%d", secret, hourEpoch)]. The error returned is
    always [nil]. *)
Definition DeriveNetworkIDWithTime (secret : string) (t : GoTime.Time)
    : list byte :=
  let hourEpoch := Z.quot (GoTime.ToUnix t) 3600 in
  firstn 20 (sha256_Sum256 (secret +:+ "||" +:+ pretty hourEpoch)).

(** [GetCurrentAndPreviousNetworkIDs], at the clock reading [now]. *)
Definition GetCurrentAndPreviousNetworkIDs (secret : string)
    (now : GoTime.Time) : list byte * list byte :=
  (DeriveNetworkIDWithTime secret now,
   DeriveNetworkIDWithTime secret (GoTime.Add now (-1 * GoTime.Hour))).

End WithLib.

End Crypto.

(** ** [pkg/daemon] *)

Module Daemon.
Import GoTime.

Definition PeerDeadTimeout : Duration := 5 * Minute.
Definition PeerRemoveTimeout : Duration := 10 * Minute.
Definition DefaultWGPort : Z := 51820.

Record PeerInfo := mkPeerInfo {
  WGPubKey : string;
  MeshIP : string;
  Endpoint : string;
  RoutableNetworks : list string;
  LastSeen : Time;
  DiscoveredVia : list string;
  Latency : option Duration
}.

(** The map [peers] of [PeerStore], keyed by WireGuard public key. The
    mutex is not modelled: every operation below is one critical
    section. *)
Abbreviation PeerStore := (gmap string PeerInfo).

Definition NewPeerStore : PeerStore := ∅.

(** The search loop of [Update]: is [discoveryMethod] already listed? *)
Fixpoint methodFound (via : list string) (discoveryMethod : string) : bool :=
  match via with
  | [] => false
  | method :: rest =>
    if String.eqb method discoveryMethod then true
    else methodFound rest discoveryMethod
  end.

(** The merge branch of [Update]: the fields of [existing] after the
    assignments. *)
Definition mergePeer (existing info : PeerInfo) (discoveryMethod : string)
    (now : Time) : PeerInfo :=
  {| WGPubKey := WGPubKey existing;
     MeshIP :=
       if negb (String.eqb (MeshIP info) "") then MeshIP info
       else MeshIP existing;
     Endpoint :=
       if negb (String.eqb (Endpoint info) "") then Endpoint info
       else Endpoint existing;
     RoutableNetworks :=
       if (0 <? length (RoutableNetworks info))%nat then RoutableNetworks info
       else RoutableNetworks existing;
     LastSeen := now;
     DiscoveredVia :=
       if methodFound (DiscoveredVia existing) discoveryMethod
       then DiscoveredVia existing
       else DiscoveredVia existing ++ [discoveryMethod];
     Latency := Latency existing |}.

(** [PeerStore.Update], at the clock reading [now]. *)
Definition Update (ps : PeerStore) (info : PeerInfo) (discoveryMethod : string)
    (now : Time) : PeerStore :=
  match ps !! WGPubKey info with
  | None =>
    <[WGPubKey info :=
        {| WGPubKey := WGPubKey info;
           MeshIP := MeshIP info;
           Endpoint := Endpoint info;
           RoutableNetworks := RoutableNetworks info;
           LastSeen := now;
           DiscoveredVia := [discoveryMethod];
           Latency := Latency info |}]> ps
  | Some existing =>
    <[WGPubKey info := mergePeer existing info discoveryMethod now]> ps
  end.

(** [PeerStore.Get]. *)
Definition Get (ps : PeerStore) (pubKey : string) : option PeerInfo * bool :=
  match ps !! pubKey with
  | None => (None, false)
  | Some peer => (Some peer, true)
  end.

(** [PeerStore.GetAll]. *)
Definition GetAll (ps : PeerStore) : list PeerInfo :=
  foldl (fun result kv => result ++ [kv.2]) [] (map_to_list ps).

(** [PeerStore.GetActive], at the clock reading [now]. *)
Definition GetActive (ps : PeerStore) (now : Time) : list PeerInfo :=
  foldl (fun result kv =>
           if Sub now (LastSeen kv.2) <? PeerDeadTimeout
           then result ++ [kv.2] else result)
        [] (map_to_list ps).

(** [PeerStore.Remove]. *)
Definition Remove (ps : PeerStore) (pubKey : string) : PeerStore :=
  delete pubKey ps.

(** [PeerStore.CleanupStale], at the clock reading [now]: the store left
    behind and the keys removed. *)
Definition CleanupStale (ps : PeerStore) (now : Time)
    : PeerStore * list string :=
  foldl (fun st kv =>
           if PeerRemoveTimeout <? Sub now (LastSeen kv.2)
           then (delete kv.1 st.1, st.2 ++ [kv.1]) else st)
        (ps, []) (map_to_list ps).

(** [PeerStore.Count]. *)
Definition Count (ps : PeerStore) : nat := size ps.

(** [PeerStore.IsDead], at the clock reading [now]. *)
Definition IsDead (ps : PeerStore) (pubKey : string) (now : Time) : bool :=
  match ps !! pubKey with
  | None => true
  | Some peer => PeerDeadTimeout <? Since now (LastSeen peer)
  end.

(** *** Collisions of mesh addresses *)

Record CollisionInfo := mkCollisionInfo {
  c_MeshIP : string;
  Peer1 : PeerInfo;
  Peer2 : PeerInfo
}.

(** One round of the loop of [DetectCollisions] over the peer [peer]. *)
Definition detectStep (st : gmap string PeerInfo * list CollisionInfo)
    (peer : PeerInfo) : gmap string PeerInfo * list CollisionInfo :=
  if String.eqb (MeshIP peer) "" then st
  else
    match st.1 !! MeshIP peer with
    | Some existing =>
      if negb (String.eqb (WGPubKey existing) (WGPubKey peer))
      then (st.1, st.2 ++ [mkCollisionInfo (MeshIP peer) existing peer])
      else st
    | None => (<[MeshIP peer := peer]> st.1, st.2)
    end.

(** [PeerStore.DetectCollisions]. *)
Definition DetectCollisions (ps : PeerStore) : list CollisionInfo :=
  (foldl detectStep (∅, []) (map snd (map_to_list ps))).2.

(** [DeterministicWinner]: winner first, loser second. *)
Definition DeterministicWinner (peer1 peer2 : PeerInfo) : PeerInfo * PeerInfo :=
  if GoStrings.Compare (WGPubKey peer1) (WGPubKey peer2) <? 0
  then (peer1, peer2)
  else (peer2, peer1).

(** [safeKeyPrefix]. *)
Definition safeKeyPrefix (key : string) : string :=
  if (8 <? String.length key)%nat then GoStrings.take 8 key +:+ "..." else key.

Record Config := mkConfig {
  Secret : string;
  Keys : Crypto.DerivedKeys;
  InterfaceName : string;
  WGListenPort : Z;
  AdvertiseRoutes : list string;
  LogLevel : string
}.

Record LocalNode := mkLocalNode {
  ln_WGPubKey : string;
  ln_WGPrivateKey : string;
  ln_MeshIP : string;
  ln_WGEndpoint : string;
  ln_RoutableNetworks : list string
}.

(** The fields of [Daemon] the reconciler and the collision handler
    use. *)
Record Daemon := mkDaemon {
  config : Config;
  localNode : LocalNode;
  peerStore : PeerStore
}.

(** What the daemon does to the outside: calls on the WireGuard driver and
    the interface, and the lines it logs about collisions with the values
    printed. The outcome of setting the interface address reaches only the
    log and is not recorded. The outcome of a call on a peer is: the
    reconciler logs the failure with a slice of the key, and the slice can
    panic, which ends the process. *)
Inductive Event :=
| SetInterfaceAddress (name address : string)
| SetPeer (iface pubKey : string) (psk : list byte) (endpoint allowedIPs : string)
| RemovePeer (iface pubKey : string)
| LogCollisionDetected (meshIP winner loser : string)
| LogLostCollision (oldIP newIP : string)
| LogRemoteShouldRederive (loser newIP : string)
| LogConfigureFailed (peer : string)
| LogRemoveFailed (peer : string)
| Panic.

(** The command [wg] behind [wireguard.SetPeer] and
    [wireguard.RemovePeer]: whether the call returns an error. Within one
    tick the answer is taken to depend on the call alone. *)
Class WireGuard := {
  SetPeer_fails : string -> string -> list byte -> string -> string -> bool;
  RemovePeer_fails : string -> string -> bool
}.

Section WithLib.
Context `{lib : Crypto.GoLib}.

(** [DeriveMeshIPWithNonce]; the input is
    [fmt.Sprintf("%s%s|nonce=%d", wgPubKey, secret, nonce)]. *)
Definition DeriveMeshIPWithNonce (meshSubnet : list byte)
    (wgPubKey secret : string) (nonce : Z) : string :=
  Crypto.meshIPOfHash meshSubnet
    (Crypto.sha256_Sum256
       (wgPubKey +:+ secret +:+ "|nonce=" +:+ pretty nonce)).

(** [ResolveCollision]. *)
Definition ResolveCollision (collision : CollisionInfo)
    (meshSubnet : list byte) (secret : string) : string :=
  let loser := (DeterministicWinner (Peer1 collision) (Peer2 collision)).2 in
  DeriveMeshIPWithNonce meshSubnet (WGPubKey loser) secret 1.

(** The body of the loop of [CheckAndResolveCollisions] for one
    collision. *)
Definition resolveStep (st : Daemon * list Event) (collision : CollisionInfo)
    : Daemon * list Event :=
  let d := st.1 in
  let winner := (DeterministicWinner (Peer1 collision) (Peer2 collision)).1 in
  let loser := (DeterministicWinner (Peer1 collision) (Peer2 collision)).2 in
  let logged :=
    st.2 ++ [LogCollisionDetected (c_MeshIP collision)
               (safeKeyPrefix (WGPubKey winner))
               (safeKeyPrefix (WGPubKey loser))] in
  if String.eqb (WGPubKey loser) (ln_WGPubKey (localNode d))
  then
    let newIP :=
      DeriveMeshIPWithNonce (Crypto.MeshSubnet (Keys (config d)))
        (ln_WGPubKey (localNode d)) (Secret (config d)) 1 in
    let node := localNode d in
    (mkDaemon (config d)
       (mkLocalNode (ln_WGPubKey node) (ln_WGPrivateKey node) newIP
          (ln_WGEndpoint node) (ln_RoutableNetworks node))
       (peerStore d),
     logged ++ [LogLostCollision (ln_MeshIP node) newIP;
                SetInterfaceAddress (InterfaceName (config d))
                  (newIP +:+ "/16")])
  else
    let newIP :=
      ResolveCollision collision (Crypto.MeshSubnet (Keys (config d)))
        (Secret (config d)) in
    (d, logged ++ [LogRemoteShouldRederive
                     (safeKeyPrefix (WGPubKey loser)) newIP]).

(** [Daemon.CheckAndResolveCollisions]. *)
Definition CheckAndResolveCollisions (d : Daemon) : Daemon * list Event :=
  let collisions := DetectCollisions (peerStore d) in
  if (length collisions =? 0)%nat then (d, [])
  else foldl resolveStep (d, []) collisions.

(** [DeriveMeshIPWithCollisionCheck]: [fuel] counts the rounds left of
    the loop [for nonce := 1; nonce <= 10; nonce++]. *)
Fixpoint collisionCheckLoop (fuel : nat) (nonce : Z) (ip : string)
    (meshSubnet : list byte) (wgPubKey secret : string)
    (existingIPs : gmap string string) : string :=
  match fuel with
  | O => ip
  | S fuel' =>
    match existingIPs !! ip with
    | None => ip
    | Some owner =>
      if String.eqb owner wgPubKey then ip
      else collisionCheckLoop fuel' (nonce + 1)
             (DeriveMeshIPWithNonce meshSubnet wgPubKey secret nonce)
             meshSubnet wgPubKey secret existingIPs
    end
  end.

Definition DeriveMeshIPWithCollisionCheck (meshSubnet : list byte)
    (wgPubKey secret : string) (existingIPs : gmap string string) : string :=
  collisionCheckLoop 10 1 (Crypto.DeriveMeshIP meshSubnet wgPubKey secret)
    meshSubnet wgPubKey secret existingIPs.

End WithLib.

(** *** The reconciler *)

(** [Daemon.configurePeer]: the call it makes. *)
Definition configurePeer (d : Daemon) (peer : PeerInfo) : Event :=
  let allowedIPs :=
    foldl (fun acc net => acc +:+ "," +:+ net) (MeshIP peer +:+ "/32")
          (RoutableNetworks peer) in
  SetPeer (InterfaceName (config d)) (WGPubKey peer)
          (Crypto.PSK (Keys (config d))) (Endpoint peer) allowedIPs.

(** [Daemon.removePeer]: the call it makes. *)
Definition removePeer (d : Daemon) (pubKey : string) : Event :=
  RemovePeer (InterfaceName (config d)) pubKey.

(** The slice [key[:8]+"..."] of the two log lines of [reconcile]; [None]
    when the key is shorter than eight bytes and the slice panics. *)
Definition keyPrefix8 (key : string) : option string :=
  if (String.length key <? 8)%nat then None
  else Some (GoStrings.take 8 key +:+ "...").

Section WithWireGuard.
Context `{wg : WireGuard}.

(** The error [configurePeer] and [removePeer] hand back: that of the
    call. *)
Definition callFails (call : Event) : bool :=
  match call with
  | SetPeer iface pubKey psk endpoint allowedIPs =>
    SetPeer_fails iface pubKey psk endpoint allowedIPs
  | RemovePeer iface pubKey => RemovePeer_fails iface pubKey
  | _ => false
  end.

(** The first loop of [reconcile]: the trace, and whether the loop ended
    in a panic. *)
Fixpoint configureLoop (d : Daemon) (peers : list PeerInfo)
    : list Event * bool :=
  match peers with
  | [] => ([], false)
  | peer :: rest =>
    if String.eqb (WGPubKey peer) (ln_WGPubKey (localNode d))
    then configureLoop d rest
    else
      let call := configurePeer d peer in
      if callFails call
      then match keyPrefix8 (WGPubKey peer) with
           | Some prefix =>
             let r := configureLoop d rest in
             (call :: LogConfigureFailed prefix :: r.1, r.2)
           | None => ([call; Panic], true)
           end
      else
        let r := configureLoop d rest in
        (call :: r.1, r.2)
  end.

(** The second loop of [reconcile], over the keys [CleanupStale]
    returned. *)
Fixpoint removeLoop (d : Daemon) (removed : list string) : list Event * bool :=
  match removed with
  | [] => ([], false)
  | pubKey :: rest =>
    let call := removePeer d pubKey in
    if callFails call
    then match keyPrefix8 pubKey with
         | Some prefix =>
           let r := removeLoop d rest in
           (call :: LogRemoveFailed prefix :: r.1, r.2)
         | None => ([call; Panic], true)
         end
    else
      let r := removeLoop d rest in
      (call :: r.1, r.2)
  end.

(** [Daemon.reconcile], one tick at the clock reading [now]: the daemon
    it leaves and what it did. A panic ends the tick where it happens: the
    trace ends with [Panic] and the rest of the function does not run. *)
Definition reconcile (d : Daemon) (now : Time) : Daemon * list Event :=
  let peers := GetActive (peerStore d) now in
  if (length peers =? 0)%nat then (d, [])
  else
    let configured := configureLoop d peers in
    if configured.2 then (d, configured.1)
    else
      let cleaned := CleanupStale (peerStore d) now in
      (mkDaemon (config d) (localNode d) cleaned.1,
       configured.1 ++ (removeLoop d cleaned.2).1).

End WithWireGuard.

(** [Daemon.setLocalWGEndpoint], for a daemon whose local node is set. *)
Definition setLocalWGEndpoint (d : Daemon) : Daemon :=
  let node := localNode d in
  mkDaemon (config d)
    (mkLocalNode (ln_WGPubKey node) (ln_WGPrivateKey node) (ln_MeshIP node)
       (GoNet.JoinHostPort "0.0.0.0" (pretty (WGListenPort (config d))))
       (ln_RoutableNetworks node))
    (peerStore d).

(** *** The listen port *)

(** The loop of [findAvailablePort]. [inUse port] is the answer of the
    probe [isPortInUse(port)]; a call probes a port at most once. [bound]
    is [startPort+100] and [fuel] counts the rounds left. *)
Fixpoint findAvailablePortLoop (inUse : Z -> bool) (fuel : nat) (port bound : Z)
    : Z :=
  match fuel with
  | O => 0
  | S fuel' =>
    if port <? bound
    then if negb (inUse port) then port
         else findAvailablePortLoop inUse fuel' (wrap64 (port + 1)) bound
    else 0
  end.

(** [findAvailablePort], in [int] arithmetic of 64 bits. One hundred and
    one rounds reach the test that ends the loop. *)
Definition findAvailablePort (inUse : Z -> bool) (startPort : Z) : Z :=
  findAvailablePortLoop inUse 101 startPort (wrap64 (startPort + 100)).

(** The choice of the listen port in [Daemon.setupWireGuard]: the port
    handed to [configureInterface] and stored in the configuration, or
    [None] when the function returns its error. *)
Definition setupWireGuard_port (inUse : Z -> bool) (listenPort : Z) : option Z :=
  if inUse listenPort
  then
    let availablePort := findAvailablePort inUse (wrap64 (listenPort + 1)) in
    if availablePort =? 0 then None else Some availablePort
  else Some listenPort.

(** *** Configuration *)

Definition URIPrefix : string := "wgmesh://".
Definition URIVersion : string := "v1".
Definition DefaultInterface : string := "wg0".

Record DaemonOpts := mkDaemonOpts {
  o_Secret : string;
  o_InterfaceName : string;
  o_WGListenPort : Z;
  o_AdvertiseRoutes : list string;
  o_LogLevel : string
}.

(** [FormatSecretURI]. *)
Definition FormatSecretURI (secret : string) : string :=
  URIPrefix +:+ URIVersion +:+ "/" +:+ secret.

(** [parseSecret]. *)
Definition parseSecret (input : string) : string :=
  let input := GoStrings.TrimSpace input in
  if GoStrings.HasPrefix input URIPrefix
  then
    let input := GoStrings.TrimPrefix input URIPrefix in
    match GoStrings.SplitN2 input "/" with
    | [_; secret] =>
      match GoStrings.IndexByte secret "?" with
      | Some idx => GoStrings.take idx secret
      | None => secret
      end
    | parts => nth 0 parts EmptyString
    end
  else input.

(** The error of [NewConfig]: the error of [DeriveKeys], wrapped. *)
Inductive error :=
| ErrDeriveKeys (cause : Crypto.error).

Section Configuration.
Context `{lib : Crypto.GoLib}.

(** [NewConfig]. [DeriveKeys] returns keys whenever it returns no error,
    so that the last case does not occur. *)
Definition NewConfig (opts : DaemonOpts) : option Config * option error :=
  let secret := parseSecret (o_Secret opts) in
  match Crypto.DeriveKeys secret with
  | (_, Some err) => (None, Some (ErrDeriveKeys err))
  | (Some keys, None) =>
    let ifaceName :=
      if String.eqb (o_InterfaceName opts) "" then DefaultInterface
      else o_InterfaceName opts in
    let listenPort :=
      if o_WGListenPort opts =? 0 then DefaultWGPort else o_WGListenPort opts in
    let logLevel :=
      if String.eqb (o_LogLevel opts) "" then "info" else o_LogLevel opts in
    (Some (mkConfig secret keys ifaceName listenPort (o_AdvertiseRoutes opts)
             logLevel),
     None)
  | (None, None) => (None, None)
  end.

End Configuration.

End Daemon.

(** ** [pkg/discovery] *)

Module Discovery.
Import GoTime GoNet.

Definition DHTMethod : string := "dht".
Definition LANMethod : string := "lan".

Record LocalNode := mkLocalNode {
  WGPubKey : string;
  WGPrivateKey : string;
  MeshIP : string;
  WGEndpoint : string;
  RoutableNetworks : list string
}.

(** The test [host == "" || host == "0.0.0.0" || host == "::"]. *)
Definition unspecifiedHost (host : string) : bool :=
  String.eqb host "" || String.eqb host "0.0.0.0" || String.eqb host "::".

(** The source address of a datagram, when [sender != nil && sender.IP !=
    nil]. *)
Definition senderIP (sender : option UDPAddr) : option string :=
  match sender with
  | Some a => IP a
  | None => None
  end.

(** [resolvePeerEndpoint] of the peer exchange. *)
Definition resolvePeerEndpoint (advertised : string) (sender : option UDPAddr)
    : string :=
  let fallback :=
    match senderIP sender with
    | Some ip => JoinHostPort ip (pretty Daemon.DefaultWGPort)
    | None => ""
    end in
  match SplitHostPort advertised with
  | Some (host, port) =>
    let resolvedHost :=
      if unspecifiedHost host
      then match senderIP sender with
           | Some ip => ip
           | None => host
           end
      else host in
    if negb (String.eqb resolvedHost "") then JoinHostPort resolvedHost port
    else fallback
  | None => fallback
  end.

(** [resolveEndpoint] of the LAN listener. *)
Definition resolveEndpoint (advertised : string) (sender : option UDPAddr)
    : string :=
  match SplitHostPort advertised with
  | Some (host, port) =>
    if unspecifiedHost host
    then match senderIP sender with
         | Some ip => JoinHostPort ip port
         | None => advertised
         end
    else advertised
  | None =>
    match senderIP sender with
    | Some ip => JoinHostPort ip (pretty Daemon.DefaultWGPort)
    | None => ""
    end
  end.

(** [normalizeKnownPeerEndpoint]. *)
Definition normalizeKnownPeerEndpoint (endpoint : string) : string :=
  if String.eqb endpoint "" then ""
  else match SplitHostPort endpoint with
       | None => ""
       | Some _ => endpoint
       end.

(** The [PeerInfo] literals of the receive paths: the fields not named
    hold their zero values. *)
Definition newPeerInfo (wgPubKey meshIP endpoint : string)
    (routableNetworks : list string) : Daemon.PeerInfo :=
  Daemon.mkPeerInfo wgPubKey meshIP endpoint routableNetworks GoTime.zero []
    None.

(** The state of a [PeerExchange]. The socket [conn] is kept as the
    answer it gives to a write: whether [WriteToUDP] of a datagram to an
    address returns an error. A reply channel made by [ExchangeWithPeer]
    has capacity one and is kept as the list of values it buffers. *)
Record PeerExchange := mkPeerExchange {
  config : Daemon.Config;
  localNode : LocalNode;
  peerStore : Daemon.PeerStore;
  conn : list byte -> UDPAddr -> bool;
  port : Z;
  pendingReplies : gmap string (list Daemon.PeerInfo)
}.

(** The errors of [sendReply] and [SendAnnounce]: the envelope could not
    be sealed, or the write on the socket failed. *)
Inductive error :=
| ErrSeal
| ErrWriteToUDP.

(** The writes asked of the socket and the lines logged. *)
Inductive Event :=
| WriteToUDP (data : list byte) (addr : UDPAddr)
| LogNonWgmeshPacket (from : string) (len : nat)
| LogValidMessage (messageType from : string)
| LogUnknownMessageType (messageType : string)
| LogUnsolicitedReply (from : string)
| LogReplyFailed (to : string).

Definition withStore (pe : PeerExchange) (ps : Daemon.PeerStore)
    : PeerExchange :=
  mkPeerExchange (config pe) (localNode pe) ps (conn pe) (port pe)
    (pendingReplies pe).

Section WithLib.
Context `{lib : Crypto.GoLib}.

(** [PeerExchange.updateTransitivePeers]. *)
Definition updateTransitivePeers (pe : PeerExchange)
    (knownPeers : list Crypto.KnownPeer) (now : Time) : PeerExchange :=
  withStore pe
    (foldl (fun ps kp =>
              if String.eqb (Crypto.kp_WGPubKey kp) (WGPubKey (localNode pe))
              then ps
              else Daemon.Update ps
                     (newPeerInfo (Crypto.kp_WGPubKey kp) (Crypto.kp_MeshIP kp)
                        (normalizeKnownPeerEndpoint (Crypto.kp_WGEndpoint kp))
                        [])
                     (DHTMethod +:+ "-transitive") now)
           (peerStore pe) knownPeers).

(** [PeerExchange.getKnownPeers]. *)
Definition getKnownPeers (pe : PeerExchange) (now : Time)
    : list Crypto.KnownPeer :=
  foldl (fun knownPeers p =>
           knownPeers ++ [Crypto.mkKnownPeer (Daemon.WGPubKey p)
                            (Daemon.MeshIP p) (Daemon.Endpoint p)])
        [] (Daemon.GetActive (peerStore pe) now).

(** The announcement of the local node that [sendReply],
    [ExchangeWithPeer] and [SendAnnounce] seal. *)
Definition localAnnouncement (pe : PeerExchange) (now : Time)
    : Crypto.PeerAnnouncement :=
  Crypto.CreateAnnouncement (WGPubKey (localNode pe)) (MeshIP (localNode pe))
    (WGEndpoint (localNode pe)) (RoutableNetworks (localNode pe))
    (getKnownPeers pe now) now.

(** [PeerExchange.sendReply]: the write it asks of the socket, if it gets
    that far, and the error it returns. *)
Definition sendReply (pe : PeerExchange) (remoteAddr : UDPAddr) (now : Time)
    (entropy : option (list byte)) : list Event * option error :=
  match Crypto.SealEnvelope Crypto.MessageTypeReply (localAnnouncement pe now)
          (Crypto.GossipKey (Daemon.Keys (config pe))) entropy with
  | (Some data, None) =>
    ([WriteToUDP data remoteAddr],
     if conn pe data remoteAddr then Some ErrWriteToUDP else None)
  | _ => ([], Some ErrSeal)
  end.

(** [PeerExchange.SendAnnounce]. *)
Definition SendAnnounce (pe : PeerExchange) (remoteAddr : UDPAddr) (now : Time)
    (entropy : option (list byte)) : list Event * option error :=
  match Crypto.SealEnvelope Crypto.MessageTypeAnnounce
          (localAnnouncement pe now)
          (Crypto.GossipKey (Daemon.Keys (config pe))) entropy with
  | (Some data, None) =>
    ([WriteToUDP data remoteAddr],
     if conn pe data remoteAddr then Some ErrWriteToUDP else None)
  | _ => ([], Some ErrSeal)
  end.

(** [PeerExchange.handleHello]. *)
Definition handleHello (pe : PeerExchange)
    (announcement : Crypto.PeerAnnouncement) (remoteAddr : UDPAddr)
    (now : Time) (entropy : option (list byte))
    : PeerExchange * list Event :=
  if String.eqb (Crypto.WGPubKey announcement) (WGPubKey (localNode pe))
  then (pe, [])
  else
    let peerInfo :=
      newPeerInfo (Crypto.WGPubKey announcement) (Crypto.MeshIP announcement)
        (resolvePeerEndpoint (Crypto.WGEndpoint announcement) (Some remoteAddr))
        (Crypto.RoutableNetworks announcement) in
    let pe1 := withStore pe (Daemon.Update (peerStore pe) peerInfo DHTMethod now) in
    let pe2 := updateTransitivePeers pe1 (Crypto.KnownPeers announcement) now in
    let sent := sendReply pe2 remoteAddr now entropy in
    match sent.2 with
    | None => (pe2, sent.1)
    | Some _ =>
      (pe2, sent.1 ++ [LogReplyFailed (UDPAddr_String (Some remoteAddr))])
    end.

(** [PeerExchange.handleReply]. A pending channel takes the value when
    its buffer has room ([select] with [default]). *)
Definition handleReply (pe : PeerExchange) (reply : Crypto.PeerAnnouncement)
    (remoteAddr : UDPAddr) (now : Time) : PeerExchange * list Event :=
  let peerInfo :=
    newPeerInfo (Crypto.WGPubKey reply) (Crypto.MeshIP reply)
      (resolvePeerEndpoint (Crypto.WGEndpoint reply) (Some remoteAddr))
      (Crypto.RoutableNetworks reply) in
  let pe1 := updateTransitivePeers pe (Crypto.KnownPeers reply) now in
  match pendingReplies pe1 !! UDPAddr_String (Some remoteAddr) with
  | Some buffered =>
    (mkPeerExchange (config pe1) (localNode pe1) (peerStore pe1) (conn pe1)
       (port pe1)
       (if (length buffered <? 1)%nat
        then <[UDPAddr_String (Some remoteAddr) := buffered ++ [peerInfo]]>
               (pendingReplies pe1)
        else pendingReplies pe1),
     [])
  | None =>
    (withStore pe1 (Daemon.Update (peerStore pe1) peerInfo DHTMethod now),
     [LogUnsolicitedReply (UDPAddr_String (Some remoteAddr))])
  end.

(** [PeerExchange.handleMessage]. *)
Definition handleMessage (pe : PeerExchange) (data : list byte)
    (remoteAddr : UDPAddr) (now : Time) (entropy : option (list byte))
    : PeerExchange * list Event :=
  match Crypto.OpenEnvelope data (Crypto.GossipKey (Daemon.Keys (config pe)))
          now with
  | (Some envelope, Some announcement, None) =>
    let logged :=
      LogValidMessage (Crypto.MessageType envelope)
        (UDPAddr_String (Some remoteAddr)) in
    if String.eqb (Crypto.MessageType envelope) Crypto.MessageTypeHello
    then
      let r := handleHello pe announcement remoteAddr now entropy in
      (r.1, logged :: r.2)
    else if String.eqb (Crypto.MessageType envelope) Crypto.MessageTypeReply
    then
      let r := handleReply pe announcement remoteAddr now in
      (r.1, logged :: r.2)
    else
      (pe, [logged; LogUnknownMessageType (Crypto.MessageType envelope)])
  | _ =>
    (pe, [LogNonWgmeshPacket (UDPAddr_String (Some remoteAddr)) (length data)])
  end.

(** One round of [LANDiscovery.listenLoop] after a datagram was read:
    the peer store it leaves. *)
Definition lanReceive (localNode : LocalNode) (gossipKey : list byte)
    (ps : Daemon.PeerStore) (data : list byte) (remoteAddr : UDPAddr)
    (now : Time) : Daemon.PeerStore :=
  match Crypto.OpenEnvelope data gossipKey now with
  | (_, Some announcement, None) =>
    if String.eqb (Crypto.WGPubKey announcement) (WGPubKey localNode)
    then ps
    else
      let endpoint :=
        resolveEndpoint (Crypto.WGEndpoint announcement) (Some remoteAddr) in
      Daemon.Update ps
        (newPeerInfo (Crypto.WGPubKey announcement)
           (Crypto.MeshIP announcement) endpoint
           (Crypto.RoutableNetworks announcement))
        LANMethod now
  | _ => ps
  end.

End WithLib.

(** *** DHT discovery *)

(** The fields of [DHTDiscovery] that [contactPeer] uses. The peer store
    is shared with the listeners, which change it while an exchange is
    under way: the call on it is recorded as an event. *)
Record DHTDiscovery := mkDHTDiscovery {
  dht_localNode : LocalNode;
  contactedPeers : gmap string Time
}.

(** The calls [contactPeer] makes on the peer exchange and on the peer
    store. *)
Inductive DHTEvent :=
| ExchangeWithPeer (addrStr : string)
| UpdatePeerStore (info : Daemon.PeerInfo) (discoveryMethod : string).

(** [DHTDiscovery.contactPeer] for the address printed as [addrStr], at
    the clock reading [now]. [exchange] is the peer [ExchangeWithPeer]
    returns, [None] standing for an error and for a nil peer. The result
    is [None] when the function panics: the log line of a success takes
    the slice [peerInfo.WGPubKey[:8]]. *)
Definition contactPeer (d : DHTDiscovery) (addrStr : string) (now : Time)
    (exchange : option Daemon.PeerInfo)
    : option (DHTDiscovery * list DHTEvent) :=
  if String.eqb addrStr (WGEndpoint (dht_localNode d)) then Some (d, [])
  else
    let recent :=
      match contactedPeers d !! addrStr with
      | Some lastContact => Since now lastContact <? 60 * Second
      | None => false
      end in
    if recent then Some (d, [])
    else
      let d' :=
        mkDHTDiscovery (dht_localNode d)
          (<[addrStr := now]> (contactedPeers d)) in
      match exchange with
      | None => Some (d', [ExchangeWithPeer addrStr])
      | Some peerInfo =>
        if (String.length (Daemon.WGPubKey peerInfo) <? 8)%nat then None
        else
          Some (d', [ExchangeWithPeer addrStr;
                     UpdatePeerStore peerInfo DHTMethod])
      end.

End Discovery.

(** ** [pkg/privacy] *)

Module Privacy.
Import GoTime.

Definition MaxStemHops : Z := 4.

Record DandelionAnnounce := mkDandelionAnnounce {
  OriginPubkey : string;
  OriginMeshIP : string;
  OriginEndpoint : string;
  RoutableNetworks : list string;
  HopCount : Z;
  Timestamp : Z;
  Nonce : list byte
}.

Record PeerInfo := mkPeerInfo {
  WGPubKey : string;
  MeshIP : string;
  Endpoint : string
}.

Record Epoch := mkEpoch {
  ID : Z;
  RelayPeers : list PeerInfo;
  StartedAt : Time;
  EpochDuration : Duration
}.

(** The fields of [DandelionRouter] that [HandleAnnounce] reads. A
    callback is represented by whether it is set. *)
Record DandelionRouter := mkDandelionRouter {
  epoch : option Epoch;
  onFluff : bool;
  onStem : bool
}.

(** The calls of the two callbacks and the lines logged. *)
Inductive Event :=
| Fluff (announce : DandelionAnnounce)
| Stem (announce : DandelionAnnounce) (relay : PeerInfo)
| LogFluffing (origin : string) (hops : Z)
| LogRelaying (relay : string) (hops : Z)
| LogNoRelayPeers.

(** [truncateKey]. *)
Definition truncateKey (key : string) : string :=
  if (8 <? String.length key)%nat then GoStrings.take 8 key +:+ "..." else key.

(** [ShouldFluff]. [draw] is the outcome of the test
    [rand.Float64() < FluffProbability], made only below [MaxStemHops]. *)
Definition ShouldFluff (hopCount : Z) (draw : bool) : bool :=
  if MaxStemHops <=? hopCount then true else draw.

(** The message after [msg.HopCount++], in [uint8] arithmetic. *)
Definition nextHop (msg : DandelionAnnounce) : DandelionAnnounce :=
  mkDandelionAnnounce (OriginPubkey msg) (OriginMeshIP msg)
    (OriginEndpoint msg) (RoutableNetworks msg) ((HopCount msg + 1) mod 2 ^ 8)
    (Timestamp msg) (Nonce msg).

(** [DandelionRouter.HandleAnnounce]. *)
Definition HandleAnnounce (d : DandelionRouter) (msg : DandelionAnnounce)
    (draw : bool) : list Event :=
  let msg := nextHop msg in
  if ShouldFluff (HopCount msg) draw
  then
    LogFluffing (truncateKey (OriginPubkey msg)) (HopCount msg)
    :: (if onFluff d then [Fluff msg] else [])
  else
    match epoch d with
    | Some e =>
      match RelayPeers e with
      | [] => LogNoRelayPeers :: (if onFluff d then [Fluff msg] else [])
      | first :: _ =>
        let relay :=
          nth (Z.to_nat (Z.rem (HopCount msg)
                                (Z.of_nat (length (RelayPeers e)))))
              (RelayPeers e) first in
        LogRelaying (truncateKey (WGPubKey relay)) (HopCount msg)
        :: (if onStem d then [Stem msg relay] else [])
      end
    | None => LogNoRelayPeers :: (if onFluff d then [Fluff msg] else [])
    end.

(** [CreateAnnounce], at the clock reading [now]; [nonce] is what
    [rand.Read] writes. *)
Definition CreateAnnounce (pubkey meshIP endpoint : string)
    (routableNetworks : list string) (now : Time) (nonce : list byte)
    : DandelionAnnounce :=
  mkDandelionAnnounce pubkey meshIP endpoint routableNetworks 0
    (ToUnix now) nonce.

(** [DandelionRouter.NeedsEpochRotation] on the epoch [e], at the clock
    reading [now]. *)
Definition NeedsEpochRotation (e : Epoch) (now : Time) : bool :=
  EpochDuration e <? Since now (StartedAt e).

End Privacy.

(** ** Notions used to state the properties *)

Module Notions.

(** The two clock tests of [OpenEnvelope] as one predicate. *)
Definition freshTimestamp (now : GoTime.Time) (ts : Z) : bool :=
  negb (Crypto.MaxMessageAge <? GoTime.Since now (GoTime.Unix ts))
  && negb (GoTime.After (GoTime.Unix ts) (GoTime.Add now Crypto.MaxMessageAge)).

(** The entries of a store are filed under their own public key, and list
    every discovery method once. Both hold of the empty store and are kept
    by every operation of the store. *)
Definition wellFormed (ps : Daemon.PeerStore) : Prop :=
  forall k p, ps !! k = Some p ->
    Daemon.WGPubKey p = k /\ NoDup (Daemon.DiscoveredVia p).

(** The record [Update] leaves under the key of [info]: the record built on
    insertion when the key was free, the merged record otherwise. *)
Definition afterUpdate (old : option Daemon.PeerInfo) (info : Daemon.PeerInfo)
    (discoveryMethod : string) (now : GoTime.Time) : Daemon.PeerInfo :=
  match old with
  | None =>
    Daemon.mkPeerInfo (Daemon.WGPubKey info) (Daemon.MeshIP info)
      (Daemon.Endpoint info) (Daemon.RoutableNetworks info) now
      [discoveryMethod] (Daemon.Latency info)
  | Some existing => Daemon.mergePeer existing info discoveryMethod now
  end.

(** A peer record without its discovery tags. *)
Definition core (p : Daemon.PeerInfo)
    : string * string * string * list string * GoTime.Time
      * option GoTime.Duration :=
  (Daemon.WGPubKey p, Daemon.MeshIP p, Daemon.Endpoint p,
   Daemon.RoutableNetworks p, Daemon.LastSeen p, Daemon.Latency p).

(** Equality of peer records and of stores up to the order in which the
    discovery tags are listed. *)
Definition samePeer (p q : Daemon.PeerInfo) : Prop :=
  core p = core q
  /\ forall m, m ∈ Daemon.DiscoveredVia p <-> m ∈ Daemon.DiscoveredVia q.

Definition sameStore (s t : Daemon.PeerStore) : Prop :=
  forall k,
    match s !! k, t !! k with
    | Some p, Some q => samePeer p q
    | None, None => True
    | _, _ => False
    end.

(** [Update] called once per method of [methods], in that order, with the
    same [info] and the same clock reading. *)
Definition updates (ps : Daemon.PeerStore) (info : Daemon.PeerInfo)
    (methods : list string) (now : GoTime.Time) : Daemon.PeerStore :=
  foldl (fun s m => Daemon.Update s info m now) ps methods.

(** The daemon with the mesh address of its local node replaced. *)
Definition withMeshIP (d : Daemon.Daemon) (ip : string) : Daemon.Daemon :=
  Daemon.mkDaemon (Daemon.config d)
    (Daemon.mkLocalNode (Daemon.ln_WGPubKey (Daemon.localNode d))
       (Daemon.ln_WGPrivateKey (Daemon.localNode d)) ip
       (Daemon.ln_WGEndpoint (Daemon.localNode d))
       (Daemon.ln_RoutableNetworks (Daemon.localNode d)))
    (Daemon.peerStore d).

(** The local node is the loser of one of the collisions listed. *)
Definition localLoses (d : Daemon.Daemon) (cs : list Daemon.CollisionInfo) : bool :=
  existsb (fun c =>
             String.eqb
               (Daemon.WGPubKey
                  (Daemon.DeterministicWinner (Daemon.Peer1 c) (Daemon.Peer2 c)).2)
               (Daemon.ln_WGPubKey (Daemon.localNode d)))
          cs.

(** What [DetectCollisions] promises of a collision it reports, the peers
    being taken among [known]. *)
Definition genuine (known : list Daemon.PeerInfo) (c : Daemon.CollisionInfo)
    : Prop :=
  Daemon.c_MeshIP c = Daemon.MeshIP (Daemon.Peer1 c)
  /\ Daemon.MeshIP (Daemon.Peer1 c) = Daemon.MeshIP (Daemon.Peer2 c)
  /\ Daemon.MeshIP (Daemon.Peer2 c) <> ""
  /\ Daemon.WGPubKey (Daemon.Peer1 c) <> Daemon.WGPubKey (Daemon.Peer2 c)
  /\ Daemon.Peer1 c ∈ known
  /\ Daemon.Peer2 c ∈ known.

(** The text [IP.String()] prints for an address: not empty, no square
    brackets. *)
Definition ipText (x : string) : Prop :=
  x <> ""
  /\ GoStrings.contains_byte x "[" = false
  /\ GoStrings.contains_byte x "]" = false.

(** The endpoint recorded for a peer, if the peer is known. *)
Definition storedEndpoint (ps : Daemon.PeerStore) (wgPubKey : string)
    : option string :=
  Daemon.Endpoint <$> ps !! wgPubKey.

(** What [SplitHostPort] accepts and returns: ["host:port"] with a host
    free of colons, or ["[host]:port"]; square brackets occur nowhere else
    and the port holds no colon. *)
Definition plainSyntax (h p : string) : Prop :=
  GoStrings.contains_byte h ":" = false /\ GoStrings.contains_byte h "[" = false /\ GoStrings.contains_byte h "]" = false /\ GoStrings.contains_byte p ":" = false /\ GoStrings.contains_byte p "[" = false /\ GoStrings.contains_byte p "]" = false.

Definition bracketSyntax (h p : string) : Prop :=
  GoStrings.contains_byte h "[" = false /\ GoStrings.contains_byte h "]" = false /\ GoStrings.contains_byte p ":" = false /\ GoStrings.contains_byte p "[" = false /\ GoStrings.contains_byte p "]" = false.

(** The stores a daemon can come to hold: the new store, changed by
    [Update], [Remove] and [CleanupStale]. *)
Inductive reachable : Daemon.PeerStore -> Prop :=
| reachable_new : reachable Daemon.NewPeerStore
| reachable_Update (ps : Daemon.PeerStore) (info : Daemon.PeerInfo)
    (discoveryMethod : string) (now : GoTime.Time) :
    reachable ps -> reachable (Daemon.Update ps info discoveryMethod now)
| reachable_Remove (ps : Daemon.PeerStore) (pubKey : string) :
    reachable ps -> reachable (Daemon.Remove ps pubKey)
| reachable_CleanupStale (ps : Daemon.PeerStore) (now : GoTime.Time) :
    reachable ps -> reachable (Daemon.CleanupStale ps now).1.

(** Two entries of a store claim the same mesh address: different public
    keys, one non-empty address. *)
Definition colliding (ps : Daemon.PeerStore) (ip : string) : Prop :=
  exists k1 k2 p q,
    ps !! k1 = Some p /\ ps !! k2 = Some q
    /\ Daemon.WGPubKey p <> Daemon.WGPubKey q
    /\ Daemon.MeshIP p = ip /\ Daemon.MeshIP q = ip /\ ip <> "".

(** An address is usable by the node [wgPubKey]: nobody holds it, or the
    node itself does. *)
Definition freeFor (existingIPs : gmap string string) (wgPubKey ip : string)
    : Prop :=
  existingIPs !! ip = None \/ existingIPs !! ip = Some wgPubKey.

(** A message travels along the stem: every router of [path], with the
    outcome of its draw, hands it to its stem callback, and the next
    router receives what was handed over. *)
Fixpoint stemPath (path : list (Privacy.DandelionRouter * bool))
    (msg : Privacy.DandelionAnnounce) : Prop :=
  match path with
  | [] => True
  | hop :: rest =>
    exists msg' relay,
      Privacy.Stem msg' relay ∈ Privacy.HandleAnnounce hop.1 msg hop.2
      /\ stemPath rest msg'
  end.

(** The addresses [DeriveMeshIPWithCollisionCheck] tries, in order: the
    address of [DeriveMeshIP] under the number 0, then the addresses of
    [DeriveMeshIPWithNonce] for the nonces 1, 2, ... *)
Definition candidate `{lib : Crypto.GoLib} (meshSubnet : list byte)
    (wgPubKey secret : string) (n : Z) : string :=
  if n =? 0 then Crypto.DeriveMeshIP meshSubnet wgPubKey secret
  else Daemon.DeriveMeshIPWithNonce meshSubnet wgPubKey secret n.

End Notions.

(** ** Test vectors

    A stand-in for the Go libraries that answers on a handful of fixed
    vectors and fails everywhere else. It serves to run the embedding on
    concrete packets. *)

Module TestVectors.

#[export] Instance byte_eq_dec : EqDecision byte := Byte.byte_eq_dec.

Definition bytes_of_string (s : string) : list byte :=
  map byte_of_ascii (list_ascii_of_string s).

(** Tuesday 14 November 2023, 22:13:20 UTC. *)
Definition now : GoTime.Time := 1700000000 * GoTime.Second.

Definition key : list byte := repeat Byte.x2a 32.
Definition nonce : list byte := repeat Byte.x07 12.

Definition announcement (ts : Z) : Crypto.PeerAnnouncement :=
  Crypto.mkPeerAnnouncement Crypto.ProtocolVersion "pubkey-of-B" "10.7.0.9"
    "0.0.0.0:51820" [] ts [].

(** Sent 30 seconds before [now], and 11 minutes before [now]. *)
Definition fresh : Crypto.PeerAnnouncement := announcement 1699999970.
Definition stale : Crypto.PeerAnnouncement := announcement 1699999340.

Definition plaintext (a : Crypto.PeerAnnouncement) : list byte :=
  bytes_of_string ("announcement@" +:+ pretty (Crypto.Timestamp a)).

Definition ciphertext (a : Crypto.PeerAnnouncement) : list byte :=
  Byte.xff :: plaintext a.

Definition envelope (messageType : string) (a : Crypto.PeerAnnouncement)
    : Crypto.Envelope :=
  Crypto.mkEnvelope messageType nonce (ciphertext a).

Definition packet (messageType : string) (a : Crypto.PeerAnnouncement)
    : list byte :=
  bytes_of_string messageType ++ Byte.x3a :: ciphertext a.

Definition messageTypes : list string :=
  [Crypto.MessageTypeHello; Crypto.MessageTypeReply; Crypto.MessageTypeAnnounce].

Definition findSome {A B : Type} (f : A -> option B) (l : list A) : option B :=
  foldr (fun x acc => match f x with Some y => Some y | None => acc end) None l.

Definition unmarshalAnnouncement (p : list byte) : option Crypto.PeerAnnouncement :=
  findSome (fun a => if decide (p = plaintext a) then Some a else None)
           [fresh; stale].

Definition unmarshalEnvelope (d : list byte) : option Crypto.Envelope :=
  findSome (fun t =>
              findSome (fun a => if decide (d = packet t a)
                                 then Some (envelope t a) else None)
                       [fresh; stale])
           messageTypes.

Definition open (k n c : list byte) : option (list byte) :=
  if decide (k = key) then
    match c with
    | tag :: p => if decide (tag = Byte.xff) then Some p else None
    | [] => None
    end
  else None.

(** A 32-byte digest that depends on its input: the sum of the bytes and
    the length, both modulo 256, then thirty bytes of value 1. *)
Definition byte_of_N (n : N) : byte :=
  match Byte.of_N (n mod 256) with
  | Some b => b
  | None => Byte.x00
  end.

Definition digest (s : string) : list byte :=
  byte_of_N (fold_right (fun c acc => (N_of_ascii c + acc)%N) 0%N
               (list_ascii_of_string s))
  :: byte_of_N (N.of_nat (String.length s))
  :: repeat Byte.x01 30.

Definition lib : Crypto.GoLib := {|
  Crypto.json_Marshal_announcement := fun a => Some (plaintext a);
  Crypto.json_Unmarshal_announcement := unmarshalAnnouncement;
  Crypto.json_Marshal_envelope := fun e =>
    Some (bytes_of_string (Crypto.MessageType e) ++ Byte.x3a :: Crypto.Ciphertext e);
  Crypto.json_Unmarshal_envelope := unmarshalEnvelope;
  Crypto.gcm_Seal := fun k n p => Byte.xff :: p;
  Crypto.gcm_Open := open;
  Crypto.sha256_Sum256 := digest;
  Crypto.hkdf_read := fun secret salt n =>
    if (n <=? 255 * 32)%nat then Some (repeat Byte.x03 n) else None
|}.

(** Three more announcements of B, sent within the last 30 seconds: one
    writes its endpoint with brackets around an IPv4 host, one gives a host
    and no port, one lists B itself among the peers it knows. [libOf]
    answers on the announcements it is given as [lib] does on [fresh] and
    [stale]. *)
Definition bracketed : Crypto.PeerAnnouncement :=
  Crypto.mkPeerAnnouncement Crypto.ProtocolVersion "pubkey-of-B" "10.7.0.9"
    "[192.0.2.1]:51820" [] 1699999971 [].

Definition bare : Crypto.PeerAnnouncement :=
  Crypto.mkPeerAnnouncement Crypto.ProtocolVersion "pubkey-of-B" "10.7.0.9"
    "192.0.2.1" [] 1699999972 [].

Definition selfListed : Crypto.PeerAnnouncement :=
  Crypto.mkPeerAnnouncement Crypto.ProtocolVersion "pubkey-of-B" "10.7.0.9"
    "0.0.0.0:51820" [] 1699999973
    [Crypto.mkKnownPeer "pubkey-of-B" "10.7.0.9" "0.0.0.0:51820"].

Definition libOf (known : list Crypto.PeerAnnouncement) : Crypto.GoLib := {|
  Crypto.json_Marshal_announcement := fun a => Some (plaintext a);
  Crypto.json_Unmarshal_announcement := fun p =>
    findSome (fun a => if decide (p = plaintext a) then Some a else None) known;
  Crypto.json_Marshal_envelope := fun e =>
    Some (bytes_of_string (Crypto.MessageType e) ++ Byte.x3a :: Crypto.Ciphertext e);
  Crypto.json_Unmarshal_envelope := fun d =>
    findSome (fun t =>
                findSome (fun a => if decide (d = packet t a)
                                   then Some (envelope t a) else None)
                         known)
             messageTypes;
  Crypto.gcm_Seal := fun k n p => Byte.xff :: p;
  Crypto.gcm_Open := open;
  Crypto.sha256_Sum256 := digest;
  Crypto.hkdf_read := fun secret salt n =>
    if (n <=? 255 * 32)%nat then Some (repeat Byte.x03 n) else None
|}.

(** A mesh of three nodes A, B and C. A and B claim the same mesh address;
    C was last seen eleven minutes before [now]. *)
Definition keys : Crypto.DerivedKeys :=
  Crypto.mkDerivedKeys (repeat Byte.x01 20) key [Byte.x07; Byte.x00]
    [Byte.x00; Byte.x00; Byte.x00; Byte.x00] (repeat Byte.x05 32) 52592.

Definition config : Daemon.Config :=
  Daemon.mkConfig "correct horse battery" keys "wg0" 51820 [] "info".

Definition peerA : Daemon.PeerInfo :=
  Daemon.mkPeerInfo "pubkey-of-A" "10.7.0.9" "192.0.2.1:51820" []
    (now - 30 * GoTime.Second) ["lan"] None.

Definition peerB : Daemon.PeerInfo :=
  Daemon.mkPeerInfo "pubkey-of-B" "10.7.0.9" "192.0.2.2:51820" []
    (now - 30 * GoTime.Second) ["dht"] None.

Definition peerC : Daemon.PeerInfo :=
  Daemon.mkPeerInfo "pubkey-of-C" "10.7.0.11" "192.0.2.3:51820" []
    (now - 11 * GoTime.Minute) ["dht"] None.

Definition nodeB : Daemon.LocalNode :=
  Daemon.mkLocalNode "pubkey-of-B" "private-key-of-B" "10.7.0.9"
    "0.0.0.0:51820" [].

(** B, last seen exactly five minutes before [now], and the store that
    holds it. *)
Definition peerFive : Daemon.PeerInfo :=
  Daemon.mkPeerInfo "pubkey-of-B" "10.7.0.9" "192.0.2.2:51820" []
    (now - 5 * GoTime.Minute) ["lan"] None.

Definition storeFive : Daemon.PeerStore := <["pubkey-of-B" := peerFive]> ∅.

(** The daemon of B, knowing A and itself. *)
Definition daemonB : Daemon.Daemon :=
  Daemon.mkDaemon config nodeB
    (<["pubkey-of-A" := peerA]> (<["pubkey-of-B" := peerB]> ∅)).



(** A daemon whose only known peer is the stale C. *)
Definition daemonStale : Daemon.Daemon :=
  Daemon.mkDaemon config nodeB (<["pubkey-of-C" := peerC]> ∅).

(** A daemon that knows an active peer under a key of five bytes, and the
    stale C. *)
Definition peerShort : Daemon.PeerInfo :=
  Daemon.mkPeerInfo "short" "10.7.0.12" "192.0.2.5:51820" []
    (now - 30 * GoTime.Second) ["dht"] None.

Definition daemonShort : Daemon.Daemon :=
  Daemon.mkDaemon config nodeB
    (<["short" := peerShort]> (<["pubkey-of-C" := peerC]> ∅)).

(** The command [wg] when every call succeeds, and when every call
    fails. *)
Definition wgUp : Daemon.WireGuard := {|
  Daemon.SetPeer_fails := fun _ _ _ _ _ => false;
  Daemon.RemovePeer_fails := fun _ _ => false
|}.

Definition wgDown : Daemon.WireGuard := {|
  Daemon.SetPeer_fails := fun _ _ _ _ _ => true;
  Daemon.RemovePeer_fails := fun _ _ => true
|}.

Definition nodeA : Discovery.LocalNode :=
  Discovery.mkLocalNode "pubkey-of-A" "private-key-of-A" "10.7.0.8"
    "0.0.0.0:51820" [].

(** The peer exchange of A, with an empty store, a socket whose writes
    succeed and no exchange in flight. *)
Definition exchangeA : Discovery.PeerExchange :=
  Discovery.mkPeerExchange config nodeA ∅ (fun _ _ => false) 52592 ∅.

(** The same with a socket whose writes fail. *)
Definition exchangeDown : Discovery.PeerExchange :=
  Discovery.mkPeerExchange config nodeA ∅ (fun _ _ => true) 52592 ∅.

(** Where the datagrams of B come from. *)
Definition addrB : GoNet.UDPAddr := GoNet.mkUDPAddr (Some "198.51.100.7") 52592 "".

End TestVectors.

(** * Properties *)

(** Powers of two as literals, for [lia]. *)
Ltac literals :=
  change (2 ^ 16) with 65536 in *;
  change (2 ^ 62) with 4611686018427387904 in *;
  change (2 ^ 63) with 9223372036854775808 in *;
  change (2 ^ 64) with 18446744073709551616 in *.

(** ** The envelope: freshness *)

Section Envelope.
Context `{lib : Crypto.GoLib}.
Import Crypto Notions.

Lemma Unix_exact (sec : Z) :
  - 2 ^ 63 <= sec -> sec + GoTime.unixToInternal < 2 ^ 63 ->
  GoTime.Unix sec = sec * GoTime.Second.
Proof.
  unfold GoTime.Unix, GoTime.wrap64, GoTime.unixToInternal, GoTime.Second.
  intros Hlo Hhi. f_equal. literals. rewrite Z.mod_small; lia.
Qed.

Lemma Unix_wrapped (sec : Z) :
  sec < 2 ^ 63 -> 2 ^ 63 <= sec + GoTime.unixToInternal ->
  GoTime.Unix sec = (sec - 2 ^ 64) * GoTime.Second.
Proof.
  unfold GoTime.Unix, GoTime.wrap64, GoTime.unixToInternal, GoTime.Second.
  intros Hlo Hhi. f_equal. literals.
  Z.to_euclidean_division_equations. lia.
Qed.

Lemma freshTimestamp_spec (now : GoTime.Time) (ts : Z) :
  GoTime.plausible now -> GoTime.int64 ts ->
  freshTimestamp now ts = true <-> Z.abs (now - ts * GoTime.Second) <= 10 * GoTime.Minute.
Proof.
  unfold GoTime.plausible, GoTime.int64. intros Hnow Hts.
  unfold freshTimestamp, GoTime.Since, GoTime.Sub, GoTime.After, GoTime.Add,
    MaxMessageAge, GoTime.minDuration, GoTime.maxDuration.
  destruct (Z_lt_le_dec (ts + GoTime.unixToInternal) (2 ^ 63)) as [Hs | Hs].
  - rewrite Unix_exact by lia.
    unfold GoTime.Minute, GoTime.Second, GoTime.unixToInternal in *.
    literals. rewrite andb_true_iff, !negb_true_iff, !Z.ltb_ge.
    repeat match goal with
           | |- context [ ?a <? ?b ] => destruct (Z.ltb_spec a b)
           end; lia.
  - rewrite Unix_wrapped by lia.
    unfold GoTime.Minute, GoTime.Second, GoTime.unixToInternal in *.
    literals. rewrite andb_true_iff, !negb_true_iff, !Z.ltb_ge.
    repeat match goal with
           | |- context [ ?a <? ?b ] => destruct (Z.ltb_spec a b)
           end; lia.
Qed.

Lemma aes_NewCipher_32 (key : list byte) :
  length key = 32%nat -> aes_NewCipher key = Some key.
Proof. unfold aes_NewCipher. intros ->. reflexivity. Qed.

Lemma aes_NewCipher_Some (key block : list byte) :
  aes_NewCipher key = Some block -> block = key.
Proof.
  unfold aes_NewCipher. destruct (_ || _); [congruence | discriminate].
Qed.

(** Whatever the packet, [OpenEnvelope] either fails with neither value,
    or returns both values and no error. *)
Lemma OpenEnvelope_total_or_nothing (data key : list byte) (now : GoTime.Time) :
  (exists e, OpenEnvelope data key now = (None, None, Some e))
  \/ (exists env ann, OpenEnvelope data key now = (Some env, Some ann, None)).
Proof.
  unfold OpenEnvelope.
  repeat match goal with
         | |- context [ match ?x with _ => _ end ] => destruct x
         end; eauto.
Qed.

(** What an accepted packet went through. *)
Lemma OpenEnvelope_accepted (data key : list byte) (now : GoTime.Time)
    (env : Envelope) (ann : PeerAnnouncement) (err : option error) :
  OpenEnvelope data key now = (Some env, Some ann, err) ->
  err = None
  /\ json_Unmarshal_envelope data = Some env
  /\ length (Nonce env) = NonceSize
  /\ (exists pt, gcm_Open key (Nonce env) (Ciphertext env) = Some pt
                 /\ json_Unmarshal_announcement pt = Some ann)
  /\ Protocol ann = ProtocolVersion
  /\ freshTimestamp now (Timestamp ann) = true.
Proof.
  unfold OpenEnvelope, freshTimestamp.
  destruct (json_Unmarshal_envelope data) as [e |]; [| discriminate].
  destruct (Nat.eqb_spec (length (Nonce e)) NonceSize) as [Hn |];
    [| discriminate]. cbn [negb].
  destruct (aes_NewCipher key) as [block |] eqn:Hk; [| discriminate].
  apply aes_NewCipher_Some in Hk. subst block. cbn [cipher_NewGCM].
  destruct (gcm_Open key (Nonce e) (Ciphertext e)) as [pt |] eqn:Hopen;
    [| discriminate].
  destruct (json_Unmarshal_announcement pt) as [a |] eqn:Ha; [| discriminate].
  destruct (String.eqb_spec (Protocol a) ProtocolVersion) as [Hp |];
    [| discriminate]. cbn [negb].
  destruct (MaxMessageAge <? _) eqn:Hold; [discriminate |].
  destruct (GoTime.After _ _) eqn:Hfut; [discriminate |].
  intros [= -> -> <-].
  split; [reflexivity |]. split; [reflexivity |]. split; [exact Hn |].
  split; [exists pt; split; assumption |]. split; [exact Hp |].
  rewrite Hold, Hfut. reflexivity.
Qed.

(** A packet whose timestamp is too far from the clock is refused. *)
Lemma OpenEnvelope_refuses (data key : list byte) (now : GoTime.Time)
    (env : Envelope) (pt : list byte) (ann : PeerAnnouncement) :
  GoTime.plausible now ->
  GoTime.int64 (Timestamp ann) ->
  json_Unmarshal_envelope data = Some env ->
  gcm_Open key (Nonce env) (Ciphertext env) = Some pt ->
  json_Unmarshal_announcement pt = Some ann ->
  10 * GoTime.Minute < Z.abs (now - Timestamp ann * GoTime.Second) ->
  exists e, OpenEnvelope data key now = (None, None, Some e).
Proof.
  intros Hnow Hts Henv Hopen Hann Hfar.
  destruct (OpenEnvelope_total_or_nothing data key now)
    as [He | (env' & ann' & Hacc)]; [exact He |].
  exfalso.
  destruct (OpenEnvelope_accepted _ _ _ _ _ _ Hacc)
    as (_ & Henv' & _ & (pt' & Hopen' & Hann') & _ & Hfresh).
  assert (env' = env) by congruence. subst env'.
  assert (pt' = pt) by congruence. subst pt'.
  assert (ann' = ann) by congruence. subst ann'.
  apply freshTimestamp_spec in Hfresh; [lia | assumption | assumption].
Qed.

(** A well-formed packet of the mesh with a timestamp near the clock is
    accepted. *)
Lemma OpenEnvelope_accepts (data key : list byte) (now : GoTime.Time)
    (env : Envelope) (pt : list byte) (ann : PeerAnnouncement) :
  GoTime.plausible now ->
  GoTime.int64 (Timestamp ann) ->
  json_Unmarshal_envelope data = Some env ->
  gcm_Open key (Nonce env) (Ciphertext env) = Some pt ->
  json_Unmarshal_announcement pt = Some ann ->
  length key = 32%nat ->
  length (Nonce env) = NonceSize ->
  Protocol ann = ProtocolVersion ->
  Z.abs (now - Timestamp ann * GoTime.Second) <= 10 * GoTime.Minute ->
  OpenEnvelope data key now = (Some env, Some ann, None).
Proof.
  intros Hnow Hts Henv Hopen Hann Hkey Hnonce Hproto Hnear.
  apply (freshTimestamp_spec now _ Hnow Hts) in Hnear.
  unfold freshTimestamp in Hnear. apply andb_true_iff in Hnear as [Hold Hfut].
  apply negb_true_iff in Hold, Hfut.
  unfold OpenEnvelope.
  rewrite Henv, Hnonce, Nat.eqb_refl. cbn [negb].
  rewrite (aes_NewCipher_32 _ Hkey). cbn [cipher_NewGCM].
  rewrite Hopen, Hann, Hproto, String.eqb_refl. cbn [negb].
  rewrite Hold, Hfut. reflexivity.
Qed.

(** C1. A packet that decodes to an announcement whose timestamp is more
    than ten minutes away from the clock, in either direction, makes
    [OpenEnvelope] return an error and neither an envelope nor an
    announcement; a packet with a twelve-byte nonce that authenticates
    under the 32-byte key, carries the protocol tag ["wgmesh-v1"] and a
    timestamp at most ten minutes away from the clock is accepted, and the
    envelope and the announcement are returned. *)
Theorem OpenEnvelope_freshness (data key : list byte) (now : GoTime.Time)
    (env : Envelope) (pt : list byte) (ann : PeerAnnouncement) :
  GoTime.plausible now ->
  GoTime.int64 (Timestamp ann) ->
  json_Unmarshal_envelope data = Some env ->
  gcm_Open key (Nonce env) (Ciphertext env) = Some pt ->
  json_Unmarshal_announcement pt = Some ann ->
  (10 * GoTime.Minute < Z.abs (now - Timestamp ann * GoTime.Second) ->
   exists e, OpenEnvelope data key now = (None, None, Some e))
  /\ (length key = 32%nat ->
      length (Nonce env) = NonceSize ->
      Protocol ann = ProtocolVersion ->
      Z.abs (now - Timestamp ann * GoTime.Second) <= 10 * GoTime.Minute ->
      OpenEnvelope data key now = (Some env, Some ann, None)).
Proof.
  intros Hnow Hts Henv Hopen Hann. split.
  - apply (OpenEnvelope_refuses data key now env pt ann); assumption.
  - intros. apply (OpenEnvelope_accepts data key now env pt ann); assumption.
Qed.

(** C10. Sealing an announcement under a 32-byte key with twelve fresh
    nonce bytes yields a packet, and opening that packet with the same key
    within ten minutes of the announcement's timestamp succeeds and
    returns an envelope of the sealed message type and the announcement
    that was sealed. The theorem holds for every message type and relies
    on the contracts of the libraries at this payload: the JSON codec
    reads back what it wrote, and AES-GCM opens what it sealed. *)
Theorem Seal_Open_roundtrip (messageType : string) (payload : PeerAnnouncement)
    (key nonce : list byte) (now : GoTime.Time) (pt data : list byte) :
  length key = 32%nat ->
  length nonce = NonceSize ->
  GoTime.plausible now ->
  GoTime.int64 (Timestamp payload) ->
  Protocol payload = ProtocolVersion ->
  Z.abs (now - Timestamp payload * GoTime.Second) <= 10 * GoTime.Minute ->
  json_Marshal_announcement payload = Some pt ->
  json_Unmarshal_announcement pt = Some payload ->
  gcm_Open key nonce (gcm_Seal key nonce pt) = Some pt ->
  json_Marshal_envelope (mkEnvelope messageType nonce (gcm_Seal key nonce pt))
    = Some data ->
  json_Unmarshal_envelope data
    = Some (mkEnvelope messageType nonce (gcm_Seal key nonce pt)) ->
  SealEnvelope messageType payload key (Some nonce) = (Some data, None)
  /\ exists env,
       OpenEnvelope data key now = (Some env, Some payload, None)
       /\ MessageType env = messageType.
Proof.
  intros Hkey Hnonce Hnow Hts Hproto Hnear Hm Hu Hgcm Hme Hue.
  split.
  - unfold SealEnvelope.
    rewrite Hm, (aes_NewCipher_32 _ Hkey). cbn [cipher_NewGCM].
    rewrite Hme. reflexivity.
  - exists (mkEnvelope messageType nonce (gcm_Seal key nonce pt)).
    split; [| reflexivity].
    apply (OpenEnvelope_accepts data key now _ pt payload);
      try assumption.
Qed.

(** I3, the converse: what [OpenEnvelope] accepts carries the protocol tag
    and a timestamp at most ten minutes away from the clock. *)
Lemma OpenEnvelope_accepts_only_fresh (data key : list byte)
    (now : GoTime.Time) (env : Envelope) (ann : PeerAnnouncement) :
  GoTime.plausible now ->
  GoTime.int64 (Timestamp ann) ->
  OpenEnvelope data key now = (Some env, Some ann, None) ->
  Protocol ann = ProtocolVersion
  /\ Z.abs (now - Timestamp ann * GoTime.Second) <= 10 * GoTime.Minute.
Proof.
  intros Hnow Hts Hacc.
  destruct (OpenEnvelope_accepted _ _ _ _ _ _ Hacc)
    as (_ & _ & _ & _ & Hproto & Hfresh).
  split; [exact Hproto |]. apply freshTimestamp_spec in Hfresh; assumption.
Qed.

End Envelope.

(** A packet sealed eleven minutes ago is refused, one sealed thirty seconds
    ago is accepted. *)
Lemma OpenEnvelope_freshness_witness :
  (exists e,
      Crypto.OpenEnvelope (lib := TestVectors.lib)
        (TestVectors.packet Crypto.MessageTypeHello TestVectors.stale)
        TestVectors.key TestVectors.now = (None, None, Some e))
  /\ Crypto.OpenEnvelope (lib := TestVectors.lib)
       (TestVectors.packet Crypto.MessageTypeHello TestVectors.fresh)
       TestVectors.key TestVectors.now
     = (Some (TestVectors.envelope Crypto.MessageTypeHello TestVectors.fresh),
        Some TestVectors.fresh, None).
Proof.
  split.
  - apply (OpenEnvelope_freshness
             (TestVectors.packet Crypto.MessageTypeHello TestVectors.stale)
             TestVectors.key TestVectors.now
             (TestVectors.envelope Crypto.MessageTypeHello TestVectors.stale)
             (TestVectors.plaintext TestVectors.stale) TestVectors.stale);
      try (vm_compute; reflexivity);
      vm_compute; split; congruence.
  - apply (OpenEnvelope_freshness
             (TestVectors.packet Crypto.MessageTypeHello TestVectors.fresh)
             TestVectors.key TestVectors.now
             (TestVectors.envelope Crypto.MessageTypeHello TestVectors.fresh)
             (TestVectors.plaintext TestVectors.fresh) TestVectors.fresh);
      try (vm_compute; reflexivity);
      vm_compute; try split; congruence.
Defined.

(** A HELLO sealed thirty seconds ago opens to the announcement sealed. *)
Lemma Seal_Open_roundtrip_witness :
  Crypto.SealEnvelope (lib := TestVectors.lib) Crypto.MessageTypeHello
    TestVectors.fresh TestVectors.key (Some TestVectors.nonce)
  = (Some (TestVectors.packet Crypto.MessageTypeHello TestVectors.fresh), None)
  /\ exists env,
       Crypto.OpenEnvelope (lib := TestVectors.lib)
         (TestVectors.packet Crypto.MessageTypeHello TestVectors.fresh)
         TestVectors.key TestVectors.now
       = (Some env, Some TestVectors.fresh, None)
       /\ Crypto.MessageType env = Crypto.MessageTypeHello.
Proof.
  apply (Seal_Open_roundtrip (lib := TestVectors.lib) Crypto.MessageTypeHello
           TestVectors.fresh TestVectors.key TestVectors.nonce TestVectors.now
           (TestVectors.plaintext TestVectors.fresh));
    try (vm_compute; reflexivity);
    vm_compute; try split; congruence.
Defined.

(** ** Key derivation: the gossip port *)

Section KeyDerivation.
Context `{lib : Crypto.GoLib}.
Import Crypto.

Lemma byte_to_Z_range (b : byte) : 0 <= GoBinary.byte_to_Z b < 256.
Proof.
  unfold GoBinary.byte_to_Z. pose proof (Byte.to_N_bounded b). lia.
Qed.

Lemma lor_shiftl_8 (lo hi : Z) :
  0 <= lo < 256 -> Z.lor lo (Z.shiftl hi 8) = 256 * hi + lo.
Proof.
  intros Hlo.
  assert (Hland : Z.land lo (Z.shiftl hi 8) = 0).
  { apply Z.bits_inj'. intros n Hn. rewrite Z.land_spec, Z.bits_0.
    destruct (Z_lt_le_dec n 8).
    - rewrite (Z.shiftl_spec_low hi 8 n) by lia. apply andb_false_r.
    - rewrite <- (Z.mod_small lo (2 ^ 8)) by (change (2 ^ 8) with 256; lia).
      rewrite Z.mod_pow2_bits_high by lia. reflexivity. }
  pose proof (Z.add_lor_land lo (Z.shiftl hi 8)) as Hadd.
  rewrite Hland in Hadd. rewrite Z.shiftl_mul_pow2 in * by lia.
  change (2 ^ 8) with 256 in *. lia.
Qed.

(** [binary.BigEndian.Uint16] reads the first byte as the high one. *)
Lemma BigEndian_Uint16_pair (b0 b1 : byte) :
  GoBinary.BigEndian_Uint16 [b0; b1]
  = 256 * GoBinary.byte_to_Z b0 + GoBinary.byte_to_Z b1.
Proof.
  unfold GoBinary.BigEndian_Uint16. cbn [nth].
  apply lor_shiftl_8, byte_to_Z_range.
Qed.

(** C9. For a secret of at least 16 bytes, [DeriveKeys] succeeds and its
    gossip port is 51821 plus, modulo 1000, the big-endian 16-bit integer
    made of the two bytes read from HKDF-SHA-256 under the salt
    ["wgmesh-gossip-port-v1"]; the port lies between 51821 and 52820. The
    HKDF reader is assumed to deliver the few bytes asked of it. *)
Theorem DeriveKeys_gossip_port (secret : string) :
  (MinSecretLength <= String.length secret)%nat ->
  (forall salt n, (n <= 32)%nat ->
     exists out, hkdf_read secret salt n = Some out /\ length out = n) ->
  exists keys b0 b1,
    DeriveKeys secret = (Some keys, None)
    /\ hkdf_read secret "wgmesh-gossip-port-v1" 2 = Some [b0; b1]
    /\ GossipPort keys
       = 51821 + (256 * GoBinary.byte_to_Z b0 + GoBinary.byte_to_Z b1) mod 1000
    /\ 51821 <= GossipPort keys <= 52820.
Proof.
  intros Hlen Hhkdf. unfold DeriveKeys, deriveHKDF.
  destruct (Nat.ltb_spec (String.length secret) MinSecretLength); [lia |].
  destruct (Hhkdf "wgmesh-gossip-v1" 32%nat) as (gk & -> & _); [lia |].
  destruct (Hhkdf "wgmesh-subnet-v1" 2%nat) as (sn & -> & _); [lia |].
  destruct (Hhkdf "wgmesh-mcast-v1" 4%nat) as (mc & -> & _); [lia |].
  destruct (Hhkdf "wgmesh-wg-psk-v1" 32%nat) as (psk & -> & _); [lia |].
  destruct (Hhkdf "wgmesh-gossip-port-v1" 2%nat) as (pb & -> & Hpb); [lia |].
  destruct pb as [| b0 [| b1 [| ? ?]]]; try discriminate.
  eexists _, b0, b1. split; [reflexivity |]. split; [reflexivity |].
  cbn [GossipPort]. rewrite BigEndian_Uint16_pair.
  pose proof (byte_to_Z_range b0). pose proof (byte_to_Z_range b1).
  pose proof (Z.mod_pos_bound
                (256 * GoBinary.byte_to_Z b0 + GoBinary.byte_to_Z b1) 1000).
  literals. rewrite Z.mod_small; lia.
Qed.

(** The bounds do not depend on the reader: every port that [DeriveKeys]
    returns lies in the range. *)
Lemma DeriveKeys_port_range (secret : string) (keys : DerivedKeys) :
  DeriveKeys secret = (Some keys, None) ->
  51821 <= GossipPort keys <= 52820.
Proof.
  unfold DeriveKeys.
  repeat match goal with
         | |- context [ match ?x with _ => _ end ] => destruct x
         end; try discriminate.
  intros [= <-]. cbn [GossipPort].
  match goal with
  | |- context [ ?x mod 1000 ] => pose proof (Z.mod_pos_bound x 1000)
  end.
  literals. rewrite Z.mod_small; lia.
Qed.

(** Shorter secrets are refused. *)
Lemma DeriveKeys_short_secret (secret : string) :
  (String.length secret < MinSecretLength)%nat ->
  DeriveKeys secret = (None, Some ErrSecretTooShort).
Proof.
  intros Hlen. unfold DeriveKeys.
  destruct (Nat.ltb_spec (String.length secret) MinSecretLength);
    [reflexivity | lia].
Qed.

End KeyDerivation.

(** With a reader that delivers bytes of value 3, the port is
    51821 + 771 mod 1000. *)
Lemma DeriveKeys_gossip_port_witness :
  exists keys b0 b1,
    Crypto.DeriveKeys (lib := TestVectors.lib) "correct horse battery"
    = (Some keys, None)
    /\ Crypto.hkdf_read (GoLib := TestVectors.lib) "correct horse battery"
         "wgmesh-gossip-port-v1" 2 = Some [b0; b1]
    /\ Crypto.GossipPort keys
       = 51821 + (256 * GoBinary.byte_to_Z b0 + GoBinary.byte_to_Z b1) mod 1000
    /\ 51821 <= Crypto.GossipPort keys <= 52820.
Proof.
  apply (DeriveKeys_gossip_port (lib := TestVectors.lib) "correct horse battery").
  - vm_compute. lia.
  - intros salt n Hn. exists (repeat Byte.x03 n). split.
    + unfold Crypto.hkdf_read, TestVectors.lib.
      destruct (Nat.leb_spec n (255 * 32)); [reflexivity | lia].
    + apply repeat_length.
Defined.

(** ** The peer store: aging *)

Section Aging.
Import GoTime Daemon.

(** Saturation does not change how a difference compares with a bound that
    is itself a duration. *)
Lemma Sub_above (t u : Time) (c : Duration) :
  minDuration <= c < maxDuration -> (c <? Sub t u) = (c <? t - u).
Proof.
  unfold Sub, minDuration, maxDuration. literals. intros Hc. cbv zeta.
  repeat match goal with
         | |- context [ if ?a <? ?b then _ else _ ] => destruct (Z.ltb_spec a b)
         end;
    repeat match goal with
           | |- context [ ?a <? ?b ] => destruct (Z.ltb_spec a b)
           end; lia.
Qed.

Lemma Sub_below (t u : Time) (c : Duration) :
  minDuration < c <= maxDuration -> (Sub t u <? c) = (t - u <? c).
Proof.
  unfold Sub, minDuration, maxDuration. literals. intros Hc. cbv zeta.
  repeat match goal with
         | |- context [ if ?a <? ?b then _ else _ ] => destruct (Z.ltb_spec a b)
         end;
    repeat match goal with
           | |- context [ ?a <? ?b ] => destruct (Z.ltb_spec a b)
           end; lia.
Qed.

Lemma stale_test (now : Time) (p : PeerInfo) :
  (PeerRemoveTimeout <? Sub now (LastSeen p)) = true
  <-> 10 * Minute < now - LastSeen p.
Proof.
  rewrite Sub_above by (vm_compute; split; congruence).
  rewrite Z.ltb_lt. reflexivity.
Qed.

Lemma active_test (now : Time) (p : PeerInfo) :
  (Sub now (LastSeen p) <? PeerDeadTimeout) = true
  <-> now - LastSeen p < 5 * Minute.
Proof.
  rewrite Sub_below by (vm_compute; split; congruence).
  rewrite Z.ltb_lt. reflexivity.
Qed.

(** The loop of [GetActive] appends the entries that pass the test, in the
    order visited. *)
Lemma GetActive_loop (now : Time) (l : list (string * PeerInfo))
    (result : list PeerInfo) :
  foldl (fun result kv =>
           if Sub now (LastSeen kv.2) <? PeerDeadTimeout
           then result ++ [kv.2] else result) result l
  = result
    ++ (filter (fun kv : string * PeerInfo =>
                  (Sub now (LastSeen kv.2) <? PeerDeadTimeout) = true) l).*2.
Proof.
  revert result. induction l as [| kv l IH]; intros result; cbn [foldl].
  - rewrite filter_nil. cbn. rewrite app_nil_r. reflexivity.
  - rewrite IH, filter_cons. destruct (Sub now _ <? _) eqn:Hact.
    + rewrite decide_True by reflexivity. rewrite fmap_cons, <- app_assoc.
      reflexivity.
    + rewrite decide_False by discriminate. reflexivity.
Qed.

Lemma GetActive_elem (ps : PeerStore) (now : Time) (p : PeerInfo) :
  p ∈ GetActive ps now
  <-> exists k, ps !! k = Some p /\ now - LastSeen p < 5 * Minute.
Proof.
  unfold GetActive. rewrite GetActive_loop, app_nil_l, list_elem_of_fmap.
  split.
  - intros ([k q] & -> & Hin). apply list_elem_of_filter in Hin as [Hact Hin].
    apply elem_of_map_to_list in Hin. exists k. split; [exact Hin |].
    apply active_test. exact Hact.
  - intros (k & Hk & Hact). exists (k, p). split; [reflexivity |].
    apply list_elem_of_filter. split.
    + apply active_test. exact Hact.
    + apply elem_of_map_to_list. exact Hk.
Qed.

(** The loop of [CleanupStale] deletes the keys of the entries that pass
    the test and collects them, in the order visited. *)
Lemma CleanupStale_loop (now : Time) (l : list (string * PeerInfo))
    (st : PeerStore * list string) :
  foldl (fun st kv =>
           if PeerRemoveTimeout <? Sub now (LastSeen kv.2)
           then (delete kv.1 st.1, st.2 ++ [kv.1]) else st) st l
  = (foldr delete st.1
       (filter (fun kv : string * PeerInfo =>
                  (PeerRemoveTimeout <? Sub now (LastSeen kv.2)) = true) l).*1,
     st.2
     ++ (filter (fun kv : string * PeerInfo =>
                   (PeerRemoveTimeout <? Sub now (LastSeen kv.2)) = true) l).*1).
Proof.
  revert st. induction l as [| kv l IH]; intros [m removed]; cbn [foldl].
  - rewrite filter_nil. cbn. rewrite app_nil_r. reflexivity.
  - rewrite IH, filter_cons. destruct (_ <? Sub now _) eqn:Hstale.
    + rewrite decide_True by reflexivity. cbn [fst snd].
      rewrite fmap_cons, <- app_assoc. cbn [foldr fst]. f_equal.
      clear. induction (_.*1) as [| k ks IHks]; cbn [foldr]; [reflexivity |].
      rewrite IHks. apply delete_delete.
    + rewrite decide_False by discriminate. reflexivity.
Qed.

Lemma lookup_foldr_delete (m : PeerStore) (ks : list string) (k : string) :
  foldr delete m ks !! k = if decide (k ∈ ks) then None else m !! k.
Proof.
  induction ks as [| k' ks IH]; cbn [foldr].
  - rewrite decide_False by apply not_elem_of_nil. reflexivity.
  - destruct (decide (k' = k)) as [-> | Hne].
    + rewrite lookup_delete_eq, decide_True by apply list_elem_of_here.
      reflexivity.
    + rewrite lookup_delete_ne, IH by exact Hne.
      destruct (decide (k ∈ ks)) as [Hin | Hin].
      * rewrite decide_True by (apply elem_of_cons; auto). reflexivity.
      * rewrite decide_False; [reflexivity |].
        rewrite elem_of_cons. intros [-> | ?]; congruence.
Qed.

Lemma stale_keys (ps : PeerStore) (now : Time) (k : string) :
  k ∈ (filter (fun kv : string * PeerInfo =>
                 (PeerRemoveTimeout <? Sub now (LastSeen kv.2)) = true)
              (map_to_list ps)).*1
  <-> exists p, ps !! k = Some p /\ 10 * Minute < now - LastSeen p.
Proof.
  rewrite list_elem_of_fmap. split.
  - intros ([k' p] & -> & Hin). apply list_elem_of_filter in Hin as [Hst Hin].
    apply elem_of_map_to_list in Hin. exists p. split; [exact Hin |].
    apply stale_test. exact Hst.
  - intros (p & Hk & Hst). exists (k, p). split; [reflexivity |].
    apply list_elem_of_filter. split.
    + apply stale_test. exact Hst.
    + apply elem_of_map_to_list. exact Hk.
Qed.

Lemma CleanupStale_lookup (ps : PeerStore) (now : Time) (k : string) :
  (CleanupStale ps now).1 !! k
  = match ps !! k with
    | Some p => if 10 * Minute <? now - LastSeen p then None else Some p
    | None => None
    end.
Proof.
  unfold CleanupStale. rewrite CleanupStale_loop. cbn [fst snd].
  rewrite lookup_foldr_delete.
  destruct (decide (k ∈ _)) as [Hin | Hin].
  - apply stale_keys in Hin as (p & -> & Hst).
    apply Z.ltb_lt in Hst. rewrite Hst. reflexivity.
  - destruct (ps !! k) as [p |] eqn:Hk; [| reflexivity].
    destruct (Z.ltb_spec (10 * Minute) (now - LastSeen p)) as [Hst |];
      [| reflexivity].
    exfalso. apply Hin, stale_keys. eauto.
Qed.

Lemma CleanupStale_keys (ps : PeerStore) (now : Time) (k : string) :
  k ∈ (CleanupStale ps now).2
  <-> exists p, ps !! k = Some p /\ 10 * Minute < now - LastSeen p.
Proof.
  unfold CleanupStale. rewrite CleanupStale_loop. cbn [fst snd].
  rewrite app_nil_l. apply stale_keys.
Qed.

Lemma CleanupStale_NoDup (ps : PeerStore) (now : Time) :
  NoDup (CleanupStale ps now).2.
Proof.
  unfold CleanupStale. rewrite CleanupStale_loop. cbn [fst snd].
  rewrite app_nil_l. apply NoDup_fmap_fst.
  - intros k p q [_ Hp]%list_elem_of_filter [_ Hq]%list_elem_of_filter.
    apply elem_of_map_to_list in Hp, Hq. congruence.
  - apply NoDup_filter, NoDup_map_to_list.
Qed.

(** What the two loops compute. [CleanupStale] removes from the store
    exactly the entries last seen more than ten minutes before the clock
    reading, leaves every other entry as it was, and returns the keys of the
    removed entries, each once; [GetActive] returns exactly the entries last
    seen less than five minutes before the clock reading. *)
Theorem aging (ps : PeerStore) (now : Time) :
  (forall k,
      (CleanupStale ps now).1 !! k
      = match ps !! k with
        | Some p => if 10 * Minute <? now - LastSeen p then None else Some p
        | None => None
        end)
  /\ (forall k,
         k ∈ (CleanupStale ps now).2
         <-> exists p, ps !! k = Some p /\ 10 * Minute < now - LastSeen p)
  /\ NoDup (CleanupStale ps now).2
  /\ (forall p,
         p ∈ GetActive ps now
         <-> exists k, ps !! k = Some p /\ now - LastSeen p < 5 * Minute).
Proof.
  split; [| split; [| split]].
  - apply CleanupStale_lookup.
  - apply CleanupStale_keys.
  - apply CleanupStale_NoDup.
  - apply GetActive_elem.
Qed.

(** Both bounds are strict. A peer last seen exactly five minutes ago is no
    longer returned by [GetActive], although [IsDead] does not yet call it
    dead; a peer last seen exactly ten minutes ago is not yet removed. *)
Example aging_boundaries :
  let five := <["pubkey-of-B" :=
                  mkPeerInfo "pubkey-of-B" "10.7.0.9" "192.0.2.2:51820" []
                    (TestVectors.now - 5 * Minute) ["lan"] None]> ∅ in
  let ten := <["pubkey-of-B" :=
                 mkPeerInfo "pubkey-of-B" "10.7.0.9" "192.0.2.2:51820" []
                   (TestVectors.now - 10 * Minute) ["lan"] None]> ∅ in
  GetActive five TestVectors.now = []
  /\ IsDead five "pubkey-of-B" TestVectors.now = false
  /\ (CleanupStale ten TestVectors.now).2 = [].
Proof. vm_compute. repeat split; reflexivity. Qed.

(** C2 fails on the code at the five-minute bound. An entry last seen
    exactly five minutes before the clock reading is within five minutes of
    it, and [IsDead], whose test is [> PeerDeadTimeout], does not call its
    peer dead. [GetActive], which its comment says returns the peers seen
    recently "(not dead)", tests [< PeerDeadTimeout] and leaves the entry
    out: it returns exactly the entries seen less than five minutes ago.
    The other half of the claim holds there: [CleanupStale] keeps the entry
    and does not return its key. *)
Theorem GetActive_omits_peer_seen_five_minutes_ago (ps : PeerStore)
    (now : Time) (k : string) (p : PeerInfo) :
  ps !! k = Some p ->
  now - LastSeen p = 5 * Minute ->
  (p ∉ GetActive ps now)
  /\ IsDead ps k now = false
  /\ (CleanupStale ps now).1 !! k = Some p
  /\ (k ∉ (CleanupStale ps now).2)
  /\ (forall q, q ∈ GetActive ps now
                <-> exists k', ps !! k' = Some q
                               /\ now - LastSeen q < 5 * Minute).
Proof.
  intros Hk Hexact. split; [| split; [| split; [| split]]].
  - rewrite GetActive_elem. intros (k' & _ & Hlt). lia.
  - unfold IsDead, Since. rewrite Hk.
    rewrite Sub_above by (vm_compute; split; congruence).
    apply Z.ltb_ge. unfold PeerDeadTimeout. lia.
  - rewrite CleanupStale_lookup, Hk.
    destruct (Z.ltb_spec (10 * Minute) (now - LastSeen p)); [| reflexivity].
    unfold Minute, Second in *. lia.
  - rewrite CleanupStale_keys. intros (q & Hq & Hstale).
    rewrite Hk in Hq. injection Hq as <-. unfold Minute, Second in *. lia.
  - apply GetActive_elem.
Qed.

End Aging.

(** B was last seen exactly five minutes ago: not dead, and not active. *)
Lemma GetActive_omits_peer_seen_five_minutes_ago_witness :
  (TestVectors.peerFive
   ∉ Daemon.GetActive TestVectors.storeFive TestVectors.now)
  /\ Daemon.IsDead TestVectors.storeFive "pubkey-of-B" TestVectors.now = false.
Proof.
  destruct (GetActive_omits_peer_seen_five_minutes_ago TestVectors.storeFive
              TestVectors.now "pubkey-of-B" TestVectors.peerFive)
    as (Hactive & Hdead & _).
  - reflexivity.
  - reflexivity.
  - split; assumption.
Defined.

(** ** The peer store: merge on update *)

Section Merge.
Import GoTime Daemon Notions.

Lemma Update_afterUpdate (ps : PeerStore) (info : PeerInfo) (m : string)
    (now : Time) :
  Update ps info m now
  = <[WGPubKey info := afterUpdate (ps !! WGPubKey info) info m now]> ps.
Proof. unfold Update, afterUpdate. destruct (ps !! WGPubKey info); reflexivity. Qed.

Lemma methodFound_elem (via : list string) (m : string) :
  methodFound via m = true <-> m ∈ via.
Proof.
  induction via as [| x via IH]; cbn [methodFound].
  - split; [discriminate | intros []%elem_of_nil].
  - rewrite elem_of_cons. destruct (String.eqb_spec x m) as [-> | Hne].
    + split; auto.
    + rewrite IH. split; [auto | intros [-> | ?]; [congruence | assumption]].
Qed.

(** The tags after a merge: the old ones and the new one. *)
Lemma mergePeer_via (existing info : PeerInfo) (m : string) (now : Time)
    (x : string) :
  x ∈ DiscoveredVia (mergePeer existing info m now)
  <-> x ∈ DiscoveredVia existing \/ x = m.
Proof.
  cbn [mergePeer DiscoveredVia].
  destruct (methodFound (DiscoveredVia existing) m) eqn:Hfound.
  - apply methodFound_elem in Hfound. split; [auto | intros [? | ->]; assumption].
  - rewrite elem_of_app, list_elem_of_singleton. reflexivity.
Qed.

Lemma mergePeer_NoDup (existing info : PeerInfo) (m : string) (now : Time) :
  NoDup (DiscoveredVia existing) ->
  NoDup (DiscoveredVia (mergePeer existing info m now)).
Proof.
  intros Hnd. cbn [mergePeer DiscoveredVia].
  destruct (methodFound (DiscoveredVia existing) m) eqn:Hfound; [exact Hnd |].
  apply NoDup_app. split; [exact Hnd |]. split; [| apply NoDup_singleton].
  intros x Hx ->%list_elem_of_singleton.
  apply methodFound_elem in Hx. congruence.
Qed.

Lemma afterUpdate_via (old : option PeerInfo) (info : PeerInfo) (m : string)
    (now : Time) (x : string) :
  x ∈ DiscoveredVia (afterUpdate old info m now)
  <-> (exists e, old = Some e /\ x ∈ DiscoveredVia e) \/ x = m.
Proof.
  destruct old as [e |]; cbn [afterUpdate].
  - rewrite mergePeer_via. split.
    + intros [? | ->]; eauto.
    + intros [(e' & [= <-] & ?) | ->]; auto.
  - cbn [DiscoveredVia]. rewrite list_elem_of_singleton. split; [auto |].
    intros [(e & [=] & _) | ->]. reflexivity.
Qed.

(** All fields but the tags are the same whatever method is reported... *)
Lemma afterUpdate_core_method (old : option PeerInfo) (info : PeerInfo)
    (m m' : string) (now : Time) :
  core (afterUpdate old info m now) = core (afterUpdate old info m' now).
Proof. destruct old; reflexivity. Qed.

(** ... and a second update with the same record changes none of them. *)
Lemma afterUpdate_core_again (old : option PeerInfo) (info : PeerInfo)
    (m m' : string) (now : Time) :
  core (afterUpdate (Some (afterUpdate old info m now)) info m' now)
  = core (afterUpdate old info m now).
Proof.
  destruct old as [e |]; unfold afterUpdate, mergePeer, core; cbn;
    destruct (negb (String.eqb (MeshIP info) ""));
    destruct (negb (String.eqb (Endpoint info) ""));
    destruct (RoutableNetworks info); reflexivity.
Qed.

Lemma updates_lookup_ne (ps : PeerStore) (info : PeerInfo)
    (methods : list string) (now : Time) (k : string) :
  k <> WGPubKey info -> updates ps info methods now !! k = ps !! k.
Proof.
  intros Hne. unfold updates. revert ps.
  induction methods as [| m ms IH]; intros ps; cbn [foldl]; [reflexivity |].
  rewrite IH, Update_afterUpdate, lookup_insert_ne by congruence. reflexivity.
Qed.

(** After at least one update, the entry of the peer holds the fields of a
    single update and the tags of all of them. *)
Lemma updates_lookup_key (info : PeerInfo) (now : Time) (methods : list string) :
  forall (ps : PeerStore) (m0 : string),
    methods <> [] ->
    exists p,
      updates ps info methods now !! WGPubKey info = Some p
      /\ core p = core (afterUpdate (ps !! WGPubKey info) info m0 now)
      /\ forall x,
           x ∈ DiscoveredVia p
           <-> (exists e, ps !! WGPubKey info = Some e /\ x ∈ DiscoveredVia e)
               \/ x ∈ methods.
Proof.
  induction methods as [| m ms IH]; intros ps m0 Hne; [congruence |].
  unfold updates. cbn [foldl]. fold (updates (Update ps info m now) info ms now).
  destruct ms as [| m' ms].
  - cbn [updates foldl]. rewrite Update_afterUpdate, lookup_insert_eq.
    eexists. split; [reflexivity |]. split; [apply afterUpdate_core_method |].
    intros x. rewrite afterUpdate_via, list_elem_of_singleton. reflexivity.
  - destruct (IH (Update ps info m now) m0) as (p & Hp & Hcore & Hvia);
      [discriminate |].
    exists p. split; [exact Hp |].
    rewrite Update_afterUpdate, lookup_insert_eq in Hcore, Hvia. split.
    + rewrite Hcore, afterUpdate_core_again. apply afterUpdate_core_method.
    + intros x. rewrite Hvia. rewrite (elem_of_cons (m' :: ms) x m). split.
      * intros [(e & [= <-] & Hx) | Hx]; [| auto].
        apply afterUpdate_via in Hx as [Hx | ->]; auto.
      * intros [Hx | [-> | Hx]]; [| | auto].
        -- left. eexists. split; [reflexivity |]. apply afterUpdate_via. auto.
        -- left. eexists. split; [reflexivity |]. apply afterUpdate_via. auto.
Qed.

Lemma updates_order (ps : PeerStore) (info : PeerInfo) (now : Time)
    (ms1 ms2 : list string) :
  (forall x, x ∈ ms1 <-> x ∈ ms2) ->
  sameStore (updates ps info ms1 now) (updates ps info ms2 now).
Proof.
  intros Hsame k. destruct (decide (k = WGPubKey info)) as [-> | Hne].
  - destruct ms1 as [| a ms1].
    + assert (ms2 = []) as ->.
      { apply elem_of_nil_inv. intros x Hx%Hsame. revert Hx. apply not_elem_of_nil. }
      cbn [updates foldl]. destruct (ps !! WGPubKey info) as [p |]; [| exact I].
      split; reflexivity.
    + assert (ms2 <> []) as Hne2.
      { intros ->. apply (not_elem_of_nil a), Hsame, list_elem_of_here. }
      destruct (updates_lookup_key info now (a :: ms1) ps "") as (p & -> & Hp & Hvp);
        [discriminate |].
      destruct (updates_lookup_key info now ms2 ps "") as (q & -> & Hq & Hvq);
        [exact Hne2 |].
      split; [congruence |].
      intros x. rewrite Hvp, Hvq, Hsame. reflexivity.
  - rewrite !updates_lookup_ne by exact Hne.
    destruct (ps !! k) as [p |]; [| exact I]. split; reflexivity.
Qed.

(** C3. [Update] inserts or merges under the public key of the record it is
    given and touches no other entry. On insertion the record is stored with
    [last_seen] set to the clock reading and the reporting method as its
    only tag. On a merge every non-empty field among endpoint, mesh address
    and routable networks replaces the stored one and every empty one
    leaves it, [last_seen] becomes the clock reading, and the tags become
    the stored tags together with the reporting method, listed without
    duplicates. Hence, for one record and one clock reading, two sequences
    of updates that report the same methods, in whatever order and however
    often, leave stores that are equal up to the order of the tags. *)
Theorem Update_merge (ps : PeerStore) (info : PeerInfo) (m : string)
    (now : Time) :
  (forall k, k <> WGPubKey info -> Update ps info m now !! k = ps !! k)
  /\ (ps !! WGPubKey info = None ->
      Update ps info m now !! WGPubKey info
      = Some (mkPeerInfo (WGPubKey info) (MeshIP info) (Endpoint info)
                (RoutableNetworks info) now [m] (Latency info)))
  /\ (forall e, ps !! WGPubKey info = Some e ->
      exists p,
        Update ps info m now !! WGPubKey info = Some p
        /\ WGPubKey p = WGPubKey e
        /\ Latency p = Latency e
        /\ Endpoint p
           = (if String.eqb (Endpoint info) "" then Endpoint e else Endpoint info)
        /\ MeshIP p
           = (if String.eqb (MeshIP info) "" then MeshIP e else MeshIP info)
        /\ RoutableNetworks p
           = match RoutableNetworks info with
             | [] => RoutableNetworks e
             | _ :: _ => RoutableNetworks info
             end
        /\ LastSeen p = now
        /\ (forall x, x ∈ DiscoveredVia p <-> x ∈ DiscoveredVia e \/ x = m)
        /\ (NoDup (DiscoveredVia e) -> NoDup (DiscoveredVia p)))
  /\ (forall ms1 ms2,
        (forall x, x ∈ ms1 <-> x ∈ ms2) ->
        sameStore (updates ps info ms1 now) (updates ps info ms2 now)).
Proof.
  split; [| split; [| split]].
  - intros k Hne. rewrite Update_afterUpdate, lookup_insert_ne by congruence.
    reflexivity.
  - intros Hnone. rewrite Update_afterUpdate, lookup_insert_eq, Hnone.
    reflexivity.
  - intros e He. rewrite Update_afterUpdate, lookup_insert_eq, He.
    eexists. split; [reflexivity |]. cbn [afterUpdate].
    split; [reflexivity |]. split; [reflexivity |].
    split; [cbn; destruct (String.eqb (Endpoint info) ""); reflexivity |].
    split; [cbn; destruct (String.eqb (MeshIP info) ""); reflexivity |].
    split; [cbn; destruct (RoutableNetworks info); reflexivity |].
    split; [reflexivity |].
    split; [intros x; apply mergePeer_via | apply mergePeer_NoDup].
  - intros ms1 ms2. apply updates_order.
Qed.

(** Updates of different peers do not interfere: they commute. *)
Lemma Update_commute (ps : PeerStore) (a b : PeerInfo) (ma mb : string)
    (now : Time) :
  WGPubKey a <> WGPubKey b ->
  Update (Update ps a ma now) b mb now = Update (Update ps b mb now) a ma now.
Proof.
  intros Hne. rewrite !Update_afterUpdate.
  rewrite !lookup_insert_ne by congruence.
  apply insert_insert_ne. congruence.
Qed.

(** The store stays well formed. *)
Lemma wellFormed_empty : wellFormed NewPeerStore.
Proof. intros k p Hk. unfold NewPeerStore in Hk. rewrite lookup_empty in Hk. discriminate. Qed.

Lemma wellFormed_Update (ps : PeerStore) (info : PeerInfo) (m : string)
    (now : Time) :
  wellFormed ps -> wellFormed (Update ps info m now).
Proof.
  intros Hwf k p. rewrite Update_afterUpdate.
  destruct (decide (k = WGPubKey info)) as [-> | Hne].
  - rewrite lookup_insert_eq. intros [= <-].
    destruct (ps !! WGPubKey info) as [e |] eqn:He; cbn [afterUpdate].
    + destruct (Hwf _ _ He) as [Hkey Hnd]. split; [exact Hkey |].
      apply mergePeer_NoDup, Hnd.
    + split; [reflexivity | apply NoDup_singleton].
  - rewrite lookup_insert_ne by congruence. apply Hwf.
Qed.

Lemma wellFormed_Remove (ps : PeerStore) (k : string) :
  wellFormed ps -> wellFormed (Remove ps k).
Proof.
  intros Hwf k' p Hk'. unfold Remove in Hk'.
  apply lookup_delete_Some in Hk' as [_ Hk']. eapply Hwf, Hk'.
Qed.

Lemma wellFormed_CleanupStale (ps : PeerStore) (now : Time) :
  wellFormed ps -> wellFormed (CleanupStale ps now).1.
Proof.
  intros Hwf k p Hk. rewrite CleanupStale_lookup in Hk. destruct (ps !! k) as [q |] eqn:Hq; [| discriminate].
  destruct (_ <? _); [discriminate |]. injection Hk as <-. eapply Hwf, Hq.
Qed.

(** In a well-formed store the keys [CleanupStale] returns are the public
    keys of the entries it removed. *)
Lemma CleanupStale_returns_pubkeys (ps : PeerStore) (now : Time) (k : string) :
  wellFormed ps ->
  k ∈ (CleanupStale ps now).2
  <-> exists p, ps !! k = Some p /\ WGPubKey p = k
                /\ 10 * Minute < now - LastSeen p.
Proof.
  intros Hwf. rewrite CleanupStale_keys.
  split.
  - intros (p & Hp & Hst). exists p. destruct (Hwf _ _ Hp). auto.
  - intros (p & Hp & _ & Hst). eauto.
Qed.

End Merge.

(** ** Collisions of mesh addresses *)

Section Collisions.
Context `{lib : Crypto.GoLib}.
Import GoTime Daemon Notions.



(** One round of the resolution loop either leaves the daemon as it is or
    replaces the local mesh address by the address derived with nonce 1. *)
Lemma resolveStep_state (d : Daemon) (evs : list Event) (c : CollisionInfo) :
  (resolveStep (d, evs) c).1
  = if String.eqb (WGPubKey (DeterministicWinner (Peer1 c) (Peer2 c)).2)
         (ln_WGPubKey (localNode d))
    then withMeshIP d
           (DeriveMeshIPWithNonce (Crypto.MeshSubnet (Keys (config d)))
              (ln_WGPubKey (localNode d)) (Secret (config d)) 1)
    else d.
Proof.
  unfold resolveStep. cbn [fst snd]. destruct (String.eqb _ _); reflexivity.
Qed.

Lemma resolve_loop_state (cs : list CollisionInfo) :
  forall (d : Daemon) (ip : string) (evs : list Event),
    (foldl resolveStep (withMeshIP d ip, evs) cs).1
    = if localLoses d cs
      then withMeshIP d
             (DeriveMeshIPWithNonce (Crypto.MeshSubnet (Keys (config d)))
                (ln_WGPubKey (localNode d)) (Secret (config d)) 1)
      else withMeshIP d ip.
Proof.
  induction cs as [| c cs IH]; intros d ip evs; cbn [foldl localLoses existsb];
    [reflexivity |].
  fold (localLoses d cs).
  set (r := resolveStep (withMeshIP d ip, evs) c).
  assert (Hr : r.1
               = if String.eqb
                      (WGPubKey (DeterministicWinner (Peer1 c) (Peer2 c)).2)
                      (ln_WGPubKey (localNode d))
                 then withMeshIP d
                        (DeriveMeshIPWithNonce
                           (Crypto.MeshSubnet (Keys (config d)))
                           (ln_WGPubKey (localNode d)) (Secret (config d)) 1)
                 else withMeshIP d ip).
  { unfold r. rewrite resolveStep_state. reflexivity. }
  rewrite (surjective_pairing r), Hr.
  destruct (String.eqb _ (ln_WGPubKey (localNode d))); cbn [orb]; rewrite IH;
    [destruct (localLoses d cs); reflexivity | reflexivity].
Qed.

Lemma withMeshIP_same (d : Daemon) : withMeshIP d (ln_MeshIP (localNode d)) = d.
Proof. destruct d as [cfg [] ps]. reflexivity. Qed.

(** [CheckAndResolveCollisions] in closed form. *)
Lemma CheckAndResolveCollisions_state (d : Daemon) :
  (CheckAndResolveCollisions d).1
  = if localLoses d (DetectCollisions (peerStore d))
    then withMeshIP d
           (DeriveMeshIPWithNonce (Crypto.MeshSubnet (Keys (config d)))
              (ln_WGPubKey (localNode d)) (Secret (config d)) 1)
    else d.
Proof.
  unfold CheckAndResolveCollisions.
  destruct (DetectCollisions (peerStore d)) as [| c cs] eqn:Hcs;
    [reflexivity |].
  cbn [length Nat.eqb].
  rewrite <- (withMeshIP_same d) at 1. rewrite resolve_loop_state.
  rewrite withMeshIP_same. reflexivity.
Qed.

(** What one round of the resolution loop logs and asks of the interface:
    the address it prints or sets is the one derived, with nonce 1, for the
    key of the loser. *)
Lemma resolveStep_events (d : Daemon) (evs : list Event) (c : CollisionInfo) :
  let winner := (DeterministicWinner (Peer1 c) (Peer2 c)).1 in
  let loser := (DeterministicWinner (Peer1 c) (Peer2 c)).2 in
  let newIP :=
    DeriveMeshIPWithNonce (Crypto.MeshSubnet (Keys (config d)))
      (WGPubKey loser) (Secret (config d)) 1 in
  (resolveStep (d, evs) c).2
  = evs
    ++ LogCollisionDetected (c_MeshIP c) (safeKeyPrefix (WGPubKey winner))
         (safeKeyPrefix (WGPubKey loser))
    :: (if String.eqb (WGPubKey loser) (ln_WGPubKey (localNode d))
        then [LogLostCollision (ln_MeshIP (localNode d)) newIP;
              SetInterfaceAddress (InterfaceName (config d)) (newIP +:+ "/16")]
        else [LogRemoteShouldRederive (safeKeyPrefix (WGPubKey loser)) newIP]).
Proof.
  unfold resolveStep, ResolveCollision. cbn [fst snd].
  destruct (String.eqb_spec
              (WGPubKey (DeterministicWinner (Peer1 c) (Peer2 c)).2)
              (ln_WGPubKey (localNode d))) as [Heq |];
    cbn [fst snd]; rewrite <- app_assoc; [rewrite Heq |]; reflexivity.
Qed.

(** The loop of [DetectCollisions] reports only genuine collisions. *)
Lemma detect_loop_genuine (known l : list PeerInfo) :
  forall st : gmap string PeerInfo * list CollisionInfo,
    (forall p, p ∈ l -> p ∈ known) ->
    (forall ip p, st.1 !! ip = Some p -> MeshIP p = ip /\ p ∈ known) ->
    (forall c, c ∈ st.2 -> genuine known c) ->
    forall c, c ∈ (foldl detectStep st l).2 -> genuine known c.
Proof.
  induction l as [| peer l IH]; intros st Hl Hmap Hcols; cbn [foldl];
    [exact Hcols |].
  assert (Hpeer : peer ∈ known) by (apply Hl, list_elem_of_here).
  assert (Hl' : forall p, p ∈ l -> p ∈ known)
    by (intros p Hp; apply Hl, list_elem_of_further, Hp).
  apply IH; [exact Hl' | |]; unfold detectStep;
    destruct (String.eqb_spec (MeshIP peer) "") as [Hempty | Hempty];
    try assumption;
    destruct (st.1 !! MeshIP peer) as [existing |] eqn:Hex;
    try destruct (String.eqb_spec (WGPubKey existing) (WGPubKey peer));
    cbn [negb fst snd]; try assumption.
  - intros ip p. destruct (decide (MeshIP peer = ip)) as [<- | Hne].
    + rewrite lookup_insert_eq. intros [= <-]. auto.
    + rewrite lookup_insert_ne by exact Hne. apply Hmap.
  - intros c [Hc | ->%list_elem_of_singleton]%elem_of_app; [auto |].
    destruct (Hmap _ _ Hex) as [Hip Hknown].
    unfold genuine. cbn [c_MeshIP Peer1 Peer2]. rewrite Hip. auto 10.
Qed.


(** C5 fails on the code. The address of a losing local node is always
    derived with nonce 1: [CheckAndResolveCollisions] either leaves the
    local address or sets it to that one address, and running it again
    while the collision persists changes nothing, so no later round uses a
    larger nonce or proposes another address. *)
Theorem rederivation_always_nonce_one (d : Daemon) :
  (ln_MeshIP (localNode (CheckAndResolveCollisions d).1)
   = ln_MeshIP (localNode d)
   \/ ln_MeshIP (localNode (CheckAndResolveCollisions d).1)
      = DeriveMeshIPWithNonce (Crypto.MeshSubnet (Keys (config d)))
          (ln_WGPubKey (localNode d)) (Secret (config d)) 1)
  /\ (CheckAndResolveCollisions (CheckAndResolveCollisions d).1).1
     = (CheckAndResolveCollisions d).1.
Proof.
  rewrite !CheckAndResolveCollisions_state.
  destruct (localLoses d (DetectCollisions (peerStore d))) eqn:Hlost.
  - split; [right; reflexivity |].
    cbn [withMeshIP peerStore localNode config ln_WGPubKey].
    change (localLoses (withMeshIP d ?ip) ?cs) with (localLoses d cs).
    rewrite Hlost. reflexivity.
  - split; [left; reflexivity |]. rewrite Hlost. reflexivity.
Qed.

End Collisions.

(** On the test daemon the first round moves B from 10.7.0.9 to
    10.7.76.40, the address of nonce 1, and the second round logs a move
    from 10.7.76.40 to 10.7.76.40. *)
Example rederivation_daemonB :
  let round1 := Daemon.CheckAndResolveCollisions (lib := TestVectors.lib)
                  TestVectors.daemonB in
  let round2 := Daemon.CheckAndResolveCollisions (lib := TestVectors.lib)
                  round1.1 in
  Daemon.ln_MeshIP (Daemon.localNode round1.1) = "10.7.76.40"
  /\ round2.2
     = [Daemon.LogCollisionDetected "10.7.0.9" "pubkey-o..." "pubkey-o...";
        Daemon.LogLostCollision "10.7.76.40" "10.7.76.40";
        Daemon.SetInterfaceAddress "wg0" "10.7.76.40/16"].
Proof. vm_compute. split; reflexivity. Qed.

(** [DeriveMeshIPWithCollisionCheck] does step the nonce: when the first
    address of B and the address of nonce 1 are both taken, it returns the
    address of nonce 2. *)
Example collision_check_steps_nonce :
  let subnet := Crypto.MeshSubnet TestVectors.keys in
  let taken : gmap string string :=
    <["10.7.79.32" := "pubkey-of-A"]> (<["10.7.76.40" := "pubkey-of-C"]> ∅) in
  Crypto.DeriveMeshIP (lib := TestVectors.lib) subnet "pubkey-of-B"
    "correct horse battery" = "10.7.79.32"
  /\ Daemon.DeriveMeshIPWithNonce (lib := TestVectors.lib) subnet "pubkey-of-B"
       "correct horse battery" 1 = "10.7.76.40"
  /\ Daemon.DeriveMeshIPWithCollisionCheck (lib := TestVectors.lib) subnet
       "pubkey-of-B" "correct horse battery" taken
     = Daemon.DeriveMeshIPWithNonce (lib := TestVectors.lib) subnet
         "pubkey-of-B" "correct horse battery" 2.
Proof. vm_compute. repeat split; reflexivity. Qed.

(** ** The reconciler *)

Section Reconciler.
Context `{wg : Daemon.WireGuard}.
Import GoTime Daemon Notions.

(** What the first loop of the tick does: every event is the configuration
    of a peer of the list other than the local node, the line logged when
    that call failed, or the panic. *)
Lemma configureLoop_events (d : Daemon) (peers : list PeerInfo) (ev : Event) :
  ev ∈ (configureLoop d peers).1 ->
  (exists p, p ∈ peers /\ WGPubKey p <> ln_WGPubKey (localNode d)
             /\ (ev = configurePeer d p
                 \/ (callFails (configurePeer d p) = true
                     /\ exists prefix, keyPrefix8 (WGPubKey p) = Some prefix
                                       /\ ev = LogConfigureFailed prefix)))
  \/ (ev = Panic /\ (configureLoop d peers).2 = true).
Proof.
  induction peers as [| peer rest IH]; cbn [configureLoop].
  - intros Hev%elem_of_nil. contradiction.
  - destruct (String.eqb_spec (WGPubKey peer) (ln_WGPubKey (localNode d)))
      as [Hself | Hother].
    + intros Hev. destruct (IH Hev) as [(p & Hp & Hrest) | Hpanic];
        [left; exists p; split; [apply list_elem_of_further, Hp | exact Hrest]
        | right; exact Hpanic].
    + destruct (callFails (configurePeer d peer)) eqn:Hfail;
        [destruct (keyPrefix8 (WGPubKey peer)) as [prefix |] eqn:Hprefix |];
        cbn [fst snd]; rewrite ?elem_of_cons.
      * intros [-> | [-> | Hev]].
        -- left. exists peer. split; [apply list_elem_of_here | auto].
        -- left. exists peer. split; [apply list_elem_of_here |].
           split; [exact Hother |]. right. eauto.
        -- destruct (IH Hev) as [(p & Hp & Hrest) | Hpanic];
             [left; exists p; split;
                [apply list_elem_of_further, Hp | exact Hrest]
             | right; exact Hpanic].
      * intros [-> | [-> | Hev%elem_of_nil]]; [| auto | contradiction].
        left. exists peer. split; [apply list_elem_of_here | auto].
      * intros [-> | Hev].
        -- left. exists peer. split; [apply list_elem_of_here | auto].
        -- destruct (IH Hev) as [(p & Hp & Hrest) | Hpanic];
             [left; exists p; split;
                [apply list_elem_of_further, Hp | exact Hrest]
             | right; exact Hpanic].
Qed.

(** The first loop panics exactly when a call fails for a key shorter than
    eight bytes; then the trace holds the panic. *)
Lemma configureLoop_panics (d : Daemon) (peers : list PeerInfo) :
  ((configureLoop d peers).2 = true
   <-> exists p, p ∈ peers /\ WGPubKey p <> ln_WGPubKey (localNode d)
                 /\ callFails (configurePeer d p) = true
                 /\ keyPrefix8 (WGPubKey p) = None)
  /\ (Panic ∈ (configureLoop d peers).1 <-> (configureLoop d peers).2 = true).
Proof.
  induction peers as [| peer rest [IHp IHt]]; cbn [configureLoop].
  - cbn [fst snd]. split; split.
    + discriminate.
    + intros (p & Hp%elem_of_nil & _). contradiction.
    + intros Hev%elem_of_nil. contradiction.
    + discriminate.
  - destruct (String.eqb_spec (WGPubKey peer) (ln_WGPubKey (localNode d)))
      as [Hself | Hother].
    + split; [| exact IHt]. rewrite IHp. split.
      * intros (p & Hp & Hrest). exists p.
        split; [apply list_elem_of_further, Hp | exact Hrest].
      * intros (p & [-> | Hp]%elem_of_cons & Hne & Hrest);
          [contradiction | eauto].
    + destruct (callFails (configurePeer d peer)) eqn:Hfail;
        [destruct (keyPrefix8 (WGPubKey peer)) as [prefix |] eqn:Hprefix |];
        cbn [fst snd].
      * split.
        -- rewrite IHp. split.
           ++ intros (p & Hp & Hrest). exists p.
              split; [apply list_elem_of_further, Hp | exact Hrest].
           ++ intros (p & [-> | Hp]%elem_of_cons & Hne & Hf & Hk);
                [congruence | eauto].
        -- rewrite <- IHt, !elem_of_cons. split; [| auto].
           intros [Hc | [Hc | Hev]]; [discriminate | discriminate | exact Hev].
      * split.
        -- split; [| reflexivity]. intros _. exists peer.
           split; [apply list_elem_of_here | auto].
        -- split; [reflexivity |]. intros _.
           apply list_elem_of_further, list_elem_of_here.
      * split.
        -- rewrite IHp. split.
           ++ intros (p & Hp & Hrest). exists p.
              split; [apply list_elem_of_further, Hp | exact Hrest].
           ++ intros (p & [-> | Hp]%elem_of_cons & Hne & Hf & Hk);
                [congruence | eauto].
        -- rewrite <- IHt, elem_of_cons. split; [| auto].
           intros [Hc | Hev]; [discriminate | exact Hev].
Qed.

(** A first loop that does not panic configures every peer of the list
    other than the local node. *)
Lemma configureLoop_complete (d : Daemon) (peers : list PeerInfo) (p : PeerInfo) :
  (configureLoop d peers).2 = false ->
  p ∈ peers -> WGPubKey p <> ln_WGPubKey (localNode d) ->
  configurePeer d p ∈ (configureLoop d peers).1.
Proof.
  induction peers as [| peer rest IH]; cbn [configureLoop];
    [intros _ Hp%elem_of_nil; contradiction |].
  destruct (String.eqb_spec (WGPubKey peer) (ln_WGPubKey (localNode d)))
    as [Hself | Hother].
  - intros Hrun [-> | Hp]%elem_of_cons Hne; [contradiction | auto].
  - destruct (callFails (configurePeer d peer)) eqn:Hfail;
      [destruct (keyPrefix8 (WGPubKey peer)) as [prefix |] eqn:Hprefix |];
      cbn [fst snd]; intros Hrun [-> | Hp]%elem_of_cons Hne;
      try discriminate; try apply list_elem_of_here.
    + apply list_elem_of_further, list_elem_of_further. auto.
    + apply list_elem_of_further. auto.
Qed.

(** The same three facts of the second loop. *)
Lemma removeLoop_events (d : Daemon) (removed : list string) (ev : Event) :
  ev ∈ (removeLoop d removed).1 ->
  (exists k, k ∈ removed
             /\ (ev = removePeer d k
                 \/ (callFails (removePeer d k) = true
                     /\ exists prefix, keyPrefix8 k = Some prefix
                                       /\ ev = LogRemoveFailed prefix)))
  \/ (ev = Panic /\ (removeLoop d removed).2 = true).
Proof.
  induction removed as [| key rest IH]; cbn [removeLoop].
  - intros Hev%elem_of_nil. contradiction.
  - destruct (callFails (removePeer d key)) eqn:Hfail;
      [destruct (keyPrefix8 key) as [prefix |] eqn:Hprefix |];
      cbn [fst snd]; rewrite ?elem_of_cons.
    + intros [-> | [-> | Hev]].
      * left. exists key. split; [apply list_elem_of_here | auto].
      * left. exists key. split; [apply list_elem_of_here |]. right. eauto.
      * destruct (IH Hev) as [(k & Hk & Hrest) | Hpanic];
          [left; exists k; split;
             [apply list_elem_of_further, Hk | exact Hrest]
          | right; exact Hpanic].
    + intros [-> | [-> | Hev%elem_of_nil]]; [| auto | contradiction].
      left. exists key. split; [apply list_elem_of_here | auto].
    + intros [-> | Hev].
      * left. exists key. split; [apply list_elem_of_here | auto].
      * destruct (IH Hev) as [(k & Hk & Hrest) | Hpanic];
          [left; exists k; split;
             [apply list_elem_of_further, Hk | exact Hrest]
          | right; exact Hpanic].
Qed.

Lemma removeLoop_panics (d : Daemon) (removed : list string) :
  ((removeLoop d removed).2 = true
   <-> exists k, k ∈ removed /\ callFails (removePeer d k) = true
                 /\ keyPrefix8 k = None)
  /\ (Panic ∈ (removeLoop d removed).1 <-> (removeLoop d removed).2 = true).
Proof.
  induction removed as [| key rest [IHp IHt]]; cbn [removeLoop].
  - cbn [fst snd]. split; split.
    + discriminate.
    + intros (k & Hk%elem_of_nil & _). contradiction.
    + intros Hev%elem_of_nil. contradiction.
    + discriminate.
  - destruct (callFails (removePeer d key)) eqn:Hfail;
      [destruct (keyPrefix8 key) as [prefix |] eqn:Hprefix |];
      cbn [fst snd].
    + split.
      * rewrite IHp. split.
        -- intros (k & Hk & Hrest). exists k.
           split; [apply list_elem_of_further, Hk | exact Hrest].
        -- intros (k & [-> | Hk]%elem_of_cons & Hf & Hp);
             [congruence | eauto].
      * rewrite <- IHt, !elem_of_cons. split; [| auto].
        intros [Hc | [Hc | Hev]]; [discriminate | discriminate | exact Hev].
    + split.
      * split; [| reflexivity]. intros _. exists key.
        split; [apply list_elem_of_here | auto].
      * split; [reflexivity |]. intros _.
        apply list_elem_of_further, list_elem_of_here.
    + split.
      * rewrite IHp. split.
        -- intros (k & Hk & Hrest). exists k.
           split; [apply list_elem_of_further, Hk | exact Hrest].
        -- intros (k & [-> | Hk]%elem_of_cons & Hf & Hp);
             [congruence | eauto].
      * rewrite <- IHt, elem_of_cons. split; [| auto].
        intros [Hc | Hev]; [discriminate | exact Hev].
Qed.

Lemma removeLoop_complete (d : Daemon) (removed : list string) (k : string) :
  (removeLoop d removed).2 = false ->
  k ∈ removed -> removePeer d k ∈ (removeLoop d removed).1.
Proof.
  induction removed as [| key rest IH]; cbn [removeLoop];
    [intros _ Hk%elem_of_nil; contradiction |].
  destruct (callFails (removePeer d key)) eqn:Hfail;
    [destruct (keyPrefix8 key) as [prefix |] eqn:Hprefix |];
    cbn [fst snd]; intros Hrun [-> | Hk]%elem_of_cons;
    try discriminate; try apply list_elem_of_here.
  - apply list_elem_of_further, list_elem_of_further. auto.
  - apply list_elem_of_further. auto.
Qed.

(** With no active peer the tick returns at once. *)
Lemma reconcile_idle (d : Daemon) (now : Time) :
  GetActive (peerStore d) now = [] -> reconcile d now = (d, []).
Proof. intros Hnone. unfold reconcile. rewrite Hnone. reflexivity. Qed.

(** With an active peer the tick configures the active peers other than the
    local node, then evicts the stale entries and withdraws each of them
    from WireGuard; a panic of the first loop ends it before the
    eviction. *)
Lemma reconcile_busy (d : Daemon) (now : Time) :
  GetActive (peerStore d) now <> [] ->
  reconcile d now
  = if (configureLoop d (GetActive (peerStore d) now)).2
    then (d, (configureLoop d (GetActive (peerStore d) now)).1)
    else (mkDaemon (config d) (localNode d) (CleanupStale (peerStore d) now).1,
          (configureLoop d (GetActive (peerStore d) now)).1
          ++ (removeLoop d (CleanupStale (peerStore d) now).2).1).
Proof.
  intros Hsome. unfold reconcile.
  destruct (GetActive (peerStore d) now) as [| p peers] eqn:Hact;
    [congruence |].
  reflexivity.
Qed.

(** C7 fails on the code. On a tick that finds no active peer the
    reconciler returns before the cleanup: every entry that [CleanupStale]
    would evict stays in the peer store, and no call reaches WireGuard, in
    particular no [RemovePeer] for it. *)
Theorem reconcile_skips_cleanup_without_active_peers (d : Daemon) (now : Time)
    (k : string) :
  GetActive (peerStore d) now = [] ->
  k ∈ (CleanupStale (peerStore d) now).2 ->
  reconcile d now = (d, [])
  /\ is_Some (peerStore (reconcile d now).1 !! k)
  /\ removePeer d k ∉ (reconcile d now).2.
Proof.
  intros Hnone Hstale. rewrite (reconcile_idle d now Hnone). cbn [fst snd].
  split; [reflexivity |]. split; [| apply not_elem_of_nil].
  apply CleanupStale_keys in Hstale as (p & -> & _). eauto.
Qed.

End Reconciler.

(** The store holds one peer, C, last seen eleven minutes ago: the tick does
    nothing, although [CleanupStale] would evict C. *)
Lemma reconcile_skips_cleanup_witness :
  (Daemon.CleanupStale (Daemon.peerStore TestVectors.daemonStale)
     TestVectors.now).2 = ["pubkey-of-C"]
  /\ Daemon.reconcile (wg := TestVectors.wgUp) TestVectors.daemonStale
       TestVectors.now
     = (TestVectors.daemonStale, []).
Proof.
  split; [vm_compute; reflexivity |].
  apply (reconcile_skips_cleanup_without_active_peers (wg := TestVectors.wgUp)
           TestVectors.daemonStale TestVectors.now "pubkey-of-C").
  - vm_compute. reflexivity.
  - vm_compute. apply list_elem_of_here.
Defined.

(** ** The peer exchange listener *)

Section Exchange.
Context `{lib : Crypto.GoLib}.
Import GoTime GoNet Discovery.

(** A packet of a type other than HELLO and REPLY is logged and dropped:
    the state of the exchange, its peer store included, is left as it was
    and nothing is written to the socket. *)
Lemma handleMessage_other_type (pe : PeerExchange) (data : list byte)
    (remoteAddr : UDPAddr) (now : Time) (entropy : option (list byte))
    (envelope : Crypto.Envelope) (announcement : Crypto.PeerAnnouncement) :
  Crypto.OpenEnvelope data (Crypto.GossipKey (Daemon.Keys (config pe))) now
  = (Some envelope, Some announcement, None) ->
  Crypto.MessageType envelope <> Crypto.MessageTypeHello ->
  Crypto.MessageType envelope <> Crypto.MessageTypeReply ->
  handleMessage pe data remoteAddr now entropy
  = (pe, [LogValidMessage (Crypto.MessageType envelope)
            (UDPAddr_String (Some remoteAddr));
          LogUnknownMessageType (Crypto.MessageType envelope)]).
Proof.
  intros Hopen Hhello Hreply. unfold handleMessage. rewrite Hopen.
  destruct (String.eqb_spec (Crypto.MessageType envelope) Crypto.MessageTypeHello);
    [contradiction |].
  destruct (String.eqb_spec (Crypto.MessageType envelope) Crypto.MessageTypeReply);
    [contradiction |].
  reflexivity.
Qed.

(** C8 fails on the code. A valid envelope of type ANNOUNCE that reaches
    the listener of the peer exchange is accepted by [OpenEnvelope], logged
    as a message of unknown type and dropped: the peer store is left as it
    was, so the sender's announcement is not merged. Nothing is sent back. *)
Theorem exchange_drops_announce (pe : PeerExchange) (data : list byte)
    (remoteAddr : UDPAddr) (now : Time) (entropy : option (list byte))
    (envelope : Crypto.Envelope) (announcement : Crypto.PeerAnnouncement) :
  Crypto.OpenEnvelope data (Crypto.GossipKey (Daemon.Keys (config pe))) now
  = (Some envelope, Some announcement, None) ->
  Crypto.MessageType envelope = Crypto.MessageTypeAnnounce ->
  handleMessage pe data remoteAddr now entropy
  = (pe, [LogValidMessage Crypto.MessageTypeAnnounce
            (UDPAddr_String (Some remoteAddr));
          LogUnknownMessageType Crypto.MessageTypeAnnounce]).
Proof.
  intros Hopen Htype.
  rewrite (handleMessage_other_type pe data remoteAddr now entropy envelope
             announcement Hopen);
    rewrite Htype; [reflexivity | discriminate | discriminate].
Qed.

End Exchange.

(** C8 fails on the code. A receives on its gossip port a valid ANNOUNCE
    sealed by B thirty seconds ago: the listener logs an unknown message
    type, B does not enter the peer store, and nothing is sent. *)
Lemma exchange_drops_announce_witness :
  Discovery.handleMessage (lib := TestVectors.lib) TestVectors.exchangeA
    (TestVectors.packet Crypto.MessageTypeAnnounce TestVectors.fresh)
    TestVectors.addrB TestVectors.now (Some TestVectors.nonce)
  = (TestVectors.exchangeA,
     [Discovery.LogValidMessage "ANNOUNCE" "198.51.100.7:52592";
      Discovery.LogUnknownMessageType "ANNOUNCE"])
  /\ Discovery.peerStore TestVectors.exchangeA !! "pubkey-of-B" = None.
Proof.
  split; [| reflexivity].
  apply (exchange_drops_announce (lib := TestVectors.lib) TestVectors.exchangeA
           (TestVectors.packet Crypto.MessageTypeAnnounce TestVectors.fresh)
           TestVectors.addrB TestVectors.now (Some TestVectors.nonce)
           (TestVectors.envelope Crypto.MessageTypeAnnounce TestVectors.fresh)
           TestVectors.fresh).
  - vm_compute. reflexivity.
  - reflexivity.
Defined.

(** The LAN listener, given the same packet, stores B. *)
Example lan_merges_announce :
  Discovery.lanReceive (lib := TestVectors.lib) TestVectors.nodeA
    TestVectors.key ∅
    (TestVectors.packet Crypto.MessageTypeAnnounce TestVectors.fresh)
    TestVectors.addrB TestVectors.now !! "pubkey-of-B"
  = Some (Daemon.mkPeerInfo "pubkey-of-B" "10.7.0.9" "198.51.100.7:51820" []
            TestVectors.now ["lan"] None).
Proof. vm_compute. reflexivity. Qed.

(** ** Host and port of an endpoint *)

Section HostPort.
Import GoStrings GoNet Notions.
Local Open Scope string_scope.

Local Notation "'nob' s c" := (contains_byte s c = false) (at level 10, s at level 9, c at level 9, only parsing).

Lemma contains_byte_cons (a c : ascii) (s : string) :
  contains_byte (String a s) c = Ascii.eqb a c || contains_byte s c.
Proof.
  unfold contains_byte. cbn [IndexByte].
  destruct (Ascii.eqb a c); [reflexivity |].
  destruct (IndexByte s c); reflexivity.
Qed.

Lemma contains_byte_app (a b : string) (c : ascii) :
  contains_byte (a ++ b) c = contains_byte a c || contains_byte b c.
Proof.
  induction a as [| x a IH]; [reflexivity |].
  change (String x a ++ b) with (String x (a ++ b)).
  rewrite !contains_byte_cons, IH, orb_assoc. reflexivity.
Qed.

Lemma append_cons (x : ascii) (a b : string) :
  String x a ++ b = String x (a ++ b).
Proof. reflexivity. Qed.

Lemma append_nil_l (b : string) : "" ++ b = b.
Proof. reflexivity. Qed.

Lemma take_app_length (a b : string) : take (String.length a) (a ++ b) = a.
Proof.
  induction a as [| x a IH]; [reflexivity |].
  rewrite append_cons. cbn [String.length take]. rewrite IH. reflexivity.
Qed.

Lemma drop_app_length (a b : string) : drop (String.length a) (a ++ b) = b.
Proof.
  induction a as [| x a IH]; [destruct b; reflexivity |].
  rewrite append_cons. cbn [String.length drop]. exact IH.
Qed.

Lemma length_append (a b : string) :
  String.length (a ++ b) = (String.length a + String.length b)%nat.
Proof.
  induction a as [| x a IH]; [reflexivity |].
  rewrite append_cons. cbn [String.length]. rewrite IH. reflexivity.
Qed.

Lemma IndexByte_None (s : string) (c : ascii) : IndexByte s c = None <-> nob s c.
Proof. unfold contains_byte. destruct (IndexByte s c); split; congruence. Qed.

Lemma IndexByte_app_first (a b : string) (c : ascii) :
  nob a c -> IndexByte (a ++ String c b) c = Some (String.length a).
Proof.
  induction a as [| x a IH].
  - intros _. rewrite append_nil_l. cbn [IndexByte String.length].
    rewrite Ascii.eqb_refl. reflexivity.
  - rewrite contains_byte_cons, append_cons. intros [Hx Ha]%orb_false_elim.
    cbn [IndexByte String.length]. rewrite Hx, IH by exact Ha. reflexivity.
Qed.

Lemma LastIndexByte_None (s : string) (c : ascii) :
  LastIndexByte s c = None <-> nob s c.
Proof.
  induction s as [| x s IH]; [split; reflexivity |].
  cbn [LastIndexByte]. rewrite contains_byte_cons.
  destruct (LastIndexByte s c) as [i |].
  - split; [discriminate |]. intros [_ Hs]%orb_false_elim.
    apply IH in Hs. discriminate.
  - destruct (Ascii.eqb x c); [split; discriminate |].
    split; [| reflexivity]. intros _. apply IH. reflexivity.
Qed.

Lemma LastIndexByte_app_last (a b : string) (c : ascii) :
  nob b c -> LastIndexByte (a ++ String c b) c = Some (String.length a).
Proof.
  intros Hb. apply LastIndexByte_None in Hb.
  induction a as [| x a IH].
  - rewrite append_nil_l. cbn [LastIndexByte String.length].
    rewrite Hb, Ascii.eqb_refl. reflexivity.
  - rewrite append_cons. cbn [LastIndexByte String.length].
    rewrite IH. reflexivity.
Qed.

Lemma IndexByte_split (s : string) (c : ascii) (i : nat) :
  IndexByte s c = Some i ->
  exists a b, s = a ++ String c b /\ String.length a = i /\ nob a c.
Proof.
  revert i. induction s as [| x s IH]; intros i; cbn [IndexByte]; [discriminate |].
  destruct (Ascii.eqb_spec x c) as [-> | Hne].
  - intros [= <-]. exists "", s. auto.
  - destruct (IndexByte s c) as [j |] eqn:Hj; [| discriminate].
    intros [= <-]. destruct (IH j eq_refl) as (a & b & -> & <- & Ha).
    exists (String x a), b. split; [reflexivity |]. split; [reflexivity |].
    rewrite contains_byte_cons, Ha. apply Ascii.eqb_neq in Hne. rewrite Hne.
    reflexivity.
Qed.

Lemma LastIndexByte_split (s : string) (c : ascii) (i : nat) :
  LastIndexByte s c = Some i ->
  exists a b, s = a ++ String c b /\ String.length a = i /\ nob b c.
Proof.
  revert i. induction s as [| x s IH]; intros i; cbn [LastIndexByte];
    [discriminate |].
  destruct (LastIndexByte s c) as [j |] eqn:Hj.
  - intros [= <-]. destruct (IH j eq_refl) as (a & b & -> & <- & Hb).
    exists (String x a), b. auto.
  - destruct (Ascii.eqb_spec x c) as [-> | Hne]; [| discriminate].
    intros [= <-]. exists "", s. split; [reflexivity |]. split; [reflexivity |].
    apply LastIndexByte_None. exact Hj.
Qed.

Lemma append_assoc (a b c : string) : (a ++ b) ++ c = a ++ (b ++ c).
Proof.
  induction a as [| x a IH]; [reflexivity |].
  rewrite !append_cons, IH. reflexivity.
Qed.

Lemma drop_S_app (a b : string) (c : ascii) :
  drop (S (String.length a)) (a ++ String c b) = b.
Proof.
  induction a as [| x a IH]; [reflexivity |].
  rewrite append_cons. cbn [String.length drop]. exact IH.
Qed.

Lemma drop_SS_app (a b : string) (c d : ascii) :
  drop (S (S (String.length a))) (a ++ String c (String d b)) = b.
Proof.
  induction a as [| x a IH]; [reflexivity |].
  rewrite append_cons. cbn [String.length drop]. exact IH.
Qed.

Lemma firstByteIs_contains (s : string) (c : ascii) :
  firstByteIs s c = true -> contains_byte s c = true.
Proof.
  destruct s as [| x s]; [discriminate |]. cbn [firstByteIs].
  rewrite contains_byte_cons. intros ->. reflexivity.
Qed.

Lemma LastIndexByte_lt (s : string) (c : ascii) (i : nat) :
  LastIndexByte s c = Some i -> (i < String.length s)%nat.
Proof.
  intros (a & b & -> & <- & _)%LastIndexByte_split.
  rewrite length_append. cbn [String.length]. lia.
Qed.

Example SplitHostPort_wildcard :
  GoNet.SplitHostPort "0.0.0.0:51820" = Some ("0.0.0.0", "51820").
Proof. reflexivity. Qed.
Example SplitHostPort_v6 :
  GoNet.SplitHostPort "[::]:51820" = Some ("::", "51820").
Proof. reflexivity. Qed.
Example SplitHostPort_bad :
  GoNet.SplitHostPort ":::51820" = None /\ GoNet.SplitHostPort "[::]51820" = None
  /\ GoNet.SplitHostPort "[::]:51:820" = None /\ GoNet.SplitHostPort "a[b:c" = None
  /\ GoNet.SplitHostPort "[a]b]:c" = None /\ GoNet.SplitHostPort "[a]:c]" = None
  /\ GoNet.SplitHostPort ":80" = Some ("", "80") /\ GoNet.SplitHostPort "[1.2.3.4]:80" = Some ("1.2.3.4", "80")
  /\ GoNet.SplitHostPort "host" = None /\ GoNet.SplitHostPort "" = None.
Proof. repeat split; reflexivity. Qed.

Lemma SplitHostPort_plain (h p : string) :
  plainSyntax h p -> SplitHostPort (h ++ String ":" p) = Some (h, p).
Proof.
  intros (Hhc & Hho & Hhe & Hpc & Hpo & Hpe). unfold SplitHostPort.
  rewrite LastIndexByte_app_last by exact Hpc.
  assert (Hopen : nob (h ++ String ":" p) "[").
  { rewrite contains_byte_app, contains_byte_cons, Hho, Hpo. reflexivity. }
  assert (Hclose : nob (h ++ String ":" p) "]").
  { rewrite contains_byte_app, contains_byte_cons, Hhe, Hpe. reflexivity. }
  destruct (firstByteIs (h ++ String ":" p) "[") eqn:Hfirst.
  { apply firstByteIs_contains in Hfirst. congruence. }
  rewrite take_app_length, Hhc. cbn [drop]. rewrite Hopen, Hclose.
  rewrite Nat.add_1_r, drop_S_app. reflexivity.
Qed.

Lemma SplitHostPort_bracket (h p : string) :
  bracketSyntax h p ->
  SplitHostPort (String "[" (h ++ String "]" (String ":" p))) = Some (h, p).
Proof.
  intros (Hho & Hhe & Hpc & Hpo & Hpe).
  set (s := String "[" (h ++ String "]" (String ":" p))).
  assert (Hlast : LastIndexByte s ":" = Some (S (S (String.length h)))).
  { unfold s. cbn [LastIndexByte].
    replace (h ++ String "]" (String ":" p)) with ((h ++ "]") ++ String ":" p)
      by (rewrite append_assoc; reflexivity).
    rewrite LastIndexByte_app_last by exact Hpc.
    rewrite length_append, Nat.add_1_r. reflexivity. }
  assert (Hidx : IndexByte s "]" = Some (S (String.length h))).
  { unfold s. cbn [IndexByte]. change (Ascii.eqb "[" "]") with false. cbv iota.
    rewrite IndexByte_app_first by exact Hhe. reflexivity. }
  assert (Hlen : String.length s = S (S (S (String.length h + String.length p)))).
  { unfold s. cbn [String.length]. rewrite length_append.
    cbn [String.length]. lia. }
  assert (Htake : take (S (String.length h)) s = String "[" h).
  { unfold s. cbn [take]. rewrite take_app_length. reflexivity. }
  assert (Hrest : drop 1 s = h ++ String "]" (String ":" p)) by reflexivity.
  assert (Htail : drop (S (S (String.length h))) s = String ":" p).
  { unfold s. cbn [drop]. apply drop_S_app. }
  assert (Hport : drop (S (S (S (String.length h)))) s = p).
  { unfold s. cbn [drop]. apply drop_SS_app. }
  unfold SplitHostPort. rewrite Hlast.
  change (firstByteIs s "[") with true. cbv iota.
  rewrite Hidx, !Nat.add_1_r, Hlen, Nat.eqb_refl.
  destruct (Nat.eqb_spec (S (S (String.length h)))
              (S (S (S (String.length h + String.length p))))); [lia |].
  cbv beta iota zeta. rewrite Htake, Hrest, Htail, Hport.
  cbn [drop]. rewrite contains_byte_app, !contains_byte_cons, Hho, Hpo, Hpe.
  reflexivity.
Qed.

Lemma take_S_app (a b : string) (c : ascii) :
  take (S (String.length a)) (a ++ String c b) = a ++ String c "".
Proof.
  induction a as [| x a IH]; [reflexivity |].
  rewrite !append_cons.
  change (take (S (String.length (String x a))) (String x (a ++ String c b)))
    with (String x (take (S (String.length a)) (a ++ String c b))).
  rewrite IH. reflexivity.
Qed.

(** [SplitHostPort] accepts nothing else. *)
Lemma SplitHostPort_inv (s h p : string) :
  SplitHostPort s = Some (h, p) ->
  (plainSyntax h p /\ s = h ++ String ":" p)
  \/ (bracketSyntax h p /\ s = String "[" (h ++ String "]" (String ":" p))).
Proof.
  unfold SplitHostPort.
  destruct (LastIndexByte s ":") as [i |] eqn:Hlast; [| discriminate].
  destruct (LastIndexByte_split _ _ _ Hlast) as (a & b & -> & <- & Hb).
  destruct (firstByteIs (a ++ String ":" b) "[") eqn:Hfirst.
  - destruct (IndexByte (a ++ String ":" b) "]") as [e |] eqn:Hidx;
      [| discriminate].
    destruct (e + 1 =? String.length (a ++ String ":" b))%nat; [discriminate |].
    destruct (Nat.eqb_spec (e + 1) (String.length a)) as [He |]; [| discriminate].
    cbv beta iota zeta.
    destruct (IndexByte_split _ _ _ Hidx) as (a' & b' & Hs & <- & Ha').
    rewrite Nat.add_1_r in He.
    assert (Ha : a = a' ++ "]").
    { rewrite <- (take_app_length a (String ":" b)), <- He, Hs.
      apply take_S_app. }
    destruct a' as [| x h']; [subst a; discriminate |].
    assert (x = "["%char) as ->.
    { subst a. rewrite !append_cons in Hfirst. cbn [firstByteIs] in Hfirst.
      apply Ascii.eqb_eq in Hfirst. exact Hfirst. }
    rewrite contains_byte_cons in Ha'. apply orb_false_elim in Ha' as [_ Hhe].
    subst a. clear Hs He Hidx Hlast Hfirst b'.
    replace (take (String.length (String "[" h'))
               ((String "[" h' ++ "]") ++ String ":" b))
      with (String "[" h')
      by (rewrite append_assoc; symmetry; apply take_app_length).
    replace (drop (String.length (String "[" h') + 1)
               ((String "[" h' ++ "]") ++ String ":" b))
      with (String ":" b)
      by (rewrite Nat.add_1_r, append_assoc; symmetry; apply drop_S_app).
    replace (drop (String.length (String "[" h' ++ "]") + 1)
               ((String "[" h' ++ "]") ++ String ":" b))
      with b
      by (rewrite Nat.add_1_r; symmetry; apply drop_S_app).
    rewrite append_assoc, !append_cons, append_nil_l. cbn [drop].
    rewrite contains_byte_app, !contains_byte_cons.
    change (Ascii.eqb "]" "[") with false. change (Ascii.eqb ":" "[") with false.
    change (Ascii.eqb ":" "]") with false. cbn [orb].
    destruct (contains_byte h' "[") eqn:Hho; [discriminate |].
    destruct (contains_byte b "[") eqn:Hpo; [discriminate |].
    destruct (contains_byte b "]") eqn:Hpe; [discriminate |].
    cbn [orb]. intros [= <- <-]. right. split; [| reflexivity].
    repeat split; assumption.
  - cbv beta iota zeta. rewrite take_app_length.
    destruct (contains_byte a ":") eqn:Hhc; [discriminate |].
    cbn [drop]. rewrite !contains_byte_app, !contains_byte_cons.
    change (Ascii.eqb ":" "[") with false. change (Ascii.eqb ":" "]") with false.
    cbn [orb].
    destruct (contains_byte a "[") eqn:Hho; [discriminate |].
    destruct (contains_byte b "[") eqn:Hpo; [discriminate |].
    destruct (contains_byte a "]") eqn:Hhe; [discriminate |].
    destruct (contains_byte b "]") eqn:Hpe; [discriminate |].
    cbn [orb]. rewrite Nat.add_1_r, drop_S_app.
    intros [= <- <-]. left. split; [| reflexivity].
    repeat split; assumption.
Qed.

(** [JoinHostPort] writes what [SplitHostPort] reads back as the same host
    and port. *)
Lemma Split_Join (h p : string) :
  bracketSyntax h p -> SplitHostPort (JoinHostPort h p) = Some (h, p).
Proof.
  intros Hsyn. unfold JoinHostPort.
  destruct (contains_byte h ":") eqn:Hhc.
  - apply (SplitHostPort_bracket h p Hsyn).
  - apply SplitHostPort_plain. destruct Hsyn as (? & ? & ? & ? & ?).
    repeat split; assumption.
Qed.

Lemma SplitHostPort_syntax (s h p : string) :
  SplitHostPort s = Some (h, p) -> bracketSyntax h p.
Proof.
  intros [[(? & ? & ? & ? & ? & ?) _] | [Hsyn _]]%SplitHostPort_inv;
    [repeat split; assumption | exact Hsyn].
Qed.

(** Joining the parts of an endpoint gives the endpoint back, unless it was
    written with brackets around a host without colon. *)
Lemma Join_Split (s h p : string) :
  SplitHostPort s = Some (h, p) ->
  firstByteIs s "[" = false \/ contains_byte h ":" = true ->
  JoinHostPort h p = s.
Proof.
  intros [[(Hhc & _) ->] | [_ ->]]%SplitHostPort_inv Hcanon; unfold JoinHostPort.
  - rewrite Hhc. reflexivity.
  - destruct Hcanon as [Hfirst | ->]; [discriminate | reflexivity].
Qed.

Lemma JoinHostPort_nonempty (h p : string) : JoinHostPort h p <> "".
Proof.
  unfold JoinHostPort. destruct (contains_byte h ":"); [discriminate |].
  destruct h; discriminate.
Qed.

Lemma JoinHostPort_v4 (h p : string) :
  contains_byte h ":" = false -> JoinHostPort h p = h ++ String ":" p.
Proof. unfold JoinHostPort. intros ->. reflexivity. Qed.

End HostPort.

(** ** Endpoint reflection *)

Section Reflection.
Import GoTime GoStrings GoNet Discovery Daemon Notions.

(** A non-empty endpoint handed to [Update] is the endpoint stored, on
    insertion as on merge. *)
Lemma Update_stores_endpoint (ps : PeerStore) (info : PeerInfo) (m : string)
    (now : Time) :
  Endpoint info <> "" ->
  storedEndpoint (Update ps info m now) (WGPubKey info) = Some (Endpoint info).
Proof.
  intros Hne. unfold storedEndpoint.
  rewrite Update_afterUpdate, lookup_insert_eq. cbn [fmap option_fmap option_map].
  f_equal. destruct (ps !! WGPubKey info) as [e |]; cbn [afterUpdate]; [| reflexivity].
  cbn [mergePeer Endpoint].
  destruct (String.eqb_spec (Endpoint info) ""); [contradiction | reflexivity].
Qed.

Lemma resolvePeerEndpoint_unspecified (advertised host port x : string)
    (sender : UDPAddr) :
  SplitHostPort advertised = Some (host, port) ->
  unspecifiedHost host = true -> IP sender = Some x -> x <> "" ->
  resolvePeerEndpoint advertised (Some sender) = JoinHostPort x port.
Proof.
  intros Hsplit Hwild Hip Hx. unfold resolvePeerEndpoint.
  rewrite Hsplit, Hwild. cbn [senderIP]. rewrite Hip.
  destruct (String.eqb_spec x ""); [contradiction | reflexivity].
Qed.

Lemma resolveEndpoint_unspecified (advertised host port x : string)
    (sender : UDPAddr) :
  SplitHostPort advertised = Some (host, port) ->
  unspecifiedHost host = true -> IP sender = Some x ->
  resolveEndpoint advertised (Some sender) = JoinHostPort x port.
Proof.
  intros Hsplit Hwild Hip. unfold resolveEndpoint.
  rewrite Hsplit, Hwild. cbn [senderIP]. rewrite Hip. reflexivity.
Qed.

Lemma resolvePeerEndpoint_concrete (advertised host port : string)
    (sender : option UDPAddr) :
  SplitHostPort advertised = Some (host, port) ->
  unspecifiedHost host = false ->
  resolvePeerEndpoint advertised sender = JoinHostPort host port.
Proof.
  intros Hsplit Hwild. unfold resolvePeerEndpoint. rewrite Hsplit, Hwild.
  destruct (String.eqb_spec host "") as [-> | _]; [discriminate | reflexivity].
Qed.

Lemma resolveEndpoint_concrete (advertised host port : string)
    (sender : option UDPAddr) :
  SplitHostPort advertised = Some (host, port) ->
  unspecifiedHost host = false ->
  resolveEndpoint advertised sender = advertised.
Proof.
  intros Hsplit Hwild. unfold resolveEndpoint. rewrite Hsplit, Hwild.
  reflexivity.
Qed.

Lemma SplitHostPort_nonempty (s h p : string) :
  SplitHostPort s = Some (h, p) -> s <> "".
Proof. intros Hsplit ->. discriminate. Qed.

(** An endpoint that does not split into host and port is replaced by the
    source address and the default WireGuard port. *)
Lemma resolvePeerEndpoint_unparsed (advertised x : string) (sender : UDPAddr) :
  SplitHostPort advertised = None -> IP sender = Some x ->
  resolvePeerEndpoint advertised (Some sender) = JoinHostPort x "51820".
Proof.
  intros Hsplit Hip. unfold resolvePeerEndpoint. rewrite Hsplit.
  cbn [senderIP]. rewrite Hip. reflexivity.
Qed.

Lemma resolveEndpoint_unparsed (advertised x : string) (sender : UDPAddr) :
  SplitHostPort advertised = None -> IP sender = Some x ->
  resolveEndpoint advertised (Some sender) = JoinHostPort x "51820".
Proof.
  intros Hsplit Hip. unfold resolveEndpoint. rewrite Hsplit.
  cbn [senderIP]. rewrite Hip. reflexivity.
Qed.

(** T7 as written: ["0.0.0.0:P"] from the IPv4 source [x] becomes [x:P]. *)
Lemma reflection_of_wildcard_v4 (port x : string) (sender : UDPAddr) :
  contains_byte port ":" = false ->
  contains_byte port "[" = false ->
  contains_byte port "]" = false ->
  IP sender = Some x -> x <> "" -> contains_byte x ":" = false ->
  resolvePeerEndpoint ("0.0.0.0:" +:+ port) (Some sender) = x +:+ ":" +:+ port
  /\ resolveEndpoint ("0.0.0.0:" +:+ port) (Some sender) = x +:+ ":" +:+ port.
Proof.
  intros Hpc Hpo Hpe Hip Hx Hxc.
  assert (Hsplit : SplitHostPort ("0.0.0.0:" +:+ port) = Some ("0.0.0.0", port)).
  { apply (SplitHostPort_plain "0.0.0.0" port). repeat split; try assumption;
      reflexivity. }
  rewrite (resolvePeerEndpoint_unspecified _ _ _ _ _ Hsplit eq_refl Hip Hx).
  rewrite (resolveEndpoint_unspecified _ _ _ _ _ Hsplit eq_refl Hip).
  rewrite (JoinHostPort_v4 _ _ Hxc). split; reflexivity.
Qed.

(** The exchange re-joins host and port; an endpoint written
    ["[192.0.2.1]:51820"] is stored as ["192.0.2.1:51820"]. *)
Example resolvePeerEndpoint_rewrites_brackets :
  resolvePeerEndpoint "[192.0.2.1]:51820" (Some TestVectors.addrB)
  = "192.0.2.1:51820"
  /\ resolveEndpoint "[192.0.2.1]:51820" (Some TestVectors.addrB)
     = "[192.0.2.1]:51820".
Proof. split; reflexivity. Qed.

(** An IPv6 source is written in brackets. *)
Example resolvePeerEndpoint_v6_source :
  resolvePeerEndpoint "0.0.0.0:51820"
    (Some (mkUDPAddr (Some "2001:db8::7") 52592 ""))
  = "[2001:db8::7]:51820".
Proof. reflexivity. Qed.

End Reflection.

(** ** Reflection on the receive paths *)

Section ReceivePaths.
Context `{lib : Crypto.GoLib}.
Import GoTime GoStrings GoNet Discovery Daemon Notions.

(** The LAN listener stores an accepted announcement of another node with
    the resolved endpoint. *)
Lemma lanReceive_stores (local : Discovery.LocalNode) (key data : list byte)
    (ps : PeerStore) (sender : UDPAddr) (now : Time)
    (env : option Crypto.Envelope) (ann : Crypto.PeerAnnouncement) :
  Crypto.OpenEnvelope data key now = (env, Some ann, None) ->
  Crypto.WGPubKey ann <> Discovery.WGPubKey local ->
  resolveEndpoint (Crypto.WGEndpoint ann) (Some sender) <> "" ->
  storedEndpoint (lanReceive local key ps data sender now) (Crypto.WGPubKey ann)
  = Some (resolveEndpoint (Crypto.WGEndpoint ann) (Some sender)).
Proof.
  intros Hopen Hother Hne. unfold lanReceive. rewrite Hopen.
  destruct (String.eqb_spec (Crypto.WGPubKey ann) (Discovery.WGPubKey local));
    [contradiction |].
  apply (Update_stores_endpoint ps (newPeerInfo (Crypto.WGPubKey ann) _ _ _)).
  exact Hne.
Qed.

(** Merging the known peers of a message leaves alone every entry whose key
    they do not mention. *)
Lemma updateTransitivePeers_other (pe : PeerExchange)
    (knownPeers : list Crypto.KnownPeer) (now : Time) (k : string) :
  (forall kp, kp ∈ knownPeers -> Crypto.kp_WGPubKey kp <> k) ->
  Discovery.peerStore (updateTransitivePeers pe knownPeers now) !! k
  = Discovery.peerStore pe !! k.
Proof.
  unfold updateTransitivePeers. cbn [withStore Discovery.peerStore].
  set (local := Discovery.WGPubKey (Discovery.localNode pe)).
  generalize (Discovery.peerStore pe) as ps.
  induction knownPeers as [| kp kps IH]; intros ps Hother; cbn [foldl];
    [reflexivity |].
  rewrite IH by (intros kp' Hkp'; apply Hother, list_elem_of_further, Hkp').
  destruct (String.eqb (Crypto.kp_WGPubKey kp) local); [reflexivity |].
  rewrite Update_afterUpdate, lookup_insert_ne; [reflexivity |].
  cbn [newPeerInfo WGPubKey]. apply Hother, list_elem_of_here.
Qed.

(** The peer exchange stores the sender of a HELLO with the resolved
    endpoint, and the entry survives the merge of the sender's known peers
    when they do not list the sender itself. *)
Lemma handleHello_stores (pe : PeerExchange) (ann : Crypto.PeerAnnouncement)
    (sender : UDPAddr) (now : Time) (entropy : option (list byte)) :
  Crypto.WGPubKey ann <> Discovery.WGPubKey (Discovery.localNode pe) ->
  (forall kp, kp ∈ Crypto.KnownPeers ann ->
              Crypto.kp_WGPubKey kp <> Crypto.WGPubKey ann) ->
  resolvePeerEndpoint (Crypto.WGEndpoint ann) (Some sender) <> "" ->
  storedEndpoint
    (Discovery.peerStore (handleHello pe ann sender now entropy).1)
    (Crypto.WGPubKey ann)
  = Some (resolvePeerEndpoint (Crypto.WGEndpoint ann) (Some sender)).
Proof.
  intros Hother Hknown Hne. unfold handleHello.
  destruct (String.eqb_spec (Crypto.WGPubKey ann)
              (Discovery.WGPubKey (Discovery.localNode pe))); [contradiction |].
  cbv zeta.
  assert (Hstore :
    storedEndpoint
      (Discovery.peerStore
         (updateTransitivePeers
            (withStore pe
               (Update (Discovery.peerStore pe)
                  (newPeerInfo (Crypto.WGPubKey ann) (Crypto.MeshIP ann)
                     (resolvePeerEndpoint (Crypto.WGEndpoint ann) (Some sender))
                     (Crypto.RoutableNetworks ann))
                  DHTMethod now))
            (Crypto.KnownPeers ann) now))
      (Crypto.WGPubKey ann)
    = Some (resolvePeerEndpoint (Crypto.WGEndpoint ann) (Some sender))).
  { unfold storedEndpoint. rewrite updateTransitivePeers_other by exact Hknown.
    cbn [withStore Discovery.peerStore].
    apply (Update_stores_endpoint (Discovery.peerStore pe)
             (newPeerInfo (Crypto.WGPubKey ann) _ _ _)), Hne. }
  destruct (sendReply _ sender now entropy).2; exact Hstore.
Qed.

(** Merging the known peers of a message touches neither the socket nor
    the exchanges in flight. *)
Lemma updateTransitivePeers_pending (pe : PeerExchange)
    (knownPeers : list Crypto.KnownPeer) (now : Time) :
  pendingReplies (updateTransitivePeers pe knownPeers now) = pendingReplies pe.
Proof. reflexivity. Qed.

(** A REPLY that no exchange awaits is stored with the resolved endpoint,
    whatever its known peers say of the sender: they are merged first. *)
Lemma handleReply_stores (pe : PeerExchange) (reply : Crypto.PeerAnnouncement)
    (sender : UDPAddr) (now : Time) :
  pendingReplies pe !! UDPAddr_String (Some sender) = None ->
  resolvePeerEndpoint (Crypto.WGEndpoint reply) (Some sender) <> "" ->
  storedEndpoint (Discovery.peerStore (handleReply pe reply sender now).1)
    (Crypto.WGPubKey reply)
  = Some (resolvePeerEndpoint (Crypto.WGEndpoint reply) (Some sender)).
Proof.
  intros Hnone Hne. unfold handleReply. cbv zeta.
  rewrite updateTransitivePeers_pending, Hnone.
  cbn [fst withStore Discovery.peerStore].
  apply (Update_stores_endpoint _ (newPeerInfo (Crypto.WGPubKey reply) _ _ _)),
    Hne.
Qed.

(** A REPLY that an exchange awaits is handed to it, with the resolved
    endpoint, when the channel has room. *)
Lemma handleReply_hands (pe : PeerExchange) (reply : Crypto.PeerAnnouncement)
    (sender : UDPAddr) (now : Time) :
  pendingReplies pe !! UDPAddr_String (Some sender) = Some [] ->
  pendingReplies (handleReply pe reply sender now).1
    !! UDPAddr_String (Some sender)
  = Some [newPeerInfo (Crypto.WGPubKey reply) (Crypto.MeshIP reply)
            (resolvePeerEndpoint (Crypto.WGEndpoint reply) (Some sender))
            (Crypto.RoutableNetworks reply)].
Proof.
  intros Hroom. unfold handleReply. cbv zeta.
  rewrite updateTransitivePeers_pending, Hroom.
  cbn [fst length Nat.ltb Nat.leb pendingReplies app].
  apply lookup_insert_eq.
Qed.

(** [handleMessage] on a packet that opens as a HELLO or as a REPLY. *)
Lemma handleMessage_hello (pe : PeerExchange) (data : list byte)
    (sender : UDPAddr) (now : Time) (entropy : option (list byte))
    (env : Crypto.Envelope) (ann : Crypto.PeerAnnouncement) :
  Crypto.OpenEnvelope data (Crypto.GossipKey (Keys (Discovery.config pe))) now
  = (Some env, Some ann, None) ->
  Crypto.MessageType env = Crypto.MessageTypeHello ->
  (handleMessage pe data sender now entropy).1
  = (handleHello pe ann sender now entropy).1.
Proof.
  intros Hopen Htype. unfold handleMessage. rewrite Hopen, Htype.
  reflexivity.
Qed.

Lemma handleMessage_reply (pe : PeerExchange) (data : list byte)
    (sender : UDPAddr) (now : Time) (entropy : option (list byte))
    (env : Crypto.Envelope) (ann : Crypto.PeerAnnouncement) :
  Crypto.OpenEnvelope data (Crypto.GossipKey (Keys (Discovery.config pe))) now
  = (Some env, Some ann, None) ->
  Crypto.MessageType env = Crypto.MessageTypeReply ->
  (handleMessage pe data sender now entropy).1
  = (handleReply pe ann sender now).1.
Proof.
  intros Hopen Htype. unfold handleMessage. rewrite Hopen, Htype.
  reflexivity.
Qed.

(** What the two resolvers return, by the advertised endpoint. *)
Lemma resolved_endpoints (advertised x : string) (sender : UDPAddr) :
  IP sender = Some x -> x <> "" ->
  match SplitHostPort advertised with
  | Some (host, port) =>
    if unspecifiedHost host
    then resolveEndpoint advertised (Some sender) = JoinHostPort x port
         /\ resolvePeerEndpoint advertised (Some sender) = JoinHostPort x port
    else resolveEndpoint advertised (Some sender) = advertised
         /\ resolvePeerEndpoint advertised (Some sender)
            = JoinHostPort host port
  | None =>
    resolveEndpoint advertised (Some sender) = JoinHostPort x "51820"
    /\ resolvePeerEndpoint advertised (Some sender) = JoinHostPort x "51820"
  end
  /\ resolveEndpoint advertised (Some sender) <> ""
  /\ resolvePeerEndpoint advertised (Some sender) <> "".
Proof.
  intros Hip Hx.
  destruct (SplitHostPort advertised) as [[host port] |] eqn:Hsplit.
  - destruct (unspecifiedHost host) eqn:Hwild.
    + rewrite (resolveEndpoint_unspecified _ _ _ _ _ Hsplit Hwild Hip),
        (resolvePeerEndpoint_unspecified _ _ _ _ _ Hsplit Hwild Hip Hx).
      split; [split; reflexivity |].
      split; apply JoinHostPort_nonempty.
    + rewrite (resolveEndpoint_concrete _ _ _ _ Hsplit Hwild),
        (resolvePeerEndpoint_concrete _ _ _ _ Hsplit Hwild).
      split; [split; reflexivity |].
      split; [exact (SplitHostPort_nonempty _ _ _ Hsplit)
             | apply JoinHostPort_nonempty].
  - rewrite (resolveEndpoint_unparsed _ _ _ Hsplit Hip),
      (resolvePeerEndpoint_unparsed _ _ _ Hsplit Hip).
    split; [split; reflexivity |]. split; apply JoinHostPort_nonempty.
Qed.

(** C6, as the code has it. An accepted announcement arrives from the
    source address [x]. What the receive paths record as the endpoint of
    its sender depends on the endpoint advertised. If it splits into a host
    and a port and the host is empty, ["0.0.0.0"] or ["::"], the endpoint
    recorded is [x] joined with the advertised port. If the host is any
    other, the LAN listener records the advertised string and the peer
    exchange records host and port joined again. If the endpoint does not
    split, the endpoint recorded is [x] with port 51820. This holds of the
    entry the LAN listener stores for an announcement of another node, of
    the entry [handleMessage] stores for a HELLO of another node whose known
    peers do not list its sender, of the entry it stores for a REPLY that no
    exchange awaits, and of the record it hands to the exchange that awaits
    the REPLY. The joined endpoints read back as host and port: [x:port]
    letter for letter when [x] has no colon, and the advertised string
    itself unless that was written with brackets around a host without
    colon. *)
Theorem endpoint_reflection_on_receipt (ann : Crypto.PeerAnnouncement)
    (sender : UDPAddr) (x : string) (now : Time) :
  IP sender = Some x ->
  ipText x ->
  let advertised := Crypto.WGEndpoint ann in
  let who := Crypto.WGPubKey ann in
  let addr := UDPAddr_String (Some sender) in
  let recorded (viaLAN : bool) (endpoint : option string) : Prop :=
    match SplitHostPort advertised with
    | Some (host, port) =>
      if unspecifiedHost host then endpoint = Some (JoinHostPort x port)
      else if viaLAN then endpoint = Some advertised
      else endpoint = Some (JoinHostPort host port)
    | None => endpoint = Some (JoinHostPort x "51820")
    end in
  (forall local key data ps env,
      Crypto.OpenEnvelope data key now = (env, Some ann, None) ->
      who <> Discovery.WGPubKey local ->
      recorded true
        (storedEndpoint (lanReceive local key ps data sender now) who))
  /\ (forall pe data env entropy,
         Crypto.OpenEnvelope data
           (Crypto.GossipKey (Keys (Discovery.config pe))) now
         = (Some env, Some ann, None) ->
         Crypto.MessageType env = Crypto.MessageTypeHello ->
         who <> Discovery.WGPubKey (Discovery.localNode pe) ->
         (forall kp, kp ∈ Crypto.KnownPeers ann ->
                     Crypto.kp_WGPubKey kp <> who) ->
         recorded false
           (storedEndpoint
              (Discovery.peerStore
                 (handleMessage pe data sender now entropy).1) who))
  /\ (forall pe data env entropy,
         Crypto.OpenEnvelope data
           (Crypto.GossipKey (Keys (Discovery.config pe))) now
         = (Some env, Some ann, None) ->
         Crypto.MessageType env = Crypto.MessageTypeReply ->
         (pendingReplies pe !! addr = None ->
          recorded false
            (storedEndpoint
               (Discovery.peerStore
                  (handleMessage pe data sender now entropy).1) who))
         /\ (pendingReplies pe !! addr = Some [] ->
             exists info,
               pendingReplies (handleMessage pe data sender now entropy).1
                 !! addr = Some [info]
               /\ WGPubKey info = who
               /\ recorded false (Some (Endpoint info))))
  /\ (forall host port,
         SplitHostPort advertised = Some (host, port) ->
         SplitHostPort (JoinHostPort x port) = Some (x, port)
         /\ (contains_byte x ":" = false ->
             JoinHostPort x port = x +:+ ":" +:+ port)
         /\ SplitHostPort (JoinHostPort host port) = Some (host, port)
         /\ (firstByteIs advertised "[" = false \/ contains_byte host ":" = true ->
             JoinHostPort host port = advertised)).
Proof.
  intros Hip (Hx & Hxo & Hxe) advertised who addr recorded.
  destruct (resolved_endpoints advertised x sender Hip Hx)
    as (Hcases & Hlan & Hexch).
  assert (Hrec_lan :
    recorded true (Some (resolveEndpoint advertised (Some sender)))).
  { unfold recorded. destruct (SplitHostPort advertised) as [[host port] |];
      [destruct (unspecifiedHost host) |]; destruct Hcases as [-> _];
      reflexivity. }
  assert (Hrec_exch :
    recorded false (Some (resolvePeerEndpoint advertised (Some sender)))).
  { unfold recorded. destruct (SplitHostPort advertised) as [[host port] |];
      [destruct (unspecifiedHost host) |]; destruct Hcases as [_ ->];
      reflexivity. }
  clearbody recorded. clear Hcases. subst who addr advertised.
  split; [| split; [| split]].
  - intros local key data ps env Hopen Hother.
    rewrite (lanReceive_stores local key data ps sender now env ann Hopen
               Hother Hlan).
    exact Hrec_lan.
  - intros pe data env entropy Hopen Htype Hother Hknown.
    rewrite (handleMessage_hello pe data sender now entropy env ann Hopen Htype),
      (handleHello_stores pe ann sender now entropy Hother Hknown Hexch).
    exact Hrec_exch.
  - intros pe data env entropy Hopen Htype.
    rewrite (handleMessage_reply pe data sender now entropy env ann Hopen Htype).
    split.
    + intros Hnone.
      rewrite (handleReply_stores pe ann sender now Hnone Hexch).
      exact Hrec_exch.
    + intros Hroom. eexists. split; [| split].
      * apply (handleReply_hands pe ann sender now Hroom).
      * reflexivity.
      * exact Hrec_exch.
  - intros host port Hsplit.
    pose proof (SplitHostPort_syntax _ _ _ Hsplit)
      as (Hho & Hhe & Hpc & Hpo & Hpe).
    split; [apply Split_Join; repeat split; assumption |].
    split; [apply JoinHostPort_v4 |].
    split; [apply Split_Join; repeat split; assumption |].
    apply Join_Split. exact Hsplit.
Qed.

End ReceivePaths.

(** B advertises 0.0.0.0:51820 and is heard from 198.51.100.7, by the LAN
    listener of A and, in a HELLO, by its peer exchange. *)
Lemma endpoint_reflection_on_receipt_witness :
  Notions.storedEndpoint
    (Discovery.lanReceive (lib := TestVectors.lib) TestVectors.nodeA
       TestVectors.key ∅
       (TestVectors.packet Crypto.MessageTypeAnnounce TestVectors.fresh)
       TestVectors.addrB TestVectors.now)
    "pubkey-of-B"
  = Some "198.51.100.7:51820"
  /\ Notions.storedEndpoint
       (Discovery.peerStore
          (Discovery.handleMessage (lib := TestVectors.lib)
             TestVectors.exchangeA
             (TestVectors.packet Crypto.MessageTypeHello TestVectors.fresh)
             TestVectors.addrB TestVectors.now (Some TestVectors.nonce)).1)
       "pubkey-of-B"
     = Some "198.51.100.7:51820".
Proof.
  destruct (endpoint_reflection_on_receipt (lib := TestVectors.lib)
              TestVectors.fresh TestVectors.addrB "198.51.100.7"
              TestVectors.now)
    as (Hlan & Hhello & _).
  - reflexivity.
  - vm_compute. repeat split; congruence.
  - split.
    + apply (Hlan TestVectors.nodeA TestVectors.key
               (TestVectors.packet Crypto.MessageTypeAnnounce TestVectors.fresh)
               ∅
               (Some (TestVectors.envelope Crypto.MessageTypeAnnounce
                        TestVectors.fresh))).
      * vm_compute. reflexivity.
      * discriminate.
    + apply (Hhello TestVectors.exchangeA
               (TestVectors.packet Crypto.MessageTypeHello TestVectors.fresh)
               (TestVectors.envelope Crypto.MessageTypeHello TestVectors.fresh)
               (Some TestVectors.nonce)).
      * vm_compute. reflexivity.
      * reflexivity.
      * discriminate.
      * intros kp Hkp. apply elem_of_nil in Hkp. contradiction.
Defined.

(** C6 as stated fails for a concrete host. B advertises
    ["[192.0.2.1]:51820"], whose host 192.0.2.1 is none of the three
    wildcards: the peer exchange of A accepts the HELLO and stores
    ["192.0.2.1:51820"], not the advertised string. B advertises the host
    ["192.0.2.1"] without a port: the LAN listener of A accepts the
    announcement and stores the source address with port 51820. *)
Lemma concrete_endpoint_rewritten :
  let lib := TestVectors.libOf [TestVectors.bracketed; TestVectors.bare] in
  let viaExchange :=
    Discovery.handleMessage (lib := lib) TestVectors.exchangeA
      (TestVectors.packet Crypto.MessageTypeHello TestVectors.bracketed)
      TestVectors.addrB TestVectors.now (Some TestVectors.nonce) in
  let viaLAN :=
    Discovery.lanReceive (lib := lib) TestVectors.nodeA TestVectors.key ∅
      (TestVectors.packet Crypto.MessageTypeAnnounce TestVectors.bare)
      TestVectors.addrB TestVectors.now in
  Crypto.OpenEnvelope (lib := lib)
    (TestVectors.packet Crypto.MessageTypeHello TestVectors.bracketed)
    TestVectors.key TestVectors.now
  = (Some (TestVectors.envelope Crypto.MessageTypeHello TestVectors.bracketed),
     Some TestVectors.bracketed, None)
  /\ GoNet.SplitHostPort (Crypto.WGEndpoint TestVectors.bracketed)
     = Some ("192.0.2.1", "51820")
  /\ Discovery.unspecifiedHost "192.0.2.1" = false
  /\ Notions.storedEndpoint (Discovery.peerStore viaExchange.1) "pubkey-of-B"
     = Some "192.0.2.1:51820"
  /\ Notions.storedEndpoint (Discovery.peerStore viaExchange.1) "pubkey-of-B"
     <> Some (Crypto.WGEndpoint TestVectors.bracketed)
  /\ Crypto.OpenEnvelope (lib := lib)
       (TestVectors.packet Crypto.MessageTypeAnnounce TestVectors.bare)
       TestVectors.key TestVectors.now
     = (Some (TestVectors.envelope Crypto.MessageTypeAnnounce TestVectors.bare),
        Some TestVectors.bare, None)
  /\ Crypto.WGEndpoint TestVectors.bare = "192.0.2.1"
  /\ Notions.storedEndpoint viaLAN "pubkey-of-B" = Some "198.51.100.7:51820"
  /\ Notions.storedEndpoint viaLAN "pubkey-of-B"
     <> Some (Crypto.WGEndpoint TestVectors.bare).
Proof.
  cbv zeta. split; [vm_compute; reflexivity |].
  split; [vm_compute; reflexivity |].
  split; [reflexivity |].
  split; [vm_compute; reflexivity |].
  split; [vm_compute; discriminate |].
  split; [vm_compute; reflexivity |].
  split; [reflexivity |].
  split; [vm_compute; reflexivity |].
  vm_compute. discriminate.
Qed.

(** A HELLO whose known peers list its own sender is outside the theorem.
    [handleHello] merges the known peers after it stored the sender, so the
    entry of B, heard from 198.51.100.7, ends with the wildcard endpoint B
    advertised. [handleReply] merges the known peers first, and the same
    announcement sent as a REPLY is stored with the reflected endpoint. *)
Example hello_listing_its_sender :
  let lib := TestVectors.libOf [TestVectors.selfListed] in
  Notions.storedEndpoint
    (Discovery.peerStore
       (Discovery.handleMessage (lib := lib) TestVectors.exchangeA
          (TestVectors.packet Crypto.MessageTypeHello TestVectors.selfListed)
          TestVectors.addrB TestVectors.now (Some TestVectors.nonce)).1)
    "pubkey-of-B"
  = Some "0.0.0.0:51820"
  /\ Notions.storedEndpoint
       (Discovery.peerStore
          (Discovery.handleMessage (lib := lib) TestVectors.exchangeA
             (TestVectors.packet Crypto.MessageTypeReply TestVectors.selfListed)
             TestVectors.addrB TestVectors.now (Some TestVectors.nonce)).1)
       "pubkey-of-B"
     = Some "198.51.100.7:51820".
Proof. vm_compute. split; reflexivity. Qed.

(** ** The peer store: lookups, removal and counting *)

Section StoreOperations.
Import GoTime Daemon Notions.

(** The loop of [GetAll]. *)
Lemma GetAll_loop (l : list (string * PeerInfo)) (result : list PeerInfo) :
  foldl (fun result kv => result ++ [kv.2]) result l = result ++ l.*2.
Proof.
  revert result. induction l as [| kv l IH]; intros result; cbn [foldl].
  - rewrite app_nil_r. reflexivity.
  - rewrite IH, <- app_assoc. reflexivity.
Qed.

(** Deleting distinct keys that are present lowers the size by their
    number. *)
Lemma size_foldr_delete (ks : list string) (m : PeerStore) :
  NoDup ks -> (forall k, k ∈ ks -> is_Some (m !! k)) ->
  (size (foldr delete m ks) + length ks = size m)%nat.
Proof.
  induction ks as [| k ks IH]; intros Hnd Hin; cbn [foldr length].
  - lia.
  - apply NoDup_cons in Hnd as [Hk Hnd].
    destruct (Hin k) as [p Hp]; [apply list_elem_of_here |].
    assert (Hlook : foldr delete m ks !! k = Some p).
    { rewrite lookup_foldr_delete. destruct (decide (k ∈ ks)); [contradiction | exact Hp]. }
    pose proof (map_size_delete k (foldr delete m ks)) as Hsz.
    rewrite Hlook in Hsz.
    assert (Hpos : size (foldr delete m ks) <> 0%nat)
      by (apply map_size_ne_0_lookup; exists k; rewrite Hlook; eauto).
    specialize (IH Hnd (fun k' Hk' => Hin k' (list_elem_of_further _ _ _ Hk'))).
    lia.
Qed.

(** X1. Every store built from the new store by [Update], [Remove] and
    [CleanupStale] files each entry under the entry's own public key, and
    every entry lists at least one discovery method and none twice. *)
Theorem reachable_invariant (ps : PeerStore) (k : string) (p : PeerInfo) :
  reachable ps -> ps !! k = Some p ->
  WGPubKey p = k /\ NoDup (DiscoveredVia p) /\ DiscoveredVia p <> [].
Proof.
  intros Hreach. revert k p.
  induction Hreach as [| ps info m now _ IH | ps k0 _ IH | ps now _ IH];
    intros k p Hk.
  - unfold NewPeerStore in Hk. rewrite lookup_empty in Hk. discriminate.
  - rewrite Update_afterUpdate in Hk.
    destruct (decide (k = WGPubKey info)) as [-> | Hne].
    + rewrite lookup_insert_eq in Hk. injection Hk as <-.
      destruct (ps !! WGPubKey info) as [e |] eqn:He; cbn [afterUpdate].
      * destruct (IH _ _ He) as (Hkey & Hnd & _).
        split; [exact Hkey |]. split; [apply mergePeer_NoDup, Hnd |].
        intros Hnil.
        assert (Hm : m ∈ DiscoveredVia (mergePeer e info m now))
          by (apply mergePeer_via; right; reflexivity).
        rewrite Hnil in Hm. inversion Hm.
      * cbn. split; [reflexivity |]. split; [| discriminate].
        apply NoDup_singleton.
    + rewrite lookup_insert_ne in Hk by congruence. exact (IH _ _ Hk).
  - unfold Remove in Hk. apply lookup_delete_Some in Hk as [_ Hk].
    exact (IH _ _ Hk).
  - rewrite CleanupStale_lookup in Hk.
    destruct (ps !! k) as [q |] eqn:Hq; [| discriminate].
    destruct (10 * Minute <? now - LastSeen q); [discriminate |].
    injection Hk as <-. exact (IH _ _ Hq).
Qed.

(** X2. A peer is alive right after an update. Whatever the store held,
    after [Update] at the instant [now] the peer is found by [Get], was
    last seen at [now] and carries the method of the update; at every
    clock reading less than five minutes later it is listed by [GetActive],
    [IsDead] answers no, and [CleanupStale] keeps it. *)
Theorem Update_then_active (ps : PeerStore) (info : PeerInfo) (m : string)
    (now later : Time) :
  later - now < 5 * Minute ->
  exists p,
    Get (Update ps info m now) (WGPubKey info) = (Some p, true)
    /\ LastSeen p = now
    /\ m ∈ DiscoveredVia p
    /\ p ∈ GetActive (Update ps info m now) later
    /\ IsDead (Update ps info m now) (WGPubKey info) later = false
    /\ (CleanupStale (Update ps info m now) later).1 !! WGPubKey info = Some p
    /\ WGPubKey info ∉ (CleanupStale (Update ps info m now) later).2.
Proof.
  intros Hlate.
  set (p := afterUpdate (ps !! WGPubKey info) info m now).
  assert (Hlook : Update ps info m now !! WGPubKey info = Some p).
  { rewrite Update_afterUpdate, lookup_insert_eq. reflexivity. }
  assert (Hseen : LastSeen p = now).
  { subst p. destruct (ps !! WGPubKey info); reflexivity. }
  exists p. unfold Get, IsDead, Since. rewrite Hlook.
  split; [reflexivity |].
  split; [exact Hseen |].
  split; [apply afterUpdate_via; right; reflexivity |].
  split; [apply GetActive_elem; exists (WGPubKey info); rewrite Hseen; auto |].
  split.
  { rewrite Sub_above, Hseen by (unfold PeerDeadTimeout, Minute, Second, minDuration, maxDuration; literals; lia).
    apply Z.ltb_ge. unfold PeerDeadTimeout. lia. }
  split.
  { rewrite CleanupStale_lookup, Hlook, Hseen.
    destruct (Z.ltb_spec (10 * Minute) (later - now)); [| reflexivity].
    unfold Minute, Second in *. lia. }
  rewrite CleanupStale_keys. intros (q & Hq & Hstale).
  rewrite Hlook in Hq. injection Hq as <-. rewrite Hseen in Hstale.
  unfold Minute, Second in *. lia.
Qed.

(** X3. [Remove] forgets exactly the entry asked for: [Get] no longer
    finds the key and [IsDead] reports it dead, every other key is looked up
    as before, [Count] drops by one when the key was present and is
    unchanged otherwise, and [GetAll] lists the entries of the other
    keys. *)
Theorem Remove_then_Get (ps : PeerStore) (k : string) (now : Time) :
  Get (Remove ps k) k = (None, false)
  /\ IsDead (Remove ps k) k now = true
  /\ (forall k', k' <> k -> Get (Remove ps k) k' = Get ps k')
  /\ Count (Remove ps k)
     = match ps !! k with
       | Some _ => pred (Count ps)
       | None => Count ps
       end
  /\ (forall p, p ∈ GetAll (Remove ps k)
                <-> exists k', k' <> k /\ ps !! k' = Some p).
Proof.
  unfold Get, IsDead, Remove, Count.
  rewrite lookup_delete_eq.
  split; [reflexivity |]. split; [reflexivity |].
  split; [intros k' Hne; rewrite lookup_delete_ne by congruence; reflexivity |].
  split.
  - rewrite map_size_delete. destruct (ps !! k); reflexivity.
  - intros p. unfold GetAll. rewrite GetAll_loop, app_nil_l.
    rewrite list_elem_of_fmap. split.
    + intros ([k' q] & -> & Hin). apply elem_of_map_to_list in Hin.
      apply lookup_delete_Some in Hin as [Hne Hin]. exists k'. split; [congruence | exact Hin].
    + intros (k' & Hne & Hin). exists (k', p). split; [reflexivity |].
      apply elem_of_map_to_list, lookup_delete_Some. split; [congruence | exact Hin].
Qed.

(** X4. [CleanupStale] accounts for every entry: the entries left and
    the keys returned add up to the entries there were. A second call at
    the same clock reading removes nothing. *)
Theorem CleanupStale_Count (ps : PeerStore) (now : Time) :
  (Count (CleanupStale ps now).1 + length (CleanupStale ps now).2 = Count ps)%nat
  /\ CleanupStale ((CleanupStale ps now).1) now = ((CleanupStale ps now).1, []).
Proof.
  split.
  - pose proof (CleanupStale_NoDup ps now) as Hnd.
    assert (Hin : forall k, k ∈ (CleanupStale ps now).2 -> is_Some (ps !! k)).
    { intros k Hk. apply CleanupStale_keys in Hk as (p & Hp & _). eauto. }
    revert Hnd Hin. unfold CleanupStale, Count. rewrite CleanupStale_loop.
    cbn [fst snd]. rewrite app_nil_l. apply size_foldr_delete.
  - set (ps' := (CleanupStale ps now).1).
    unfold CleanupStale at 1. rewrite CleanupStale_loop. cbn [fst snd].
    assert (Hnone :
      filter (fun kv : string * PeerInfo =>
                (PeerRemoveTimeout <? Sub now (LastSeen kv.2)) = true)
             (map_to_list ps') = []).
    { match goal with |- ?l = [] => destruct l as [| kv rest] eqn:Hf end;
        [reflexivity | exfalso].
      assert (Hin : kv ∈ kv :: rest) by apply list_elem_of_here.
      rewrite <- Hf in Hin. clear Hf rest.
      apply list_elem_of_filter in Hin as [Hstale Hin]. destruct kv as [k p].
      cbn in Hstale. apply elem_of_map_to_list in Hin. apply stale_test in Hstale.
      subst ps'. rewrite CleanupStale_lookup in Hin.
      destruct (ps !! k) as [q |]; [| discriminate].
      destruct (Z.ltb_spec (10 * Minute) (now - LastSeen q)); [discriminate |].
      injection Hin as ->. lia. }
    rewrite Hnone. reflexivity.
Qed.

(** X5. [CleanupStale] never evicts an active peer: a peer [GetActive]
    lists at some clock reading is still listed after [CleanupStale] at
    that reading, its key is not among the keys returned, and [IsDead]
    answers no for it. *)
Theorem cleanup_spares_active (ps : PeerStore) (now : Time) (p : PeerInfo) :
  p ∈ GetActive ps now ->
  p ∈ GetActive ((CleanupStale ps now).1) now
  /\ forall k, ps !! k = Some p ->
       (CleanupStale ps now).1 !! k = Some p
       /\ (k ∉ (CleanupStale ps now).2)
       /\ IsDead ps k now = false.
Proof.
  intros Hact. apply GetActive_elem in Hact as (k0 & Hk0 & Hfresh).
  assert (Hkeep : forall k, ps !! k = Some p -> (CleanupStale ps now).1 !! k = Some p).
  { intros k Hk. rewrite CleanupStale_lookup, Hk.
    destruct (Z.ltb_spec (10 * Minute) (now - LastSeen p)); [| reflexivity].
    unfold Minute, Second in *. lia. }
  split.
  - apply GetActive_elem. exists k0. split; [apply Hkeep, Hk0 | exact Hfresh].
  - intros k Hk. split; [apply Hkeep, Hk |]. split.
    + rewrite CleanupStale_keys. intros (q & Hq & Hstale).
      rewrite Hk in Hq. injection Hq as <-. unfold Minute, Second in *. lia.
    + unfold IsDead, Since. rewrite Hk.
      rewrite Sub_above by (unfold PeerDeadTimeout, Minute, Second, minDuration, maxDuration; literals; lia).
      apply Z.ltb_ge. unfold PeerDeadTimeout. lia.
Qed.

(** X6. [GetAll] returns every entry of the store, as many as [Count]
    counts; [GetActive] returns some of them. *)
Theorem GetAll_spec (ps : PeerStore) (now : Time) :
  (forall p, p ∈ GetAll ps <-> exists k, ps !! k = Some p)
  /\ length (GetAll ps) = Count ps
  /\ (forall p, p ∈ GetActive ps now -> p ∈ GetAll ps)
  /\ (length (GetActive ps now) <= Count ps)%nat.
Proof.
  assert (Hall : GetAll ps = (map_to_list ps).*2).
  { unfold GetAll. rewrite GetAll_loop. reflexivity. }
  assert (Hmem : forall p, p ∈ GetAll ps <-> exists k, ps !! k = Some p).
  { intros p. rewrite Hall, list_elem_of_fmap. split.
    - intros ([k q] & -> & Hin). exists k. apply elem_of_map_to_list, Hin.
    - intros (k & Hk). exists (k, p). split; [reflexivity |].
      apply elem_of_map_to_list, Hk. }
  split; [exact Hmem |].
  split; [rewrite Hall, length_fmap; apply length_map_to_list |].
  split.
  - intros p (k & Hk & _)%GetActive_elem. apply Hmem. eauto.
  - unfold GetActive, Count. rewrite GetActive_loop, app_nil_l, length_fmap.
    rewrite <- (length_map_to_list ps). apply length_filter.
Qed.

(** X7. Updates of two different peers do not interfere, whatever the
    clock readings: they commute, the first leaves the entry of the other
    peer alone, and an update adds one entry when the key is new and none
    otherwise. *)
Theorem Update_independent (ps : PeerStore) (a b : PeerInfo) (ma mb : string)
    (ta tb : Time) :
  WGPubKey a <> WGPubKey b ->
  Update (Update ps a ma ta) b mb tb = Update (Update ps b mb tb) a ma ta
  /\ Update ps a ma ta !! WGPubKey b = ps !! WGPubKey b
  /\ Count (Update ps a ma ta)
     = match ps !! WGPubKey a with
       | Some _ => Count ps
       | None => S (Count ps)
       end.
Proof.
  intros Hne. rewrite !Update_afterUpdate.
  rewrite !lookup_insert_ne by congruence.
  split; [apply insert_insert_ne; congruence |].
  split; [reflexivity |].
  unfold Count. rewrite map_size_insert. destruct (ps !! WGPubKey a); reflexivity.
Qed.

End StoreOperations.

(** The theorems above at the test vectors. *)

Lemma reachable_invariant_witness :
  Daemon.WGPubKey TestVectors.peerA = "pubkey-of-A"
  /\ NoDup (Daemon.DiscoveredVia TestVectors.peerA)
  /\ Daemon.DiscoveredVia TestVectors.peerA <> [].
Proof.
  apply (reachable_invariant
           (Daemon.Update Daemon.NewPeerStore TestVectors.peerA "lan"
              (TestVectors.now - 30 * GoTime.Second))).
  - apply Notions.reachable_Update, Notions.reachable_new.
  - reflexivity.
Defined.


Lemma Update_then_active_witness :
  exists p,
    Daemon.Get (Daemon.Update ∅ TestVectors.peerB "lan" TestVectors.now)
      "pubkey-of-B" = (Some p, true)
    /\ Daemon.LastSeen p = TestVectors.now
    /\ "lan" ∈ Daemon.DiscoveredVia p
    /\ p ∈ Daemon.GetActive
             (Daemon.Update ∅ TestVectors.peerB "lan" TestVectors.now)
             (TestVectors.now + GoTime.Minute)
    /\ Daemon.IsDead (Daemon.Update ∅ TestVectors.peerB "lan" TestVectors.now)
         "pubkey-of-B" (TestVectors.now + GoTime.Minute) = false
    /\ (Daemon.CleanupStale
          (Daemon.Update ∅ TestVectors.peerB "lan" TestVectors.now)
          (TestVectors.now + GoTime.Minute)).1 !! "pubkey-of-B" = Some p
    /\ "pubkey-of-B"
       ∉ (Daemon.CleanupStale
            (Daemon.Update ∅ TestVectors.peerB "lan" TestVectors.now)
            (TestVectors.now + GoTime.Minute)).2.
Proof.
  apply (Update_then_active ∅ TestVectors.peerB "lan" TestVectors.now
           (TestVectors.now + GoTime.Minute)).
  vm_compute. reflexivity.
Defined.

Lemma cleanup_spares_active_witness :
  TestVectors.peerA
  ∈ Daemon.GetActive
      ((Daemon.CleanupStale (Daemon.peerStore TestVectors.daemonB)
          TestVectors.now).1)
      TestVectors.now.
Proof.
  apply (cleanup_spares_active (Daemon.peerStore TestVectors.daemonB)
           TestVectors.now TestVectors.peerA).
  apply GetActive_elem. exists "pubkey-of-A".
  split; [reflexivity | vm_compute; reflexivity].
Defined.

Lemma Update_independent_witness :
  Daemon.Update (Daemon.Update ∅ TestVectors.peerA "lan" TestVectors.now)
    TestVectors.peerB "dht" (TestVectors.now + GoTime.Second)
  = Daemon.Update
      (Daemon.Update ∅ TestVectors.peerB "dht" (TestVectors.now + GoTime.Second))
      TestVectors.peerA "lan" TestVectors.now.
Proof.
  apply (Update_independent ∅ TestVectors.peerA TestVectors.peerB "lan" "dht"
           TestVectors.now (TestVectors.now + GoTime.Second)).
  discriminate.
Defined.

(** ** Collisions: detection is exact, resolution is confined *)

Section CollisionHandling.
Context `{lib : Crypto.GoLib}.
Import GoTime Daemon Notions.

(** The loop of [DetectCollisions] keeps the first peer seen with an
    address, and the collisions found so far. *)
Lemma detect_loop_map (l : list PeerInfo) :
  forall (st : gmap string PeerInfo * list CollisionInfo) (ip : string)
         (f : PeerInfo),
    st.1 !! ip = Some f -> (foldl detectStep st l).1 !! ip = Some f.
Proof.
  induction l as [| peer l IH]; intros st ip f Hf; cbn [foldl]; [exact Hf |].
  apply IH. unfold detectStep.
  destruct (String.eqb (MeshIP peer) ""); [exact Hf |].
  destruct (st.1 !! MeshIP peer) as [existing |] eqn:Hex.
  - destruct (negb (String.eqb (WGPubKey existing) (WGPubKey peer))); exact Hf.
  - cbn [fst]. rewrite lookup_insert_ne; [exact Hf |]. intros <-. congruence.
Qed.

Lemma detect_loop_mono (l : list PeerInfo) :
  forall (st : gmap string PeerInfo * list CollisionInfo) (c : CollisionInfo),
    c ∈ st.2 -> c ∈ (foldl detectStep st l).2.
Proof.
  induction l as [| peer l IH]; intros st c Hc; cbn [foldl]; [exact Hc |].
  apply IH. unfold detectStep.
  destruct (String.eqb (MeshIP peer) ""); [exact Hc |].
  destruct (st.1 !! MeshIP peer) as [existing |].
  - destruct (negb (String.eqb (WGPubKey existing) (WGPubKey peer)));
      [| exact Hc].
    cbn [snd]. apply elem_of_app. left. exact Hc.
  - exact Hc.
Qed.

(** Every peer with a non-empty address is compared with the first peer
    seen with that address. *)
Lemma detect_loop_reports (l : list PeerInfo) :
  forall (st : gmap string PeerInfo * list CollisionInfo) (p : PeerInfo),
    p ∈ l -> MeshIP p <> "" ->
    exists f,
      (foldl detectStep st l).1 !! MeshIP p = Some f
      /\ (WGPubKey f <> WGPubKey p ->
          mkCollisionInfo (MeshIP p) f p ∈ (foldl detectStep st l).2).
Proof.
  induction l as [| peer l IH]; intros st p Hp Hip; [inversion Hp |].
  cbn [foldl]. apply elem_of_cons in Hp as [-> | Hp]; [| apply IH; assumption].
  unfold detectStep.
  destruct (String.eqb_spec (MeshIP peer) "") as [Hempty | _]; [contradiction |].
  destruct (st.1 !! MeshIP peer) as [existing |] eqn:Hex.
  - destruct (String.eqb_spec (WGPubKey existing) (WGPubKey peer)) as [Heq | Hne];
      cbn [negb].
    + exists existing. split; [apply detect_loop_map, Hex | congruence].
    + exists existing. split; [apply detect_loop_map, Hex |].
      intros _. apply detect_loop_mono. cbn [snd].
      apply elem_of_app. right. apply list_elem_of_singleton. reflexivity.
  - exists peer. split; [| congruence].
    apply detect_loop_map. cbn [fst]. apply lookup_insert_eq.
Qed.

(** The peers the loop ranges over are the entries of the store. *)
Lemma stored_peers (ps : PeerStore) (p : PeerInfo) :
  p ∈ (map_to_list ps).*2 <-> exists k, ps !! k = Some p.
Proof.
  rewrite list_elem_of_fmap. split.
  - intros ([k q] & -> & Hkq). exists k. apply elem_of_map_to_list, Hkq.
  - intros (k & Hk). exists (k, p). split; [reflexivity |].
    apply elem_of_map_to_list, Hk.
Qed.

Lemma DetectCollisions_colliding (ps : PeerStore) (c : CollisionInfo) :
  c ∈ DetectCollisions ps -> colliding ps (c_MeshIP c).
Proof.
  intros Hc.
  assert (Hgen : genuine (map_to_list ps).*2 c).
  { apply (detect_loop_genuine (map_to_list ps).*2 (map_to_list ps).*2 (∅, []));
      [auto | | | exact Hc].
    - intros ip p Hp. cbn in Hp. rewrite lookup_empty in Hp. discriminate.
    - intros c' Hc'. cbn in Hc'. apply elem_of_nil in Hc'. contradiction. }
  destruct Hgen as (H1 & H2 & H3 & H4 & H5 & H6).
  apply stored_peers in H5 as [k1 Hk1]. apply stored_peers in H6 as [k2 Hk2].
  exists k1, k2, (Peer1 c), (Peer2 c). rewrite H1. repeat split; try assumption.
  - congruence.
  - congruence.
Qed.

(** X8. [DetectCollisions] reports a collision on a mesh address exactly
    when two entries of the store with different public keys hold that
    address and the address is not empty. In particular it reports nothing
    exactly when no two peers share an address. *)
Theorem DetectCollisions_exact (ps : PeerStore) (ip : string) :
  (exists c, c ∈ DetectCollisions ps /\ c_MeshIP c = ip) <-> colliding ps ip.
Proof.
  pose proof (stored_peers ps) as Hin.
  split.
  - intros (c & Hc & <-). apply DetectCollisions_colliding, Hc.
  - intros (k1 & k2 & p & q & Hp & Hq & Hkeys & Hpip & Hqip & Hip).
    assert (Hpl : p ∈ (map_to_list ps).*2) by (apply Hin; eauto).
    assert (Hql : q ∈ (map_to_list ps).*2) by (apply Hin; eauto).
    destruct (detect_loop_reports (map_to_list ps).*2 (∅, []) p Hpl)
      as (f & Hf & Hcp); [congruence |].
    destruct (detect_loop_reports (map_to_list ps).*2 (∅, []) q Hql)
      as (f' & Hf' & Hcq); [congruence |].
    rewrite Hpip in Hf, Hcp. rewrite Hqip in Hf', Hcq.
    rewrite Hf in Hf'. injection Hf' as <-.
    destruct (decide (WGPubKey f = WGPubKey p)) as [Heq | Hne].
    + exists (mkCollisionInfo ip f q). split; [| reflexivity].
      apply Hcq. congruence.
    + exists (mkCollisionInfo ip f p). split; [| reflexivity].
      apply Hcp, Hne.
Qed.

(** One round of the resolution loop keeps the configuration and the key
    of the local node. *)
Lemma resolveStep_kept (d : Daemon) (evs : list Event) (c : CollisionInfo) :
  config (resolveStep (d, evs) c).1 = config d
  /\ ln_WGPubKey (localNode (resolveStep (d, evs) c).1)
     = ln_WGPubKey (localNode d).
Proof.
  rewrite resolveStep_state.
  destruct (String.eqb _ _); split; reflexivity.
Qed.

(** The events of the resolution loop. *)
Lemma resolve_loop_events (d0 : Daemon) (cs : list CollisionInfo) :
  forall (d : Daemon) (evs : list Event) (ev : Event),
    config d = config d0 ->
    ln_WGPubKey (localNode d) = ln_WGPubKey (localNode d0) ->
    ev ∈ (foldl resolveStep (d, evs) cs).2 ->
    ev ∈ evs
    \/ (exists ip winner loser, ev = LogCollisionDetected ip winner loser)
    \/ (exists loser newIP, ev = LogRemoteShouldRederive loser newIP)
    \/ (localLoses d0 cs = true
        /\ ((exists oldIP newIP, ev = LogLostCollision oldIP newIP)
            \/ ev = SetInterfaceAddress (InterfaceName (config d0))
                      (DeriveMeshIPWithNonce
                         (Crypto.MeshSubnet (Keys (config d0)))
                         (ln_WGPubKey (localNode d0)) (Secret (config d0)) 1
                       +:+ "/16"))).
Proof.
  induction cs as [| c cs IH]; intros d evs ev Hcfg Hkey Hev; cbn [foldl] in Hev;
    [left; exact Hev |].
  destruct (resolveStep_kept d evs c) as [Hcfg' Hkey'].
  pose proof (resolveStep_events d evs c) as Hevs. cbv zeta in Hevs.
  destruct (resolveStep (d, evs) c) as [d' evs'] eqn:Hstep.
  cbn [fst snd] in Hcfg', Hkey', Hevs.
  apply IH in Hev; [| congruence | congruence].
  assert (Hll : localLoses d0 (c :: cs)
                = String.eqb
                    (WGPubKey (DeterministicWinner (Peer1 c) (Peer2 c)).2)
                    (ln_WGPubKey (localNode d0))
                  || localLoses d0 cs) by reflexivity.
  rewrite Hll. clear Hll.
  destruct Hev as [Hev | [Hev | [Hev | [Hlost Hev]]]].
  - rewrite Hevs in Hev. apply elem_of_app in Hev as [Hev | Hev]; [left; exact Hev |].
    apply elem_of_cons in Hev as [-> | Hev]; [right; left; eauto |].
    rewrite Hkey, Hcfg in Hev.
    destruct (String.eqb_spec
                (WGPubKey (DeterministicWinner (Peer1 c) (Peer2 c)).2)
                (ln_WGPubKey (localNode d0))) as [Heq | Hne].
    + right; right; right. split; [reflexivity |].
      apply elem_of_cons in Hev as [-> | Hev]; [left; eauto |].
      apply list_elem_of_singleton in Hev as ->. right. rewrite Heq. reflexivity.
    + apply list_elem_of_singleton in Hev as ->. right; right; left. eauto.
  - right; left. exact Hev.
  - right; right; left. exact Hev.
  - right; right; right. split; [| exact Hev].
    rewrite Hlost. apply orb_true_r.
Qed.

(** X9. [CheckAndResolveCollisions] changes nothing of the daemon but the
    mesh address of the local node: peer store and configuration stay, and
    no WireGuard peer is set or removed. Besides log lines, the only call
    it makes sets the interface of the configuration to the address derived
    for the local key with nonce 1, and then that address is the new local
    mesh address. When no two peers of the store collide, the daemon is
    left as it was and nothing is logged. *)
Theorem CheckAndResolveCollisions_effects (d : Daemon) :
  let r := CheckAndResolveCollisions d in
  let newIP :=
    DeriveMeshIPWithNonce (Crypto.MeshSubnet (Keys (config d)))
      (ln_WGPubKey (localNode d)) (Secret (config d)) 1 in
  peerStore r.1 = peerStore d
  /\ config r.1 = config d
  /\ r.1 = withMeshIP d (ln_MeshIP (localNode r.1))
  /\ (forall ev, ev ∈ r.2 ->
        (exists ip winner loser, ev = LogCollisionDetected ip winner loser)
        \/ (exists loser ip, ev = LogRemoteShouldRederive loser ip)
        \/ (ln_MeshIP (localNode r.1) = newIP
            /\ ((exists oldIP ip, ev = LogLostCollision oldIP ip)
                \/ ev = SetInterfaceAddress (InterfaceName (config d))
                          (newIP +:+ "/16"))))
  /\ ((forall ip, ~ colliding (peerStore d) ip) -> r = (d, [])).
Proof.
  intros r newIP.
  pose proof (CheckAndResolveCollisions_state d) as Hstate. fold r newIP in Hstate.
  assert (Hshape : r.1 = withMeshIP d (ln_MeshIP (localNode r.1))).
  { rewrite Hstate. destruct (localLoses d (DetectCollisions (peerStore d)));
      [reflexivity | symmetry; apply withMeshIP_same]. }
  split; [rewrite Hshape; reflexivity |].
  split; [rewrite Hshape; reflexivity |].
  split; [exact Hshape |].
  split.
  - intros ev Hev. subst r. unfold CheckAndResolveCollisions in Hev.
    destruct (length (DetectCollisions (peerStore d)) =? 0)%nat;
      [cbn in Hev; inversion Hev |].
    apply (resolve_loop_events d) in Hev; [| reflexivity | reflexivity].
    destruct Hev as [Hev | [Hev | [Hev | [Hlost Hev]]]];
      [inversion Hev | left; exact Hev | right; left; exact Hev |].
    right; right. split; [| exact Hev].
    rewrite Hstate, Hlost. reflexivity.
  - intros Hnone. subst r. unfold CheckAndResolveCollisions.
    destruct (DetectCollisions (peerStore d)) as [| c cs] eqn:Hcs; [reflexivity |].
    exfalso. apply (Hnone (c_MeshIP c)), DetectCollisions_colliding.
    rewrite Hcs. apply list_elem_of_here.
Qed.

(** The loop of [DeriveMeshIPWithCollisionCheck], for any numbering [c] of
    the addresses it tries. *)
Lemma collisionCheckLoop_first (meshSubnet : list byte) (wgPubKey secret : string)
    (existingIPs : gmap string string) (c : Z -> string) (fuel : nat) :
  forall (nonce : Z),
    (forall j, nonce <= j ->
               c j = DeriveMeshIPWithNonce meshSubnet wgPubKey secret j) ->
    exists n,
      nonce - 1 <= n <= nonce - 1 + Z.of_nat fuel
      /\ collisionCheckLoop fuel nonce (c (nonce - 1)) meshSubnet wgPubKey secret
           existingIPs = c n
      /\ (forall j, nonce - 1 <= j < n -> ~ freeFor existingIPs wgPubKey (c j))
      /\ (n < nonce - 1 + Z.of_nat fuel -> freeFor existingIPs wgPubKey (c n)).
Proof.
  induction fuel as [| fuel IH]; intros nonce Hc.
  - exists (nonce - 1). cbn [collisionCheckLoop]. repeat split; try lia.
  - cbn [collisionCheckLoop].
    destruct (existingIPs !! c (nonce - 1)) as [owner |] eqn:Hown.
    + destruct (String.eqb_spec owner wgPubKey) as [-> | Hne].
      * exists (nonce - 1). repeat split; try lia.
        intros _. right. exact Hown.
      * destruct (IH (nonce + 1)) as (n & Hn & Hr & Hbefore & Hfree).
        { intros j Hj. apply Hc. lia. }
        replace (nonce + 1 - 1) with nonce in * by lia.
        rewrite <- (Hc nonce) by lia.
        exists n. split; [lia |]. split; [exact Hr |]. split.
        -- intros j Hj. destruct (decide (j = nonce - 1)) as [-> | Hj'].
           ++ intros [Hfr | Hfr]; rewrite Hown in Hfr; congruence.
           ++ apply Hbefore. lia.
        -- intros Hlt. apply Hfree. lia.
    + exists (nonce - 1). repeat split; try lia.
      intros _. left. exact Hown.
Qed.

(** X10. [DeriveMeshIPWithCollisionCheck] returns the first address, in
    the order base address, nonce 1, nonce 2, ..., that nobody else holds;
    every address tried before is held by another key. The address of
    nonce 10 is returned without being looked up, when the base address and
    the addresses of the nonces 1 to 9 are all taken. *)
Theorem DeriveMeshIPWithCollisionCheck_first_free (meshSubnet : list byte)
    (wgPubKey secret : string) (existingIPs : gmap string string) :
  exists n,
    0 <= n <= 10
    /\ DeriveMeshIPWithCollisionCheck meshSubnet wgPubKey secret existingIPs
       = candidate meshSubnet wgPubKey secret n
    /\ (forall j, 0 <= j < n ->
          ~ freeFor existingIPs wgPubKey (candidate meshSubnet wgPubKey secret j))
    /\ (n < 10 ->
        freeFor existingIPs wgPubKey (candidate meshSubnet wgPubKey secret n)).
Proof.
  destruct (collisionCheckLoop_first meshSubnet wgPubKey secret existingIPs
              (candidate meshSubnet wgPubKey secret) 10 1)
    as (n & Hn & Hr & Hbefore & Hfree).
  { intros j Hj. unfold candidate. destruct (Z.eqb_spec j 0); [lia | reflexivity]. }
  exists n. split; [lia |]. split; [exact Hr |]. split.
  - intros j Hj. apply Hbefore. lia.
  - intros Hlt. apply Hfree. lia.
Qed.

End CollisionHandling.

(** ** Collisions: who keeps the address *)

Section CollisionResolution.
Context `{lib : Crypto.GoLib}.
Import GoTime Daemon Notions.











End CollisionResolution.



(** ** The reconciler: what a tick does *)

Section ReconcilerEffects.
Context `{wg : Daemon.WireGuard}.
Import GoTime Daemon Notions.

Lemma keyPrefix8_Some (key prefix : string) :
  keyPrefix8 key = Some prefix
  <-> (8 <= String.length key)%nat /\ prefix = GoStrings.take 8 key +:+ "...".
Proof.
  unfold keyPrefix8. destruct (Nat.ltb_spec (String.length key) 8).
  - split; [discriminate | lia].
  - split; [intros [= <-]; auto | intros [_ ->]; reflexivity].
Qed.

Lemma keyPrefix8_None (key : string) :
  keyPrefix8 key = None <-> (String.length key < 8)%nat.
Proof.
  unfold keyPrefix8. destruct (Nat.ltb_spec (String.length key) 8).
  - split; auto.
  - split; [discriminate | lia].
Qed.

(** X11. One tick of the reconciler, whatever the answers of the command
    [wg]. Configuration and local node stay, and the tick adds no entry to
    the store and keeps every active one. Every event of the tick is the
    configuration of an active peer other than the local node, the removal
    of a key whose entry was last seen more than ten minutes ago and is
    gone from the store, the line logged when such a call failed for a key
    of eight bytes or more, or a panic. The tick panics exactly when a call
    it makes fails for a key shorter than eight bytes, which the log line
    slices. A tick that does not panic configures every active peer other
    than the local node and, when there is an active peer, evicts the stale
    entries and removes each of them from WireGuard. A panic in the first
    loop leaves the store as it was and removes nothing. *)
Theorem reconcile_effects (d : Daemon) (now : Time) :
  let r := reconcile d now in
  let active := GetActive (peerStore d) now in
  let stale := (CleanupStale (peerStore d) now).2 in
  let other (p : PeerInfo) : Prop :=
    p ∈ active /\ WGPubKey p <> ln_WGPubKey (localNode d) in
  let panicsOnPeer : Prop :=
    exists p, other p /\ callFails (configurePeer d p) = true
              /\ (String.length (WGPubKey p) < 8)%nat in
  let panicsOnRemoval : Prop :=
    exists k, k ∈ stale /\ callFails (removePeer d k) = true
              /\ (String.length k < 8)%nat in
  config r.1 = config d
  /\ localNode r.1 = localNode d
  /\ (forall k p, peerStore r.1 !! k = Some p -> peerStore d !! k = Some p)
  /\ (forall k p, p ∈ active ->
                  peerStore d !! k = Some p -> peerStore r.1 !! k = Some p)
  /\ (forall ev, ev ∈ r.2 ->
        (exists p, other p
                   /\ (ev = configurePeer d p
                       \/ (callFails (configurePeer d p) = true
                           /\ (8 <= String.length (WGPubKey p))%nat
                           /\ ev = LogConfigureFailed
                                     (GoStrings.take 8 (WGPubKey p) +:+ "..."))))
        \/ (exists k q, peerStore d !! k = Some q
                        /\ 10 * Minute < now - LastSeen q
                        /\ peerStore r.1 !! k = None
                        /\ (ev = removePeer d k
                            \/ (callFails (removePeer d k) = true
                                /\ (8 <= String.length k)%nat
                                /\ ev = LogRemoveFailed
                                          (GoStrings.take 8 k +:+ "..."))))
        \/ ev = Panic)
  /\ (Panic ∈ r.2 <-> panicsOnPeer \/ (active <> [] /\ panicsOnRemoval))
  /\ (Panic ∉ r.2 ->
      (forall p, other p -> configurePeer d p ∈ r.2)
      /\ (active <> [] ->
          peerStore r.1 = (CleanupStale (peerStore d) now).1
          /\ forall k, k ∈ stale -> removePeer d k ∈ r.2))
  /\ (panicsOnPeer -> r.1 = d /\ forall k, removePeer d k ∉ r.2).
Proof.
  intros r active stale other panicsOnPeer panicsOnRemoval.
  subst r other panicsOnPeer panicsOnRemoval stale active.
  destruct (GetActive (peerStore d) now) as [| p0 ps0] eqn:Hact.
  { rewrite reconcile_idle by exact Hact. cbn [fst snd].
    split; [reflexivity |]. split; [reflexivity |]. split; [tauto |].
    split; [intros k p Hp%elem_of_nil; contradiction |].
    split; [intros ev Hev%elem_of_nil; contradiction |].
    split.
    { split; [intros Hev%elem_of_nil; contradiction |].
      intros [(p & [Hp%elem_of_nil _] & _) | [Hne _]];
        [contradiction | congruence]. }
    split.
    { intros _. split; [intros p [Hp%elem_of_nil _]; contradiction |].
      congruence. }
    intros (p & [Hp%elem_of_nil _] & _). contradiction. }
  rewrite reconcile_busy by (rewrite Hact; discriminate).
  rewrite <- Hact.
  assert (Hsome : GetActive (peerStore d) now <> [])
    by (rewrite Hact; discriminate).
  clear Hact p0 ps0.
  set (active := GetActive (peerStore d) now) in *.
  destruct (configureLoop_panics d active) as [Hpanic1 Htrace1].
  pose proof (configureLoop_events d active) as Hevs1.
  pose proof (configureLoop_complete d active) as Hall1.
  destruct (removeLoop_panics d (CleanupStale (peerStore d) now).2)
    as [Hpanic2 Htrace2].
  pose proof (removeLoop_events d (CleanupStale (peerStore d) now).2) as Hevs2.
  pose proof (removeLoop_complete d (CleanupStale (peerStore d) now).2)
    as Hall2.
  assert (Hfirst : forall ev,
    ev ∈ (configureLoop d active).1 ->
    (exists p, (p ∈ active /\ WGPubKey p <> ln_WGPubKey (localNode d))
               /\ (ev = configurePeer d p
                   \/ (callFails (configurePeer d p) = true
                       /\ (8 <= String.length (WGPubKey p))%nat
                       /\ ev = LogConfigureFailed
                                 (GoStrings.take 8 (WGPubKey p) +:+ "..."))))
    \/ ev = Panic).
  { intros ev Hev. destruct (Hevs1 ev Hev) as [(p & Hp & Hne & Hwhat) | [-> _]];
      [left | right; reflexivity].
    exists p. split; [auto |].
    destruct Hwhat as [-> | (Hfail & prefix & Hprefix & ->)]; [left; reflexivity |].
    apply keyPrefix8_Some in Hprefix as [Hlen ->]. right. auto. }
  assert (Hshort1 :
    (configureLoop d active).2 = true
    <-> exists p, (p ∈ active /\ WGPubKey p <> ln_WGPubKey (localNode d))
                  /\ callFails (configurePeer d p) = true
                  /\ (String.length (WGPubKey p) < 8)%nat).
  { rewrite Hpanic1. split.
    - intros (p & Hp & Hne & Hfail & Hk%keyPrefix8_None). eauto 10.
    - intros (p & [Hp Hne] & Hfail & Hk%keyPrefix8_None). eauto 10. }
  assert (Hshort2 :
    (removeLoop d (CleanupStale (peerStore d) now).2).2 = true
    <-> exists k, k ∈ (CleanupStale (peerStore d) now).2
                  /\ callFails (removePeer d k) = true
                  /\ (String.length k < 8)%nat).
  { rewrite Hpanic2. split.
    - intros (k & Hk & Hfail & Hp%keyPrefix8_None). eauto 10.
    - intros (k & Hk & Hfail & Hp%keyPrefix8_None). eauto 10. }
  clear Hpanic1 Hpanic2 Hevs1.
  destruct (configureLoop d active).2 eqn:Hrun1; cbn [fst snd].
  - (* the first loop panics *)
    split; [reflexivity |]. split; [reflexivity |]. split; [tauto |].
    split; [tauto |].
    split.
    { intros ev Hev. destruct (Hfirst ev Hev) as [Hp | ->]; auto. }
    split.
    { split; [intros _; left; apply Hshort1; reflexivity |].
      intros _. apply Htrace1. reflexivity. }
    split.
    { intros Hno. exfalso. apply Hno, Htrace1. reflexivity. }
    intros _. split; [reflexivity |].
    intros k Hev.
    destruct (Hfirst _ Hev) as [(p & _ & [Hc | (_ & _ & Hc)]) | Hc];
      discriminate.
  - (* the first loop returns *)
    cbn [config localNode peerStore].
    assert (Hgone : forall k q,
      peerStore d !! k = Some q -> 10 * Minute < now - LastSeen q ->
      (CleanupStale (peerStore d) now).1 !! k = None).
    { intros k q Hq Hstale. rewrite CleanupStale_lookup, Hq.
      destruct (Z.ltb_spec (10 * Minute) (now - LastSeen q));
        [reflexivity | lia]. }
    split; [reflexivity |]. split; [reflexivity |].
    split.
    { intros k p. rewrite CleanupStale_lookup.
      destruct (peerStore d !! k) as [q |]; [| discriminate].
      destruct (10 * Minute <? now - LastSeen q); [discriminate | tauto]. }
    split.
    { intros k p (k0 & _ & Hfresh)%GetActive_elem Hk.
      rewrite CleanupStale_lookup, Hk.
      destruct (Z.ltb_spec (10 * Minute) (now - LastSeen p)); [| reflexivity].
      unfold Minute, Second in *. lia. }
    split.
    { intros ev [Hev | Hev]%elem_of_app.
      - destruct (Hfirst ev Hev) as [Hp | ->]; auto.
      - destruct (Hevs2 ev Hev) as [(k & Hk & Hwhat) | [-> _]]; [| auto].
        right; left.
        apply CleanupStale_keys in Hk as (q & Hq & Hstale).
        exists k, q. split; [exact Hq |]. split; [exact Hstale |].
        split; [exact (Hgone k q Hq Hstale) |].
        destruct Hwhat as [-> | (Hfail & prefix & Hprefix & ->)];
          [left; reflexivity |].
        apply keyPrefix8_Some in Hprefix as [Hlen ->]. right. auto. }
    split.
    { rewrite elem_of_app, Htrace1, Htrace2, Hshort2. split.
      - intros [Hc | Hk]; [discriminate | right; auto].
      - intros [Hp%Hshort1 | [_ Hk]]; [discriminate | right; exact Hk]. }
    split.
    { intros Hno. split.
      - intros p [Hp Hne]. apply elem_of_app. left. apply Hall1; auto.
      - intros _. split; [reflexivity |].
        intros k Hk. apply elem_of_app. right. apply Hall2; [| exact Hk].
        destruct (removeLoop d (CleanupStale (peerStore d) now).2).2 eqn:Hrun2;
          [| reflexivity].
        exfalso. apply Hno, elem_of_app. right. apply Htrace2. reflexivity. }
    intros Hp%Hshort1. discriminate.
Qed.

End ReconcilerEffects.

(** A tick on a store that holds an active peer under a key of five bytes
    and the stale C. When the command fails, the log line of the failure
    slices the key and panics: the tick ends there and C is neither evicted
    nor removed from WireGuard. When the command succeeds, the peer is
    configured and C is evicted and removed. *)
Example reconcile_panics_on_short_key :
  let psk := Crypto.PSK TestVectors.keys in
  Daemon.reconcile (wg := TestVectors.wgDown) TestVectors.daemonShort TestVectors.now
  = (TestVectors.daemonShort,
     [Daemon.SetPeer "wg0" "short" psk "192.0.2.5:51820" "10.7.0.12/32";
      Daemon.Panic])
  /\ Daemon.reconcile (wg := TestVectors.wgUp) TestVectors.daemonShort TestVectors.now
     = (Daemon.mkDaemon TestVectors.config TestVectors.nodeB
          (<["short" := TestVectors.peerShort]> ∅),
        [Daemon.SetPeer "wg0" "short" psk "192.0.2.5:51820" "10.7.0.12/32";
         Daemon.RemovePeer "wg0" "pubkey-of-C"]).
Proof. vm_compute. split; reflexivity. Qed.

(** With keys of eight bytes or more a failing command is logged and the
    tick goes on. *)
Example reconcile_logs_failed_call :
  (Daemon.reconcile (wg := TestVectors.wgDown) TestVectors.daemonB
     TestVectors.now).2
  = [Daemon.SetPeer "wg0" "pubkey-of-A" (Crypto.PSK TestVectors.keys)
       "192.0.2.1:51820" "10.7.0.9/32";
     Daemon.LogConfigureFailed "pubkey-o..."].
Proof. vm_compute. reflexivity. Qed.

(** ** The listeners: what they store and what they answer *)

Section Listeners.
Context `{lib : Crypto.GoLib}.
Import GoTime GoStrings GoNet Discovery Daemon Notions.

(** The loop of [getKnownPeers]. *)
Lemma getKnownPeers_loop (peers : list PeerInfo) (acc : list Crypto.KnownPeer) :
  foldl (fun knownPeers p =>
           knownPeers ++ [Crypto.mkKnownPeer (WGPubKey p) (MeshIP p) (Endpoint p)])
        acc peers
  = acc ++ ((fun p => Crypto.mkKnownPeer (WGPubKey p) (MeshIP p) (Endpoint p))
              <$> peers).
Proof.
  revert acc. induction peers as [| p peers IH]; intros acc; cbn [foldl fmap list_fmap].
  - rewrite app_nil_r. reflexivity.
  - rewrite IH, <- app_assoc. reflexivity.
Qed.

(** [getKnownPeers] lists the active peers. *)
Lemma getKnownPeers_elem (pe : PeerExchange) (now : Time)
    (kp : Crypto.KnownPeer) :
  kp ∈ getKnownPeers pe now
  <-> exists k p,
        Discovery.peerStore pe !! k = Some p
        /\ now - LastSeen p < 5 * Minute
        /\ kp = Crypto.mkKnownPeer (WGPubKey p) (MeshIP p) (Endpoint p).
Proof.
  unfold getKnownPeers. rewrite getKnownPeers_loop, app_nil_l, list_elem_of_fmap.
  split.
  - intros (p & -> & (k & Hk & Hfresh)%GetActive_elem). eauto.
  - intros (k & p & Hk & Hfresh & ->). exists p. split; [reflexivity |].
    apply GetActive_elem. eauto.
Qed.

(** X12. The known peers a node advertises in its HELLO, REPLY and
    ANNOUNCE messages are exactly the entries of its store last seen less
    than five minutes before the message is built, each with its public
    key, mesh address and endpoint; there are at most as many as the store
    has entries. *)
Theorem advertised_peers_active (pe : PeerExchange) (now : Time)
    (kp : Crypto.KnownPeer) :
  (kp ∈ Crypto.KnownPeers (localAnnouncement pe now)
   <-> exists k p,
         Discovery.peerStore pe !! k = Some p
         /\ now - LastSeen p < 5 * Minute
         /\ kp = Crypto.mkKnownPeer (WGPubKey p) (MeshIP p) (Endpoint p))
  /\ (length (Crypto.KnownPeers (localAnnouncement pe now))
      <= Count (Discovery.peerStore pe))%nat.
Proof.
  cbn [localAnnouncement Crypto.CreateAnnouncement Crypto.KnownPeers].
  split; [apply getKnownPeers_elem |].
  unfold getKnownPeers. rewrite getKnownPeers_loop, app_nil_l, length_fmap.
  unfold GetActive, Count. rewrite GetActive_loop, app_nil_l, length_fmap.
  rewrite <- (length_map_to_list (Discovery.peerStore pe)). apply length_filter.
Qed.

(** The merge of known peers never files anything under the key of the
    local node. *)
Lemma updateTransitivePeers_self (pe : PeerExchange)
    (knownPeers : list Crypto.KnownPeer) (now : Time) :
  Discovery.peerStore (updateTransitivePeers pe knownPeers now)
    !! Discovery.WGPubKey (Discovery.localNode pe)
  = Discovery.peerStore pe !! Discovery.WGPubKey (Discovery.localNode pe).
Proof.
  unfold updateTransitivePeers. cbn [withStore Discovery.peerStore].
  set (local := Discovery.WGPubKey (Discovery.localNode pe)).
  generalize (Discovery.peerStore pe) as ps.
  induction knownPeers as [| kp kps IH]; intros ps; cbn [foldl]; [reflexivity |].
  rewrite IH.
  destruct (String.eqb_spec (Crypto.kp_WGPubKey kp) local) as [_ | Hne];
    [reflexivity |].
  rewrite Update_afterUpdate, lookup_insert_ne; [reflexivity |].
  cbn [newPeerInfo WGPubKey]. exact Hne.
Qed.

(** X13. Neither the handler of HELLO messages nor the LAN listener ever
    files an entry under the public key of the local node, be it the sender
    of the message or one of its known peers. A HELLO that carries the
    local key changes nothing and is not answered. *)
Theorem listeners_never_store_self (pe : PeerExchange)
    (ann : Crypto.PeerAnnouncement) (data key : list byte) (ps : PeerStore)
    (sender : UDPAddr) (now : Time) (entropy : option (list byte)) :
  Discovery.peerStore (handleHello pe ann sender now entropy).1
    !! Discovery.WGPubKey (Discovery.localNode pe)
  = Discovery.peerStore pe !! Discovery.WGPubKey (Discovery.localNode pe)
  /\ lanReceive (Discovery.localNode pe) key ps data sender now
       !! Discovery.WGPubKey (Discovery.localNode pe)
     = ps !! Discovery.WGPubKey (Discovery.localNode pe)
  /\ (Crypto.WGPubKey ann = Discovery.WGPubKey (Discovery.localNode pe) ->
      handleHello pe ann sender now entropy = (pe, [])).
Proof.
  split; [| split].
  - unfold handleHello.
    destruct (String.eqb_spec (Crypto.WGPubKey ann)
                (Discovery.WGPubKey (Discovery.localNode pe))) as [| Hne];
      [reflexivity |].
    match goal with
    | |- context [sendReply ?pe2 _ _ _] =>
      assert (Hstore :
        Discovery.peerStore pe2 !! Discovery.WGPubKey (Discovery.localNode pe)
        = Discovery.peerStore pe !! Discovery.WGPubKey (Discovery.localNode pe));
      [| cbv zeta; destruct (sendReply pe2 sender now entropy).2;
         exact Hstore]
    end.
    rewrite (updateTransitivePeers_self (withStore pe _)).
    cbn [withStore Discovery.peerStore Discovery.localNode].
    rewrite Update_afterUpdate, lookup_insert_ne; [reflexivity |].
    cbn [newPeerInfo WGPubKey]. exact Hne.
  - unfold lanReceive.
    destruct (Crypto.OpenEnvelope data key now) as [[env [a |]] [e |]];
      try reflexivity.
    destruct (String.eqb_spec (Crypto.WGPubKey a)
                (Discovery.WGPubKey (Discovery.localNode pe))) as [| Hne];
      [reflexivity |].
    rewrite Update_afterUpdate, lookup_insert_ne; [reflexivity |].
    cbn [newPeerInfo WGPubKey]. exact Hne.
  - intros Hself. unfold handleHello. rewrite Hself, String.eqb_refl. reflexivity.
Qed.

(** An entry updated at [now] stays so while known peers are merged at
    [now]. *)
Lemma updateTransitivePeers_fresh (pe : PeerExchange)
    (knownPeers : list Crypto.KnownPeer) (now : Time) (k m : string) :
  (exists p, Discovery.peerStore pe !! k = Some p
             /\ LastSeen p = now /\ WGPubKey p = k /\ m ∈ DiscoveredVia p) ->
  exists p, Discovery.peerStore (updateTransitivePeers pe knownPeers now) !! k
            = Some p
            /\ LastSeen p = now /\ WGPubKey p = k /\ m ∈ DiscoveredVia p.
Proof.
  unfold updateTransitivePeers. cbn [withStore Discovery.peerStore].
  set (local := Discovery.WGPubKey (Discovery.localNode pe)).
  generalize (Discovery.peerStore pe) as ps.
  induction knownPeers as [| kp kps IH]; intros ps Hp; cbn [foldl]; [exact Hp |].
  apply IH.
  destruct (String.eqb (Crypto.kp_WGPubKey kp) local); [exact Hp |].
  destruct Hp as (p & Hp & Hseen & Hkey & Hm).
  rewrite Update_afterUpdate. cbn [newPeerInfo WGPubKey].
  destruct (decide (k = Crypto.kp_WGPubKey kp)) as [<- | Hne].
  - rewrite lookup_insert_eq, Hp. eexists. split; [reflexivity |].
    cbn [afterUpdate]. split; [reflexivity |]. split; [exact Hkey |].
    apply mergePeer_via. left. exact Hm.
  - rewrite lookup_insert_ne by congruence. eauto.
Qed.

(** X14. A HELLO of another node is answered with what the node then
    knows. On a well-formed store, after the handler the sender is in the
    store, seen at the clock reading and tagged [dht]; the reply built is
    the announcement of the local node stamped with the clock reading in
    seconds, and its known peers list the sender itself. The handler asks
    the socket to write that reply, sealed as REPLY, to the address the
    HELLO came from. It logs a failure when the reply cannot be sealed, in
    which case it writes nothing, and when the write returns an error. It
    does nothing else. *)
Theorem handleHello_replies (pe : PeerExchange) (ann : Crypto.PeerAnnouncement)
    (sender : UDPAddr) (now : Time) (entropy : option (list byte)) :
  wellFormed (Discovery.peerStore pe) ->
  Crypto.WGPubKey ann <> Discovery.WGPubKey (Discovery.localNode pe) ->
  let r := handleHello pe ann sender now entropy in
  let reply := localAnnouncement r.1 now in
  (exists p, Discovery.peerStore r.1 !! Crypto.WGPubKey ann = Some p
             /\ LastSeen p = now /\ DHTMethod ∈ DiscoveredVia p)
  /\ (exists kp, kp ∈ Crypto.KnownPeers reply
                 /\ Crypto.kp_WGPubKey kp = Crypto.WGPubKey ann)
  /\ Crypto.WGPubKey reply = Discovery.WGPubKey (Discovery.localNode pe)
  /\ Crypto.Timestamp reply = ToUnix now
  /\ r.2 = match Crypto.SealEnvelope Crypto.MessageTypeReply reply
                   (Crypto.GossipKey (Keys (Discovery.config pe))) entropy with
           | (Some data, None) =>
             WriteToUDP data sender
             :: (if conn pe data sender
                 then [LogReplyFailed (UDPAddr_String (Some sender))]
                 else [])
           | _ => [LogReplyFailed (UDPAddr_String (Some sender))]
           end.
Proof.
  intros Hwf Hne r reply.
  set (pe1 := withStore pe
                (Update (Discovery.peerStore pe)
                   (newPeerInfo (Crypto.WGPubKey ann) (Crypto.MeshIP ann)
                      (resolvePeerEndpoint (Crypto.WGEndpoint ann) (Some sender))
                      (Crypto.RoutableNetworks ann))
                   DHTMethod now)).
  set (pe2 := updateTransitivePeers pe1 (Crypto.KnownPeers ann) now).
  assert (Hr : r = (pe2,
                    (sendReply pe2 sender now entropy).1
                    ++ match (sendReply pe2 sender now entropy).2 with
                       | None => []
                       | Some _ => [LogReplyFailed (UDPAddr_String (Some sender))]
                       end)).
  { subst r pe2 pe1. unfold handleHello.
    destruct (String.eqb_spec (Crypto.WGPubKey ann)
                (Discovery.WGPubKey (Discovery.localNode pe)));
      [contradiction |].
    cbv zeta. destruct (sendReply _ sender now entropy).2;
      [reflexivity | rewrite app_nil_r; reflexivity]. }
  assert (Hr1 : r.1 = pe2) by (rewrite Hr; reflexivity).
  assert (Hentry : exists p,
             Discovery.peerStore pe2 !! Crypto.WGPubKey ann = Some p
             /\ LastSeen p = now /\ WGPubKey p = Crypto.WGPubKey ann
             /\ DHTMethod ∈ DiscoveredVia p).
  { apply updateTransitivePeers_fresh. subst pe1.
    cbn [withStore Discovery.peerStore].
    rewrite Update_afterUpdate. cbn [newPeerInfo WGPubKey].
    rewrite lookup_insert_eq. eexists. split; [reflexivity |].
    split; [destruct (Discovery.peerStore pe !! Crypto.WGPubKey ann); reflexivity |].
    split.
    - destruct (Discovery.peerStore pe !! Crypto.WGPubKey ann) as [e |] eqn:He;
        [| reflexivity].
      cbn. apply (Hwf _ _ He).
    - apply afterUpdate_via. right. reflexivity. }
  subst reply. rewrite Hr1.
  split; [destruct Hentry as (p & Hp & Hseen & _ & Hvia); eauto |].
  split.
  { destruct Hentry as (p & Hp & Hseen & Hkey & _).
    exists (Crypto.mkKnownPeer (WGPubKey p) (MeshIP p) (Endpoint p)).
    split; [| exact Hkey].
    cbn [localAnnouncement Crypto.CreateAnnouncement Crypto.KnownPeers].
    apply getKnownPeers_elem. exists (Crypto.WGPubKey ann), p.
    split; [exact Hp |]. split; [| reflexivity].
    rewrite Hseen. unfold Minute, Second. lia. }
  split; [reflexivity |]. split; [reflexivity |].
  rewrite Hr. cbn [snd]. unfold sendReply.
  assert (Hcfg : Discovery.config pe2 = Discovery.config pe) by reflexivity.
  assert (Hconn : conn pe2 = conn pe) by reflexivity.
  rewrite Hcfg, Hconn.
  destruct (Crypto.SealEnvelope Crypto.MessageTypeReply (localAnnouncement pe2 now)
              (Crypto.GossipKey (Keys (Discovery.config pe))) entropy)
    as [[data |] [e |]]; try reflexivity.
  cbn [fst snd app]. destruct (conn pe data sender); reflexivity.
Qed.

(** X15. Whatever a peer advertises as its endpoint, parseable or not,
    the endpoint both listeners compute for a datagram with a source
    address is one that [net.SplitHostPort] parses, with a host that is not
    empty. *)
Theorem resolved_endpoint_parses (advertised x : string) (sender : UDPAddr) :
  IP sender = Some x -> ipText x ->
  (exists host port,
      SplitHostPort (resolvePeerEndpoint advertised (Some sender))
      = Some (host, port) /\ host <> "")
  /\ (exists host port,
        SplitHostPort (resolveEndpoint advertised (Some sender))
        = Some (host, port) /\ host <> "").
Proof.
  intros Hip (Hx & Hxl & Hxr).
  assert (Hdefault : SplitHostPort (JoinHostPort x (pretty DefaultWGPort))
                     = Some (x, pretty DefaultWGPort)).
  { apply Split_Join. repeat split; try assumption; reflexivity. }
  unfold resolvePeerEndpoint, resolveEndpoint. cbn [senderIP]. rewrite Hip.
  destruct (SplitHostPort advertised) as [[host port] |] eqn:Hsplit;
    [| split; exists x, (pretty DefaultWGPort); split; assumption].
  destruct (SplitHostPort_syntax _ _ _ Hsplit) as (Hhl & Hhr & Hport).
  assert (Hreflect : SplitHostPort (JoinHostPort x port) = Some (x, port)).
  { apply Split_Join. repeat split; try assumption; apply Hport. }
  destruct (unspecifiedHost host) eqn:Hwild.
  - split; [| exists x, port; split; assumption].
    destruct (String.eqb_spec x ""); [contradiction |]. cbn [negb].
    exists x, port; split; assumption.
  - assert (Hhost : host <> "") by (intros ->; discriminate).
    split; [| exists host, port; split; assumption].
    destruct (String.eqb_spec host ""); [contradiction |]. cbn [negb].
    exists host, port. split; [| exact Hhost].
    apply Split_Join. repeat split; try assumption; apply Hport.
Qed.

(** X16. A replayed packet is ignored by both listeners: when the
    packet decrypts under the gossip key to an announcement whose timestamp
    is more than ten minutes away from the clock reading, the peer exchange
    keeps its state, sends nothing and logs one line, and the LAN listener
    keeps its store. *)
Theorem stale_packet_ignored (pe : PeerExchange) (ps : PeerStore)
    (data : list byte) (sender : UDPAddr) (now : Time)
    (entropy : option (list byte)) (env : Crypto.Envelope) (pt : list byte)
    (ann : Crypto.PeerAnnouncement) :
  plausible now ->
  int64 (Crypto.Timestamp ann) ->
  Crypto.json_Unmarshal_envelope data = Some env ->
  Crypto.gcm_Open (Crypto.GossipKey (Keys (Discovery.config pe)))
    (Crypto.Nonce env) (Crypto.Ciphertext env) = Some pt ->
  Crypto.json_Unmarshal_announcement pt = Some ann ->
  10 * Minute < Z.abs (now - Crypto.Timestamp ann * Second) ->
  handleMessage pe data sender now entropy
  = (pe, [LogNonWgmeshPacket (UDPAddr_String (Some sender)) (length data)])
  /\ lanReceive (Discovery.localNode pe)
       (Crypto.GossipKey (Keys (Discovery.config pe))) ps data sender now
     = ps.
Proof.
  intros Hnow Hts Henv Hopen Hann Hold.
  destruct (OpenEnvelope_refuses data _ now env pt ann Hnow Hts Henv Hopen Hann Hold)
    as [e He].
  unfold handleMessage, lanReceive. rewrite He. split; reflexivity.
Qed.

End Listeners.


(** The theorems above at the test vectors. *)

Lemma handleHello_replies_witness :
  exists kp,
    kp ∈ Crypto.KnownPeers
           (Discovery.localAnnouncement
              (Discovery.handleHello (lib := TestVectors.lib)
                 TestVectors.exchangeA TestVectors.fresh TestVectors.addrB
                 TestVectors.now (Some TestVectors.nonce)).1
              TestVectors.now)
    /\ Crypto.kp_WGPubKey kp = "pubkey-of-B".
Proof.
  apply (handleHello_replies (lib := TestVectors.lib) TestVectors.exchangeA
           TestVectors.fresh TestVectors.addrB TestVectors.now
           (Some TestVectors.nonce)).
  - apply wellFormed_empty.
  - discriminate.
Defined.

(** A reply that the socket refuses is asked of it and the failure is
    logged; a reply that cannot be sealed is not written. *)
Example hello_reply_fails :
  (Discovery.handleHello (lib := TestVectors.lib) TestVectors.exchangeDown
     TestVectors.fresh TestVectors.addrB TestVectors.now
     (Some TestVectors.nonce)).2
  = [Discovery.WriteToUDP
       (TestVectors.packet Crypto.MessageTypeReply
          (Discovery.localAnnouncement
             (Discovery.handleHello (lib := TestVectors.lib) TestVectors.exchangeDown
                TestVectors.fresh TestVectors.addrB TestVectors.now
                (Some TestVectors.nonce)).1
             TestVectors.now))
       TestVectors.addrB;
     Discovery.LogReplyFailed "198.51.100.7:52592"]
  /\ (Discovery.handleHello (lib := TestVectors.lib) TestVectors.exchangeA
        TestVectors.fresh TestVectors.addrB TestVectors.now None).2
     = [Discovery.LogReplyFailed "198.51.100.7:52592"].
Proof. vm_compute. split; reflexivity. Qed.

Lemma resolved_endpoint_parses_witness :
  exists host port,
    GoNet.SplitHostPort
      (Discovery.resolvePeerEndpoint "no endpoint" (Some TestVectors.addrB))
    = Some (host, port) /\ host <> "".
Proof.
  apply (resolved_endpoint_parses "no endpoint" "198.51.100.7" TestVectors.addrB).
  - reflexivity.
  - split; [discriminate | split; reflexivity].
Defined.

Lemma stale_packet_ignored_witness :
  Discovery.handleMessage (lib := TestVectors.lib) TestVectors.exchangeA
    (TestVectors.packet Crypto.MessageTypeHello TestVectors.stale)
    TestVectors.addrB TestVectors.now (Some TestVectors.nonce)
  = (TestVectors.exchangeA,
     [Discovery.LogNonWgmeshPacket "198.51.100.7:52592"
        (length (TestVectors.packet Crypto.MessageTypeHello TestVectors.stale))]).
Proof.
  apply (stale_packet_ignored (lib := TestVectors.lib) TestVectors.exchangeA ∅
           (TestVectors.packet Crypto.MessageTypeHello TestVectors.stale)
           TestVectors.addrB TestVectors.now (Some TestVectors.nonce)
           (TestVectors.envelope Crypto.MessageTypeHello TestVectors.stale)
           (TestVectors.plaintext TestVectors.stale) TestVectors.stale);
    try (vm_compute; reflexivity);
    vm_compute; split; congruence.
Defined.

(** ** The envelope: what is accepted, and the messages a node builds *)

Section EnvelopeUse.
Context `{lib : Crypto.GoLib}.
Import Crypto Notions.

(** [aes.NewCipher] refuses keys of other sizes. *)
Lemma aes_NewCipher_length (key block : list byte) :
  aes_NewCipher key = Some block ->
  length key = 16%nat \/ length key = 24%nat \/ length key = 32%nat.
Proof.
  unfold aes_NewCipher.
  destruct (Nat.eqb_spec (length key) 16); [auto |].
  destruct (Nat.eqb_spec (length key) 24); [auto |].
  destruct (Nat.eqb_spec (length key) 32); [auto | discriminate].
Qed.

(** X17. [OpenEnvelope] returns an error and nothing else, or an envelope
    and an announcement and no error. What it returns is the envelope the
    packet decodes to, with a nonce of twelve bytes, and the announcement
    its ciphertext decrypts to under the key; the key has 16, 24 or 32
    bytes, the announcement carries the protocol tag [wgmesh-v1], and its
    timestamp is at most ten minutes away from the clock reading. *)
Theorem OpenEnvelope_outcome (data key : list byte) (now : GoTime.Time) :
  (exists e, OpenEnvelope data key now = (None, None, Some e))
  \/ (exists env ann,
        OpenEnvelope data key now = (Some env, Some ann, None)
        /\ json_Unmarshal_envelope data = Some env
        /\ length (Nonce env) = 12%nat
        /\ (length key = 16%nat \/ length key = 24%nat \/ length key = 32%nat)
        /\ (exists pt, gcm_Open key (Nonce env) (Ciphertext env) = Some pt
                       /\ json_Unmarshal_announcement pt = Some ann)
        /\ Protocol ann = "wgmesh-v1"
        /\ (GoTime.plausible now -> GoTime.int64 (Timestamp ann) ->
            Z.abs (now - Timestamp ann * GoTime.Second) <= 10 * GoTime.Minute)).
Proof.
  destruct (OpenEnvelope_total_or_nothing data key now)
    as [Herr | (env & ann & Hok)]; [left; exact Herr | right].
  exists env, ann. split; [exact Hok |].
  destruct (OpenEnvelope_accepted _ _ _ _ _ _ Hok)
    as (_ & Henv & Hnonce & Hpt & Hproto & Hfresh).
  split; [exact Henv |]. split; [exact Hnonce |].
  split.
  { unfold OpenEnvelope in Hok. rewrite Henv in Hok.
    destruct (negb (length (Nonce env) =? NonceSize)%nat); [discriminate |].
    destruct (aes_NewCipher key) as [block |] eqn:Hblock; [| discriminate].
    exact (aes_NewCipher_length _ _ Hblock). }
  split; [exact Hpt |]. split; [exact Hproto |].
  intros Hnow Hts. apply freshTimestamp_spec; assumption.
Qed.

(** X18. What a node builds with [CreateAnnouncement] and seals is
    accepted by every node that holds the key and whose clock is at most
    ten minutes behind the sender's or at most ten minutes less one second
    ahead of it: the timestamp is the sender's clock cut to whole seconds.
    The theorem relies on the contracts of the libraries at this payload,
    as the round trip of the envelope does. *)
Theorem created_announcement_accepted (messageType wgPubKey meshIP wgEndpoint : string)
    (routableNetworks : list string) (knownPeers : list KnownPeer)
    (key nonce : list byte) (sent received : GoTime.Time) (pt data : list byte) :
  let payload :=
    CreateAnnouncement wgPubKey meshIP wgEndpoint routableNetworks knownPeers
      sent in
  let envelope := mkEnvelope messageType nonce (gcm_Seal key nonce pt) in
  length key = 32%nat ->
  length nonce = NonceSize ->
  GoTime.plausible sent ->
  GoTime.plausible received ->
  - (10 * GoTime.Minute) <= received - sent <= 10 * GoTime.Minute - GoTime.Second ->
  json_Marshal_announcement payload = Some pt ->
  json_Unmarshal_announcement pt = Some payload ->
  gcm_Open key nonce (gcm_Seal key nonce pt) = Some pt ->
  json_Marshal_envelope envelope = Some data ->
  json_Unmarshal_envelope data = Some envelope ->
  SealEnvelope messageType payload key (Some nonce) = (Some data, None)
  /\ OpenEnvelope data key received = (Some envelope, Some payload, None).
Proof.
  intros payload envelope Hkey Hnonce Hsent Hrecv Hnear Hm Hu Hgcm Hme Hue.
  split.
  - unfold SealEnvelope.
    rewrite Hm, (aes_NewCipher_32 _ Hkey). cbn [cipher_NewGCM].
    fold envelope. rewrite Hme. reflexivity.
  - assert (Hts : Timestamp payload = sent / GoTime.Second) by reflexivity.
    unfold GoTime.plausible in Hsent, Hrecv. literals.
    assert (Hfloor : 0 <= sent - (sent / GoTime.Second) * GoTime.Second
                     < GoTime.Second).
    { unfold GoTime.Second. pose proof (Z.mod_pos_bound sent 1000000000).
      pose proof (Z.div_mod sent 1000000000 ltac:(lia)). lia. }
    assert (Hpos : 0 <= sent / GoTime.Second <= sent).
    { unfold GoTime.Second in *. split; [apply Z.div_pos; lia |].
      apply Z.div_le_upper_bound; lia. }
    apply (OpenEnvelope_accepts data key received envelope pt payload);
      try assumption; try reflexivity.
    + rewrite Hts. unfold GoTime.int64. literals. lia.
    + rewrite Hts. unfold GoTime.Minute, GoTime.Second in *. lia.
Qed.

End EnvelopeUse.

(** ** Key derivation: results, addresses and the rotating network ID *)

Section Derivations.
Context `{lib : Crypto.GoLib}.
Import Crypto.

(** [DeriveKeys] returns keys or an error, never both and never
    neither. *)
Lemma DeriveKeys_total_or_nothing (secret : string) :
  (exists e, DeriveKeys secret = (None, Some e))
  \/ (exists keys, DeriveKeys secret = (Some keys, None)).
Proof.
  unfold DeriveKeys.
  repeat match goal with
         | |- context [ match ?x with _ => _ end ] => destruct x
         end; eauto.
Qed.

(** X19. [DeriveKeys] returns an error and no keys, or keys and no error;
    keys are only derived from a secret of at least 16 bytes. The network
    ID is the first twenty bytes of the SHA-256 digest of the secret, the
    four keys are what HKDF delivers under their four salts, and the
    gossip port lies between 51821 and 52820. *)
Theorem DeriveKeys_outcome (secret : string) :
  (exists e, DeriveKeys secret = (None, Some e))
  \/ (exists keys,
        DeriveKeys secret = (Some keys, None)
        /\ (16 <= String.length secret)%nat
        /\ NetworkID keys = firstn 20 (sha256_Sum256 secret)
        /\ hkdf_read secret "wgmesh-gossip-v1" 32 = Some (GossipKey keys)
        /\ hkdf_read secret "wgmesh-subnet-v1" 2 = Some (MeshSubnet keys)
        /\ hkdf_read secret "wgmesh-mcast-v1" 4 = Some (MulticastID keys)
        /\ hkdf_read secret "wgmesh-wg-psk-v1" 32 = Some (PSK keys)
        /\ 51821 <= GossipPort keys <= 52820).
Proof.
  destruct (DeriveKeys_total_or_nothing secret) as [Herr | [keys Hok]];
    [left; exact Herr | right].
  exists keys. split; [exact Hok |].
  pose proof (DeriveKeys_port_range _ _ Hok) as Hport.
  unfold DeriveKeys, deriveHKDF in Hok.
  destruct (Nat.ltb_spec (String.length secret) MinSecretLength) as [| Hlen];
    [discriminate |].
  destruct (hkdf_read secret "wgmesh-gossip-v1" 32) as [gk |]; [| discriminate].
  destruct (hkdf_read secret "wgmesh-subnet-v1" 2) as [sn |]; [| discriminate].
  destruct (hkdf_read secret "wgmesh-mcast-v1" 4) as [mc |]; [| discriminate].
  destruct (hkdf_read secret "wgmesh-wg-psk-v1" 32) as [psk |]; [| discriminate].
  destruct (hkdf_read secret "wgmesh-gossip-port-v1" 2) as [pb |]; [| discriminate].
  injection Hok as <-. cbn. unfold MinSecretLength in Hlen. auto 10.
Qed.

(** [binary.BigEndian.Uint16] as arithmetic. *)
Lemma BigEndian_Uint16_value (b : list byte) :
  GoBinary.BigEndian_Uint16 b
  = 256 * GoBinary.byte_to_Z (nth 0 b Byte.x00)
    + GoBinary.byte_to_Z (nth 1 b Byte.x00).
Proof. unfold GoBinary.BigEndian_Uint16. apply lor_shiftl_8, byte_to_Z_range. Qed.

(** The last step of the derivations of a mesh address. *)
Lemma meshIPOfHash_range (meshSubnet hash : list byte) :
  exists hi lo,
    0 <= hi <= 255 /\ 0 <= lo <= 255 /\ 1 <= 256 * hi + lo <= 65534
    /\ meshIPOfHash meshSubnet hash
       = "10." +:+ pretty (GoBinary.byte_to_Z (nth 0 meshSubnet Byte.x00))
         +:+ "." +:+ pretty hi +:+ "." +:+ pretty lo.
Proof.
  unfold meshIPOfHash.
  set (raw := GoBinary.BigEndian_Uint16 (firstn 2 hash)).
  assert (Hraw : 0 <= raw <= 65535).
  { subst raw. rewrite BigEndian_Uint16_value.
    pose proof (byte_to_Z_range (nth 0 (firstn 2 hash) Byte.x00)).
    pose proof (byte_to_Z_range (nth 1 (firstn 2 hash) Byte.x00)). lia. }
  set (suffix := if raw =? 0 then 1 else if raw =? 65535 then 65534 else raw).
  assert (Hsuffix : 1 <= suffix <= 65534).
  { subst suffix. destruct (Z.eqb_spec raw 0); [lia |].
    destruct (Z.eqb_spec raw 65535); lia. }
  assert (Hlo : Z.land suffix 255 = suffix mod 256).
  { change 255 with (Z.ones 8). rewrite Z.land_ones by lia. reflexivity. }
  assert (Hhi : Z.land (Z.shiftr suffix 8) 255 = suffix / 256).
  { change 255 with (Z.ones 8).
    rewrite Z.land_ones, Z.shiftr_div_pow2 by lia. change (2 ^ 8) with 256.
    apply Z.mod_small. split; [apply Z.div_pos; lia |].
    apply Z.div_lt_upper_bound; lia. }
  rewrite Hlo, Hhi.
  exists (suffix / 256), (suffix mod 256).
  pose proof (Z.mod_pos_bound suffix 256 ltac:(lia)).
  pose proof (Z.div_mod suffix 256 ltac:(lia)).
  assert (0 <= suffix / 256 <= 255).
  { split; [apply Z.div_pos; lia |].
    apply Z.lt_succ_r, Z.div_lt_upper_bound; lia. }
  repeat split; try lia.
Qed.

(** X20. A derived mesh address, with or without a nonce, reads
    [10.s.h.l] in decimal, where [s] is the first byte of the mesh subnet
    and [h], [l] are bytes with [256*h + l] between 1 and 65534: the
    addresses [10.s.0.0] and [10.s.255.255] are never derived. *)
Theorem mesh_address_range (meshSubnet : list byte) (wgPubKey secret : string)
    (nonce : Z) :
  let subnet := GoBinary.byte_to_Z (nth 0 meshSubnet Byte.x00) in
  (exists hi lo,
      0 <= hi <= 255 /\ 0 <= lo <= 255 /\ 1 <= 256 * hi + lo <= 65534
      /\ DeriveMeshIP meshSubnet wgPubKey secret
         = "10." +:+ pretty subnet +:+ "." +:+ pretty hi +:+ "." +:+ pretty lo)
  /\ (exists hi lo,
        0 <= hi <= 255 /\ 0 <= lo <= 255 /\ 1 <= 256 * hi + lo <= 65534
        /\ Daemon.DeriveMeshIPWithNonce meshSubnet wgPubKey secret nonce
           = "10." +:+ pretty subnet +:+ "." +:+ pretty hi +:+ "." +:+ pretty lo)
  /\ 0 <= subnet <= 255.
Proof.
  intros subnet. split; [apply meshIPOfHash_range |].
  split; [apply meshIPOfHash_range |].
  pose proof (byte_to_Z_range (nth 0 meshSubnet Byte.x00)). subst subnet. lia.
Qed.

(** The hour of an instant after the epoch. *)
Lemma hour_of (t : GoTime.Time) :
  0 <= t -> Z.quot (GoTime.ToUnix t) 3600 = t / GoTime.Hour.
Proof.
  intros Ht. unfold GoTime.ToUnix, GoTime.Hour, GoTime.Minute, GoTime.Second.
  rewrite Z.quot_div_nonneg by (try apply Z.div_pos; lia).
  rewrite Z.div_div by lia. reflexivity.
Qed.

(** X21. The network ID of the DHT changes on the hour and only then. At
    a clock reading at least one hour after the epoch, the current ID is
    the digest of the secret, two bars and the number of whole hours since
    the epoch; it is the current ID of every instant of the same hour, and
    the previous ID is the current ID of every instant of the hour
    before. *)
Theorem networkID_rotation (secret : string) (now t : GoTime.Time) :
  GoTime.Hour <= now -> 0 <= t ->
  (GetCurrentAndPreviousNetworkIDs secret now).1
  = firstn 20 (sha256_Sum256 (secret +:+ "||" +:+ pretty (now / GoTime.Hour)))
  /\ (t / GoTime.Hour = now / GoTime.Hour ->
      (GetCurrentAndPreviousNetworkIDs secret t).1
      = (GetCurrentAndPreviousNetworkIDs secret now).1)
  /\ (t / GoTime.Hour = now / GoTime.Hour - 1 ->
      (GetCurrentAndPreviousNetworkIDs secret t).1
      = (GetCurrentAndPreviousNetworkIDs secret now).2).
Proof.
  intros Hnow Ht.
  assert (Hpos : 0 <= now) by (unfold GoTime.Hour, GoTime.Minute, GoTime.Second in Hnow; lia).
  unfold GetCurrentAndPreviousNetworkIDs, DeriveNetworkIDWithTime, GoTime.Add.
  cbn [fst snd].
  rewrite (hour_of now Hpos), (hour_of t Ht).
  rewrite (hour_of (now + -1 * GoTime.Hour)) by lia.
  replace ((now + -1 * GoTime.Hour) / GoTime.Hour) with (now / GoTime.Hour - 1).
  - split; [reflexivity |]. split; intros ->; reflexivity.
  - replace (now + -1 * GoTime.Hour) with (now + (-1) * GoTime.Hour) by lia.
    rewrite Z.div_add by (unfold GoTime.Hour, GoTime.Minute, GoTime.Second; lia).
    lia.
Qed.

End Derivations.

(** The theorems above at the test vectors. *)

Lemma created_announcement_accepted_witness :
  let sent := 1699999970 * GoTime.Second + 500000000 in
  let payload :=
    Crypto.CreateAnnouncement "pubkey-of-B" "10.7.0.9" "0.0.0.0:51820" [] []
      sent in
  Crypto.SealEnvelope (lib := TestVectors.lib) Crypto.MessageTypeHello payload
    TestVectors.key (Some TestVectors.nonce)
  = (Some (TestVectors.packet Crypto.MessageTypeHello TestVectors.fresh), None)
  /\ Crypto.OpenEnvelope (lib := TestVectors.lib)
       (TestVectors.packet Crypto.MessageTypeHello TestVectors.fresh)
       TestVectors.key TestVectors.now
     = (Some (TestVectors.envelope Crypto.MessageTypeHello TestVectors.fresh),
        Some payload, None).
Proof.
  apply (created_announcement_accepted (lib := TestVectors.lib)
           Crypto.MessageTypeHello "pubkey-of-B" "10.7.0.9" "0.0.0.0:51820" [] []
           TestVectors.key TestVectors.nonce
           (1699999970 * GoTime.Second + 500000000) TestVectors.now
           (TestVectors.plaintext TestVectors.fresh)
           (TestVectors.packet Crypto.MessageTypeHello TestVectors.fresh));
    try (vm_compute; reflexivity);
    vm_compute; split; congruence.
Defined.

Lemma networkID_rotation_witness :
  (Crypto.GetCurrentAndPreviousNetworkIDs (lib := TestVectors.lib)
     "correct horse battery" (TestVectors.now - GoTime.Hour)).1
  = (Crypto.GetCurrentAndPreviousNetworkIDs (lib := TestVectors.lib)
       "correct horse battery" TestVectors.now).2.
Proof.
  destruct (networkID_rotation (lib := TestVectors.lib) "correct horse battery"
              TestVectors.now (TestVectors.now - GoTime.Hour))
    as (_ & _ & Hprevious).
  - vm_compute. discriminate.
  - vm_compute. discriminate.
  - apply Hprevious. vm_compute. reflexivity.
Defined.

(** ** Configuration: the secret, the defaults and the listen port *)

Section ConfigurationFacts.
Context `{lib : Crypto.GoLib}.
Import GoStrings GoNet Daemon Notions.

(** Boolean tests of byte values as facts of arithmetic. *)
Ltac bools :=
  repeat match goal with
         | H : (_ && _) = true |- _ => apply andb_true_iff in H as [? ?]
         | H : (_ || _) = true |- _ => apply orb_true_iff in H as [? | ?]
         | H : (_ =? _)%nat = true |- _ => apply Nat.eqb_eq in H
         | H : (_ <=? _)%nat = true |- _ => apply Nat.leb_le in H
         end.

(** The bytes of a white space rune are white space of ASCII or lie
    outside ASCII. *)
Lemma spaceRune_bytes (u : string) (c : ascii) :
  spaceRune u = true -> contains_byte u c = true ->
  asciiSpace c = true \/ (128 <= nat_of_ascii c)%nat.
Proof.
  destruct u as [| a [| b [| d [| ? ?]]]]; cbn [spaceRune]; try discriminate;
    intros Hspace; rewrite ?contains_byte_cons; intros Hin;
    repeat (apply orb_true_iff in Hin as [Hin | Hin];
            [apply Ascii.eqb_eq in Hin; subst |]);
    try discriminate Hin.
  - left. exact Hspace.
  - right. unfold isSpace2 in Hspace. bools; lia.
  - right. unfold isSpace2 in Hspace. bools; lia.
  - right. unfold isSpace3 in Hspace. cbv zeta in Hspace. bools; lia.
  - right. unfold isSpace3 in Hspace. cbv zeta in Hspace. bools; lia.
  - right. unfold isSpace3 in Hspace. cbv zeta in Hspace. bools; lia.
Qed.

(** A byte of ASCII that is no white space stops the trimming of the
    end. *)
Lemma TrimRightSpace_stops (a q : string) (c : ascii) :
  asciiSpace c = false -> (nat_of_ascii c < 128)%nat ->
  TrimRightSpace (a +:+ String c q) = a +:+ String c (TrimRightSpace q).
Proof.
  intros Hc Hascii.
  assert (Hno : forall u, contains_byte u c = true -> spaceRune u = false).
  { intros u Hin. destruct (spaceRune u) eqn:Hu; [| reflexivity].
    destruct (spaceRune_bytes u c Hu Hin); [congruence | lia]. }
  induction a as [| x a IH].
  - rewrite !append_nil_l. cbn [TrimRightSpace]. cbv zeta.
    rewrite Hno; [reflexivity |].
    rewrite contains_byte_cons, Ascii.eqb_refl. reflexivity.
  - rewrite !append_cons. cbn [TrimRightSpace]. cbv zeta.
    rewrite IH. rewrite Hno; [reflexivity |].
    rewrite contains_byte_cons, contains_byte_app, contains_byte_cons,
      Ascii.eqb_refl.
    rewrite orb_true_r, orb_true_r. reflexivity.
Qed.

(** [parseSecret] on a URI: the part after the first slash, up to the first
    question mark. *)
Lemma parseSecret_uri (version s : string) :
  contains_byte version "/" = false ->
  contains_byte s "?" = false ->
  (TrimRightSpace s = s ->
   parseSecret (URIPrefix +:+ version +:+ "/" +:+ s) = s)
  /\ (forall q,
        parseSecret (URIPrefix +:+ version +:+ "/" +:+ s +:+ "?" +:+ q) = s).
Proof.
  intros Hversion Hs.
  assert (Hsplit : forall rest,
             SplitN2 (version +:+ String "/" rest) "/" = [version; rest]).
  { intros rest. unfold SplitN2.
    rewrite (IndexByte_app_first version rest "/" Hversion).
    rewrite take_app_length, Nat.add_1_r, drop_S_app. reflexivity. }
  assert (Hparse : forall rest rest',
             TrimRightSpace (version +:+ String "/" rest)
             = version +:+ String "/" rest' ->
             parseSecret (URIPrefix +:+ version +:+ "/" +:+ rest)
             = match IndexByte rest' "?" with
               | Some idx => take idx rest'
               | None => rest'
               end).
  { intros rest rest' Htrim. unfold parseSecret, TrimSpace. cbv zeta.
    change (TrimLeftSpace (URIPrefix +:+ version +:+ "/" +:+ rest))
      with ("wgmesh:/" +:+ String "/" (version +:+ String "/" rest)).
    rewrite (TrimRightSpace_stops "wgmesh:/" _ "/") by (first [reflexivity | apply Nat.ltb_lt; reflexivity]).
    rewrite Htrim.
    change (HasPrefix ("wgmesh:/" +:+ String "/" (version +:+ String "/" rest'))
              URIPrefix) with true.
    cbv iota.
    change (TrimPrefix ("wgmesh:/" +:+ String "/" (version +:+ String "/" rest'))
              URIPrefix) with (version +:+ String "/" rest').
    rewrite Hsplit. reflexivity. }
  split.
  - intros Htrim.
    rewrite (Hparse s s).
    + apply IndexByte_None in Hs. rewrite Hs. reflexivity.
    + rewrite (TrimRightSpace_stops version s "/") by (first [reflexivity | apply Nat.ltb_lt; reflexivity]).
      rewrite Htrim. reflexivity.
  - intros q.
    change (URIPrefix +:+ version +:+ "/" +:+ s +:+ "?" +:+ q)
      with (URIPrefix +:+ version +:+ "/" +:+ (s +:+ String "?" q)).
    rewrite (Hparse (s +:+ String "?" q) (s +:+ String "?" (TrimRightSpace q))).
    + rewrite (IndexByte_app_first s _ "?" Hs), take_app_length. reflexivity.
    + rewrite (TrimRightSpace_stops version _ "/") by (first [reflexivity | apply Nat.ltb_lt; reflexivity]).
      rewrite (TrimRightSpace_stops s q "?") by (first [reflexivity | apply Nat.ltb_lt; reflexivity]).
      reflexivity.
Qed.

(** X22. [parseSecret] undoes [FormatSecretURI]: for a secret without
    question mark that does not end in white space, the URI printed for
    the secret is parsed back to the secret, and so is that URI followed by
    a question mark and any query. *)
Theorem parseSecret_FormatSecretURI (s q : string) :
  contains_byte s "?" = false ->
  TrimRightSpace s = s ->
  parseSecret (FormatSecretURI s) = s
  /\ parseSecret (FormatSecretURI s +:+ "?" +:+ q) = s.
Proof.
  intros Hs Htrim.
  destruct (parseSecret_uri URIVersion s eq_refl Hs) as [Hplain Hquery].
  split; [exact (Hplain Htrim) | exact (Hquery q)].
Qed.

(** X23. [NewConfig] fails exactly when [DeriveKeys] fails on the parsed
    secret, with that error wrapped. Otherwise the configuration holds the
    parsed secret, of at least 16 bytes, and the keys derived from it; an
    empty interface name becomes [wg0], a listen port 0 becomes 51820 and an
    empty log level becomes [info], so that none of the three is empty or
    zero; the other options are taken as given. *)
Theorem NewConfig_outcome (opts : DaemonOpts) :
  (exists e,
      NewConfig opts = (None, Some (ErrDeriveKeys e))
      /\ Crypto.DeriveKeys (parseSecret (o_Secret opts)) = (None, Some e))
  \/ (exists cfg,
        NewConfig opts = (Some cfg, None)
        /\ Secret cfg = parseSecret (o_Secret opts)
        /\ Crypto.DeriveKeys (Secret cfg) = (Some (Keys cfg), None)
        /\ (16 <= String.length (Secret cfg))%nat
        /\ InterfaceName cfg
           = (if String.eqb (o_InterfaceName opts) "" then "wg0"
              else o_InterfaceName opts)
        /\ WGListenPort cfg
           = (if o_WGListenPort opts =? 0 then 51820 else o_WGListenPort opts)
        /\ LogLevel cfg
           = (if String.eqb (o_LogLevel opts) "" then "info" else o_LogLevel opts)
        /\ AdvertiseRoutes cfg = o_AdvertiseRoutes opts
        /\ InterfaceName cfg <> "" /\ WGListenPort cfg <> 0 /\ LogLevel cfg <> "").
Proof.
  unfold NewConfig.
  destruct (DeriveKeys_total_or_nothing (parseSecret (o_Secret opts)))
    as [[e He] | [keys Hkeys]].
  - left. exists e. rewrite He. split; reflexivity.
  - right. rewrite Hkeys. eexists. split; [reflexivity |].
    cbn [Secret Keys InterfaceName WGListenPort LogLevel AdvertiseRoutes].
    split; [reflexivity |]. split; [exact Hkeys |].
    split.
    { destruct (Nat.ltb_spec (String.length (parseSecret (o_Secret opts)))
                  Crypto.MinSecretLength) as [Hshort | Hlong].
      - rewrite (DeriveKeys_short_secret _ Hshort) in Hkeys. discriminate.
      - exact Hlong. }
    split; [reflexivity |]. split; [reflexivity |]. split; [reflexivity |].
    split; [reflexivity |].
    split; [destruct (String.eqb_spec (o_InterfaceName opts) ""); [discriminate | assumption] |].
    split; [destruct (Z.eqb_spec (o_WGListenPort opts) 0); [discriminate | assumption] |].
    destruct (String.eqb_spec (o_LogLevel opts) ""); [discriminate | assumption].
Qed.

(** X24. A daemon started with the URI of a secret is configured as one
    started with the secret itself: for a secret without question mark
    and surrounding white space that is not itself a URI, [NewConfig]
    returns the same result for the secret, for its URI and for its URI
    with a query. *)
Theorem NewConfig_uri_or_raw (s q iface : string) (port : Z)
    (routes : list string) (level : string) :
  contains_byte s "?" = false ->
  TrimLeftSpace s = s ->
  TrimRightSpace s = s ->
  HasPrefix s URIPrefix = false ->
  NewConfig (mkDaemonOpts (FormatSecretURI s) iface port routes level)
  = NewConfig (mkDaemonOpts s iface port routes level)
  /\ NewConfig
       (mkDaemonOpts (FormatSecretURI s +:+ "?" +:+ q) iface port routes level)
     = NewConfig (mkDaemonOpts s iface port routes level).
Proof.
  intros Hs Hleft Hright Hraw.
  destruct (parseSecret_uri URIVersion s eq_refl Hs) as [Hplain Hquery].
  assert (Hself : parseSecret s = s).
  { unfold parseSecret, TrimSpace. cbv zeta. rewrite Hleft, Hright, Hraw.
    reflexivity. }
  unfold NewConfig. cbn [o_Secret].
  change (parseSecret (FormatSecretURI s))
    with (parseSecret (URIPrefix +:+ URIVersion +:+ "/" +:+ s)).
  change (parseSecret (FormatSecretURI s +:+ "?" +:+ q))
    with (parseSecret (URIPrefix +:+ URIVersion +:+ "/" +:+ s +:+ "?" +:+ q)).
  rewrite (Hplain Hright), (Hquery q), Hself. split; reflexivity.
Qed.

(** The loop of [findAvailablePort] returns the first port of its range
    that the probe finds free. *)
Lemma findAvailablePortLoop_first (inUse : Z -> bool) (bound : Z) (fuel : nat) :
  forall port,
    - 2 ^ 63 <= port -> bound < 2 ^ 63 -> bound - port < Z.of_nat fuel ->
    let r := findAvailablePortLoop inUse fuel port bound in
    (port <= r < bound /\ inUse r = false
     /\ forall p, port <= p < r -> inUse p = true)
    \/ (r = 0 /\ forall p, port <= p < bound -> inUse p = true).
Proof.
  induction fuel as [| fuel IH]; intros port Hlo Hhi Hfuel r;
    [right; split; [reflexivity | intros p Hp; cbn in Hfuel; lia] |].
  subst r. cbn [findAvailablePortLoop].
  destruct (Z.ltb_spec port bound) as [Hlt | Hge];
    [| right; split; [reflexivity | intros p Hp; lia]].
  destruct (inUse port) eqn:Hport; cbn [negb].
  - assert (Hwrap : GoTime.wrap64 (port + 1) = port + 1).
    { unfold GoTime.wrap64. literals. rewrite Z.mod_small; lia. }
    rewrite Hwrap.
    destruct (IH (port + 1)) as [(Hr & Hfree & Hbefore) | (Hr & Hall)];
      try lia.
    + left. split; [lia |]. split; [exact Hfree |].
      intros p Hp. destruct (Z.eq_dec p port) as [-> | Hne];
        [exact Hport | apply Hbefore; lia].
    + right. split; [exact Hr |].
      intros p Hp. destruct (Z.eq_dec p port) as [-> | Hne];
        [exact Hport | apply Hall; lia].
  - left. split; [lia |]. split; [exact Hport |]. intros p Hp. lia.
Qed.

(** X25. The listen port [setupWireGuard] settles on, for a configured
    port between 1 and 65535: the first port from the configured one
    upwards that the probe finds free, among the configured port and the
    hundred ports after it; the function fails exactly when the probe finds
    all of these in use. *)
Theorem setupWireGuard_port_first_free (inUse : Z -> bool) (listenPort : Z) :
  0 < listenPort < 2 ^ 16 ->
  match setupWireGuard_port inUse listenPort with
  | Some port =>
    listenPort <= port <= listenPort + 100
    /\ inUse port = false
    /\ forall p, listenPort <= p < port -> inUse p = true
  | None => forall p, listenPort <= p <= listenPort + 100 -> inUse p = true
  end.
Proof.
  intros Hport. literals. unfold setupWireGuard_port.
  destruct (inUse listenPort) eqn:Hfirst;
    [| split; [lia |]; split; [exact Hfirst | intros p Hp; lia]].
  assert (Hwrap : GoTime.wrap64 (listenPort + 1) = listenPort + 1).
  { unfold GoTime.wrap64. literals. rewrite Z.mod_small; lia. }
  assert (Hbound : GoTime.wrap64 (listenPort + 1 + 100) = listenPort + 101).
  { unfold GoTime.wrap64. literals. rewrite Z.mod_small; lia. }
  unfold findAvailablePort. rewrite Hwrap, Hbound.
  destruct (findAvailablePortLoop_first inUse (listenPort + 101) 101
              (listenPort + 1))
    as [(Hr & Hfree & Hbefore) | (Hr & Hall)]; try (literals; lia).
  - destruct (Z.eqb_spec
                (findAvailablePortLoop inUse 101 (listenPort + 1) (listenPort + 101))
                0) as [Hzero | _]; [lia |].
    split; [lia |]. split; [exact Hfree |].
    intros p Hp. destruct (Z.eq_dec p listenPort) as [-> | Hne];
      [exact Hfirst | apply Hbefore; lia].
  - rewrite Hr. cbn.
    intros p Hp. destruct (Z.eq_dec p listenPort) as [-> | Hne];
      [exact Hfirst | apply Hall; lia].
Qed.

(** Decimal numerals hold digits and a minus sign, nothing else. *)
Lemma pretty_N_go_nob (c : ascii) (x : N) :
  (forall n, pretty_N_char n <> c) ->
  forall s, contains_byte s c = false ->
            contains_byte (pretty_N_go x s) c = false.
Proof.
  intros Hc. induction (N.lt_wf_0 x) as [x _ IH]. intros s Hs.
  destruct (N.eq_dec x 0%N) as [-> | Hx]; [rewrite pretty_N_go_0; exact Hs |].
  rewrite pretty_N_go_step by lia.
  apply IH; [apply N.div_lt; lia |].
  rewrite contains_byte_cons, Hs, orb_false_r. apply Ascii.eqb_neq, Hc.
Qed.

Lemma pretty_Z_nob (c : ascii) (z : Z) :
  (forall n, pretty_N_char n <> c) -> c <> "-"%char ->
  contains_byte (pretty z) c = false.
Proof.
  intros Hc Hminus.
  assert (Hzero : contains_byte "0" c = false).
  { rewrite contains_byte_cons, orb_false_r. apply Ascii.eqb_neq, (Hc 0%N). }
  assert (Hpos : forall p : positive, contains_byte (pretty p) c = false).
  { intros p. unfold pretty, pretty_positive, pretty, pretty_N.
    destruct (decide (N.pos p = 0%N)); [exact Hzero |].
    apply pretty_N_go_nob; [exact Hc | reflexivity]. }
  destruct z as [| p | p]; unfold pretty, pretty_Z; [exact Hzero | apply Hpos |].
  change ("-" +:+ pretty p) with (String "-" (pretty p)).
  rewrite contains_byte_cons, Hpos, orb_false_r.
  apply Ascii.eqb_neq. congruence.
Qed.

Lemma pretty_Z_port (z : Z) :
  contains_byte (pretty z) ":" = false
  /\ contains_byte (pretty z) "[" = false
  /\ contains_byte (pretty z) "]" = false.
Proof.
  repeat split; apply pretty_Z_nob; try discriminate;
    intros n; unfold pretty_N_char; repeat case_match; discriminate.
Qed.

(** X26. The endpoint [setLocalWGEndpoint] advertises is the wildcard
    host with the listen port in decimal, whatever the port; so both
    listeners of a peer that receives it in a datagram from the address
    [x] record [x] with that port. Nothing else of the daemon changes:
    configuration, peer store and the other four fields of the local node
    are as before. *)
Theorem local_endpoint_reflected (d : Daemon) (sender : UDPAddr) (x : string) :
  IP sender = Some x -> x <> "" ->
  let d' := setLocalWGEndpoint d in
  let port := pretty (WGListenPort (config d)) in
  ln_WGEndpoint (localNode d') = "0.0.0.0:" +:+ port
  /\ SplitHostPort (ln_WGEndpoint (localNode d')) = Some ("0.0.0.0", port)
  /\ Discovery.resolvePeerEndpoint (ln_WGEndpoint (localNode d')) (Some sender)
     = JoinHostPort x port
  /\ Discovery.resolveEndpoint (ln_WGEndpoint (localNode d')) (Some sender)
     = JoinHostPort x port
  /\ config d' = config d
  /\ peerStore d' = peerStore d
  /\ ln_WGPubKey (localNode d') = ln_WGPubKey (localNode d)
  /\ ln_WGPrivateKey (localNode d') = ln_WGPrivateKey (localNode d)
  /\ ln_MeshIP (localNode d') = ln_MeshIP (localNode d)
  /\ ln_RoutableNetworks (localNode d') = ln_RoutableNetworks (localNode d).
Proof.
  intros Hip Hx d' port.
  destruct (pretty_Z_port (WGListenPort (config d))) as (Hc & Hl & Hr).
  fold port in Hc, Hl, Hr.
  assert (Hsplit : SplitHostPort ("0.0.0.0:" +:+ port) = Some ("0.0.0.0", port)).
  { apply (SplitHostPort_plain "0.0.0.0" port). repeat split; try assumption; reflexivity. }
  assert (Hend : ln_WGEndpoint (localNode d') = "0.0.0.0:" +:+ port) by reflexivity.
  rewrite Hend.
  split; [reflexivity |]. split; [exact Hsplit |].
  split; [exact (resolvePeerEndpoint_unspecified _ _ _ _ _ Hsplit eq_refl Hip Hx) |].
  split; [exact (resolveEndpoint_unspecified _ _ _ _ _ Hsplit eq_refl Hip) |].
  repeat split.
Qed.

End ConfigurationFacts.

(** The theorems above at the test vectors. *)

Lemma parseSecret_FormatSecretURI_witness :
  Daemon.parseSecret (Daemon.FormatSecretURI "correct horse battery")
  = "correct horse battery"
  /\ Daemon.parseSecret
       (Daemon.FormatSecretURI "correct horse battery" +:+ "?" +:+ "routes=10.0.0.0/8 ")
     = "correct horse battery".
Proof.
  apply (parseSecret_FormatSecretURI "correct horse battery" "routes=10.0.0.0/8 ");
    reflexivity.
Defined.

Lemma NewConfig_uri_or_raw_witness :
  Daemon.NewConfig (lib := TestVectors.lib)
    (Daemon.mkDaemonOpts (Daemon.FormatSecretURI "correct horse battery") "" 0
       [] "")
  = Daemon.NewConfig (lib := TestVectors.lib)
      (Daemon.mkDaemonOpts "correct horse battery" "" 0 [] "").
Proof.
  apply (NewConfig_uri_or_raw (lib := TestVectors.lib) "correct horse battery"
           "" "" 0 [] ""); reflexivity.
Defined.

Lemma setupWireGuard_port_first_free_witness :
  match Daemon.setupWireGuard_port (fun p => p <? 51823) 51820 with
  | Some port =>
    51820 <= port <= 51820 + 100
    /\ (port <? 51823) = false
    /\ forall p, 51820 <= p < port -> (p <? 51823) = true
  | None => forall p, 51820 <= p <= 51820 + 100 -> (p <? 51823) = true
  end.
Proof.
  apply (setupWireGuard_port_first_free (fun p => p <? 51823) 51820).
  vm_compute. split; reflexivity.
Defined.

Lemma local_endpoint_reflected_witness :
  Discovery.resolvePeerEndpoint
    (Daemon.ln_WGEndpoint
       (Daemon.localNode (Daemon.setLocalWGEndpoint TestVectors.daemonB)))
    (Some TestVectors.addrB)
  = GoNet.JoinHostPort "198.51.100.7" "51820".
Proof.
  apply (local_endpoint_reflected TestVectors.daemonB TestVectors.addrB
           "198.51.100.7").
  - reflexivity.
  - discriminate.
Defined.

(** ** DHT discovery: contacting a peer *)

Section Contact.
Import GoTime Discovery.

(** The test of the last contact, without the saturation of [Sub]. *)
Lemma recent_test (now lastContact : Time) :
  (Since now lastContact <? 60 * Second) = (now - lastContact <? 60 * Second).
Proof.
  unfold Since. apply Sub_below.
  unfold minDuration, maxDuration, Second. literals. lia.
Qed.

(** X27. [contactPeer] does not contact an address twice within a
    minute. After a call that started an exchange with an address, the
    address is recorded with the clock reading of that call; every call
    for it less than sixty seconds later does nothing, and does not move
    the recorded instant; a call sixty seconds later or more starts an
    exchange again. *)
Theorem contactPeer_debounce (d d' : DHTDiscovery) (addrStr : string)
    (now : Time) (exchange : option Daemon.PeerInfo) (evs : list DHTEvent) :
  contactPeer d addrStr now exchange = Some (d', evs) ->
  ExchangeWithPeer addrStr ∈ evs ->
  contactedPeers d' !! addrStr = Some now
  /\ (forall again exchange',
        again - now < 60 * Second ->
        contactPeer d' addrStr again exchange' = Some (d', []))
  /\ (forall again,
        60 * Second <= again - now ->
        exists d'',
          contactPeer d' addrStr again None
          = Some (d'', [ExchangeWithPeer addrStr])
          /\ contactedPeers d'' !! addrStr = Some again).
Proof.
  unfold contactPeer. intros Hfirst Hevent.
  destruct (String.eqb addrStr (WGEndpoint (dht_localNode d))) eqn:Hself.
  { injection Hfirst as _ <-. apply elem_of_nil in Hevent. contradiction. }
  destruct (match contactedPeers d !! addrStr with
            | Some lastContact => Since now lastContact <? 60 * Second
            | None => false
            end).
  { injection Hfirst as _ <-. apply elem_of_nil in Hevent. contradiction. }
  assert (Hd' : d' = mkDHTDiscovery (dht_localNode d)
                       (<[addrStr := now]> (contactedPeers d))).
  { destruct exchange as [peerInfo |].
    - destruct (String.length (Daemon.WGPubKey peerInfo) <? 8)%nat;
        [discriminate |].
      injection Hfirst as <- _. reflexivity.
    - injection Hfirst as <- _. reflexivity. }
  subst d'. cbn [dht_localNode contactedPeers].
  rewrite Hself, lookup_insert_eq.
  split; [reflexivity |].
  split.
  - intros again exchange' Hsoon. rewrite recent_test.
    destruct (Z.ltb_spec (again - now) (60 * Second)); [reflexivity | lia].
  - intros again Hlate. rewrite recent_test.
    destruct (Z.ltb_spec (again - now) (60 * Second)); [lia |].
    eexists. split; [reflexivity |]. cbn [contactedPeers].
    apply lookup_insert_eq.
Qed.

(** X28. The outcomes of [contactPeer] when the exchange would return a
    peer. It does nothing for the endpoint of the local node and for an
    address contacted less than sixty seconds ago. Otherwise it records
    the contact and starts the exchange; when the public key of the peer
    has at least eight bytes it then merges the peer into the store under
    the method [dht], and for a shorter key it panics at the log line that
    slices the first eight bytes of the key, before the store is
    updated. *)
Theorem contactPeer_outcome (d : DHTDiscovery) (addrStr : string) (now : Time)
    (peerInfo : Daemon.PeerInfo) :
  let skipped :=
    addrStr = WGEndpoint (dht_localNode d)
    \/ exists lastContact,
         contactedPeers d !! addrStr = Some lastContact
         /\ now - lastContact < 60 * Second in
  match contactPeer d addrStr now (Some peerInfo) with
  | None =>
    ~ skipped /\ (String.length (Daemon.WGPubKey peerInfo) < 8)%nat
  | Some (d', []) => skipped /\ d' = d
  | Some (d', evs) =>
    ~ skipped
    /\ (8 <= String.length (Daemon.WGPubKey peerInfo))%nat
    /\ evs = [ExchangeWithPeer addrStr; UpdatePeerStore peerInfo DHTMethod]
    /\ contactedPeers d' = <[addrStr := now]> (contactedPeers d)
    /\ dht_localNode d' = dht_localNode d
  end.
Proof.
  intros skipped. unfold contactPeer.
  destruct (String.eqb_spec addrStr (WGEndpoint (dht_localNode d))) as [| Hne];
    [split; [left; assumption | reflexivity] |].
  destruct (contactedPeers d !! addrStr) as [lastContact |] eqn:Hlast.
  - rewrite recent_test.
    destruct (Z.ltb_spec (now - lastContact) (60 * Second)) as [Hsoon | Hlate].
    + split; [| reflexivity]. right. exists lastContact.
      split; [reflexivity | assumption].
    + assert (Hnot : ~ skipped).
      { intros [Hself | (last & Hlast' & Hsoon)]; [contradiction |].
        injection Hlast' as <-. lia. }
      destruct (Nat.ltb_spec (String.length (Daemon.WGPubKey peerInfo)) 8);
        [split; assumption |].
      repeat split; assumption.
  - assert (Hnot : ~ skipped).
    { intros [Hself | (last & Hlast' & _)]; [contradiction | discriminate]. }
    destruct (Nat.ltb_spec (String.length (Daemon.WGPubKey peerInfo)) 8);
      [split; assumption |].
    repeat split; assumption.
Qed.

End Contact.

(** ** Dandelion: the length of the stem *)

Section Dandelion.
Import GoTime Privacy Notions.

(** What [HandleAnnounce] hands to the stem callback. *)
Lemma HandleAnnounce_stem (d : DandelionRouter) (msg m : DandelionAnnounce)
    (draw : bool) (relay : PeerInfo) :
  Stem m relay ∈ HandleAnnounce d msg draw ->
  m = nextHop msg /\ HopCount m < MaxStemHops /\ draw = false
  /\ onStem d = true
  /\ exists e, epoch d = Some e /\ relay ∈ RelayPeers e.
Proof.
  unfold HandleAnnounce, ShouldFluff.
  destruct (Z.leb_spec MaxStemHops (HopCount (nextHop msg))) as [Hmax | Hmax].
  { intros Hin. apply elem_of_cons in Hin as [Hin | Hin]; [discriminate |].
    destruct (onFluff d); [apply list_elem_of_singleton in Hin; discriminate |].
    apply elem_of_nil in Hin. contradiction. }
  destruct draw.
  { intros Hin. apply elem_of_cons in Hin as [Hin | Hin]; [discriminate |].
    destruct (onFluff d); [apply list_elem_of_singleton in Hin; discriminate |].
    apply elem_of_nil in Hin. contradiction. }
  destruct (epoch d) as [e |] eqn:He.
  2:{ intros Hin. apply elem_of_cons in Hin as [Hin | Hin]; [discriminate |].
      destruct (onFluff d); [apply list_elem_of_singleton in Hin; discriminate |].
      apply elem_of_nil in Hin. contradiction. }
  destruct (RelayPeers e) as [| first rest] eqn:Hpeers.
  { intros Hin. apply elem_of_cons in Hin as [Hin | Hin]; [discriminate |].
    destruct (onFluff d); [apply list_elem_of_singleton in Hin; discriminate |].
    apply elem_of_nil in Hin. contradiction. }
  intros Hin. apply elem_of_cons in Hin as [Hin | Hin]; [discriminate |].
  destruct (onStem d); [| apply elem_of_nil in Hin; contradiction].
  apply list_elem_of_singleton in Hin. injection Hin as -> ->.
  split; [reflexivity |]. split; [exact Hmax |]. split; [reflexivity |].
  split; [reflexivity |].
  exists e. split; [reflexivity |]. rewrite Hpeers.
  apply list_elem_of_In.
  apply (nth_In (first :: rest) first).
  assert (Hhop : 0 <= HopCount (nextHop msg))
    by (cbn [nextHop HopCount]; apply Z.mod_pos_bound; lia).
  set (len := Z.of_nat (length (first :: rest))).
  assert (Hlen : 0 < len) by (subst len; cbn [length]; lia).
  pose proof (Z.rem_bound_pos (HopCount (nextHop msg)) len Hhop Hlen) as Hrem.
  apply Nat2Z.inj_lt. rewrite Z2Nat.id by apply Hrem. apply Hrem.
Qed.

(** X29. What [HandleAnnounce] does with a message. The message handed to
    a callback is the message received with its hop count raised by one
    (modulo 256). The stem callback is only called with a hop count below
    four, after a draw against fluffing, and with a relay peer of the
    current epoch; the two callbacks are never both called; from hop count
    four on the message is fluffed; and with both callbacks set exactly
    one of them is called. *)
Theorem HandleAnnounce_effects (d : DandelionRouter) (msg : DandelionAnnounce)
    (draw : bool) :
  let evs := HandleAnnounce d msg draw in
  (forall m relay,
      Stem m relay ∈ evs ->
      m = nextHop msg /\ HopCount m < 4 /\ draw = false
      /\ exists e, epoch d = Some e /\ relay ∈ RelayPeers e)
  /\ (forall m, Fluff m ∈ evs -> m = nextHop msg)
  /\ (forall m m' relay, Stem m relay ∈ evs -> Fluff m' ∈ evs -> False)
  /\ (4 <= HopCount (nextHop msg) -> onFluff d = true ->
      Fluff (nextHop msg) ∈ evs)
  /\ (onFluff d = true -> onStem d = true ->
      (exists relay, Stem (nextHop msg) relay ∈ evs)
      \/ Fluff (nextHop msg) ∈ evs).
Proof.
  intros evs.
  assert (Hfluff : forall m, Fluff m ∈ evs ->
            m = nextHop msg
            /\ forall m' relay, Stem m' relay ∈ evs -> False).
  { subst evs. unfold HandleAnnounce. intros m.
    destruct (ShouldFluff (HopCount (nextHop msg)) draw);
      [| destruct (epoch d) as [e |]; [destruct (RelayPeers e) |]];
      intros Hin; apply elem_of_cons in Hin as [Hin | Hin]; try discriminate;
      try (destruct (onStem d);
           [apply list_elem_of_singleton in Hin; discriminate
           | apply elem_of_nil in Hin; contradiction]);
      (destruct (onFluff d); [| apply elem_of_nil in Hin; contradiction]);
      apply list_elem_of_singleton in Hin; injection Hin as ->;
      (split; [reflexivity |]);
      intros m' relay Hs; apply elem_of_cons in Hs as [Hs | Hs];
      try discriminate;
      apply list_elem_of_singleton in Hs; discriminate. }
  split.
  { intros m relay Hin.
    destruct (HandleAnnounce_stem _ _ _ _ _ Hin) as (Hm & Hhop & Hdraw & _ & He).
    auto. }
  split; [intros m Hin; apply (Hfluff m Hin) |].
  split; [intros m m' relay Hs Hf; apply (proj2 (Hfluff m' Hf) m relay Hs) |].
  split.
  - intros Hmax Hon. subst evs. unfold HandleAnnounce, ShouldFluff.
    destruct (Z.leb_spec MaxStemHops (HopCount (nextHop msg)));
      [| unfold MaxStemHops in *; lia].
    rewrite Hon. apply list_elem_of_further, list_elem_of_here.
  - intros Hf Hs. subst evs. unfold HandleAnnounce. rewrite Hf, Hs.
    destruct (ShouldFluff (HopCount (nextHop msg)) draw);
      [right; apply list_elem_of_further, list_elem_of_here |].
    destruct (epoch d) as [e |];
      [| right; apply list_elem_of_further, list_elem_of_here].
    destruct (RelayPeers e);
      [right; apply list_elem_of_further, list_elem_of_here |].
    left. eexists. apply list_elem_of_further, list_elem_of_here.
Qed.

(** X30. The stem has at most three hops: a message that starts with hop
    count [h] below 255 is handed on along the stem by at most [3 - h]
    routers in a row, whatever their draws and relay peers, so a message
    fresh from [CreateAnnounce] is fluffed by the fourth router at the
    latest. *)
Theorem stem_length_bound (path : list (DandelionRouter * bool))
    (msg : DandelionAnnounce) :
  0 <= HopCount msg < 255 ->
  stemPath path msg ->
  Z.of_nat (length path) <= Z.max 0 (3 - HopCount msg).
Proof.
  revert msg. induction path as [| hop rest IH]; intros msg Hhop Hpath;
    [cbn [length]; lia |].
  cbn [stemPath] in Hpath. destruct Hpath as (msg' & relay & Hstem & Hrest).
  destruct (HandleAnnounce_stem _ _ _ _ _ Hstem) as (-> & Hmax & _).
  assert (Hnext : HopCount (nextHop msg) = HopCount msg + 1).
  { cbn [nextHop HopCount]. change (2 ^ 8) with 256. apply Z.mod_small. lia. }
  unfold MaxStemHops in Hmax. rewrite Hnext in Hmax.
  destruct (Z.eq_dec (HopCount msg) 254) as [H254 | H254]; [lia |].
  specialize (IH (nextHop msg)). rewrite Hnext in IH.
  specialize (IH ltac:(lia) Hrest).
  cbn [length]. lia.
Qed.

End Dandelion.

(** The theorems above at the test vectors. *)

Lemma contactPeer_debounce_witness :
  let contacted :=
    Discovery.mkDHTDiscovery TestVectors.nodeA
      (<["203.0.113.5:6881" := TestVectors.now]> ∅) in
  Discovery.contactPeer contacted "203.0.113.5:6881"
    (TestVectors.now + 30 * GoTime.Second) (Some TestVectors.peerB)
  = Some (contacted, []).
Proof.
  destruct (contactPeer_debounce
              (Discovery.mkDHTDiscovery TestVectors.nodeA ∅)
              (Discovery.mkDHTDiscovery TestVectors.nodeA
                 (<["203.0.113.5:6881" := TestVectors.now]> ∅))
              "203.0.113.5:6881" TestVectors.now None
              [Discovery.ExchangeWithPeer "203.0.113.5:6881"])
    as (_ & Hsoon & _).
  - reflexivity.
  - apply list_elem_of_here.
  - apply Hsoon. vm_compute. reflexivity.
Defined.

Lemma stem_length_bound_witness :
  let relay := Privacy.mkPeerInfo "pubkey-of-C" "10.7.0.11" "192.0.2.3:51820" in
  let router :=
    Privacy.mkDandelionRouter
      (Some (Privacy.mkEpoch 1 [relay] TestVectors.now (10 * GoTime.Minute)))
      true true in
  let msg :=
    Privacy.CreateAnnounce "pubkey-of-B" "10.7.0.9" "0.0.0.0:51820" []
      TestVectors.now TestVectors.nonce in
  let path := [(router, false); (router, false); (router, false)] in
  Notions.stemPath path msg
  /\ Z.of_nat (length path) <= Z.max 0 (3 - Privacy.HopCount msg).
Proof.
  intros relay router msg path.
  assert (Hpath : Notions.stemPath path msg).
  { cbn [Notions.stemPath path].
    repeat (eexists; eexists;
            split; [apply list_elem_of_further, list_elem_of_here |]).
    exact I. }
  split; [exact Hpath |].
  apply (stem_length_bound path msg); [| exact Hpath].
  vm_compute. split; congruence.
Defined.
